(** * Order matching and settlement core: a shallow embedding

    The development follows the Go packages of the repository:
    - [decimal]   the arbitrary-precision decimals the code computes with
                  (shopspring/decimal as the repository uses it);
    - [entity]    orders, wallets, trades, validation, required coverage;
    - [repository] the three repository interfaces and their SQL-backed
                  implementations over an explicit database state;
    - [usecase]   the trade executor, the matching loop and the order book.

    Stateful code is written in a small state-and-error monad; a result is
    [Ok], a Go [error] value, or a run-time panic (index out of range). *)

From Stdlib Require Import ZArith QArith Qpower Lia Lqa List String Ascii Bool.
From Stdlib Require Import Sorting.Sorted Sorting.Permutation.
From stdpp Require Import base list gmap strings sorting.

Local Open Scope Z_scope.

(* ===================================================================== *)
(** * Decimals *)
(* ===================================================================== *)

Module decimal.

(** A decimal is [value * 10 ^ exp]; the Go library keeps [value] in a
    [big.Int] and [exp] in an [int32].  Exponents are taken in [Z]: the
    library panics rather than wrap when a product leaves the [int32]
    range, and no amount of the system comes near it. *)
Record Decimal : Type := New { value : Z; exp : Z }.

(** [decimal.Zero] is [New(0, 1)]; the zero value of the Go struct, which
    a map lookup of an absent key yields, behaves as [New(0, 0)]. *)
Definition Zero : Decimal := New 0 1.
Definition zeroValue : Decimal := New 0 0.

Definition NewFromInt (v : Z) : Decimal := New v 0.

(** [rescale]: multiply the coefficient when the exponent decreases,
    truncate (quotient towards zero) when it increases. *)
Definition rescale (d : Decimal) (e : Z) : Decimal :=
  if exp d =? e then d
  else if e >? exp d then New (Z.quot (value d) (10 ^ (e - exp d))) e
  else New (value d * 10 ^ (exp d - e)) e.

Definition RescalePair (d1 d2 : Decimal) : Decimal * Decimal :=
  if exp d1 <? exp d2 then (d1, rescale d2 (exp d1))
  else if exp d1 >? exp d2 then (rescale d1 (exp d2), d2)
  else (d1, d2).

Definition Add (d d2 : Decimal) : Decimal :=
  let '(rd, rd2) := RescalePair d d2 in New (value rd + value rd2) (exp rd).

Definition Sub (d d2 : Decimal) : Decimal :=
  let '(rd, rd2) := RescalePair d d2 in New (value rd - value rd2) (exp rd).

Definition Mul (d d2 : Decimal) : Decimal :=
  New (value d * value d2) (exp d + exp d2).

(** [Cmp] returns -1, 0 or 1 in Go; here a [comparison]. *)
Definition Cmp (d d2 : Decimal) : comparison :=
  let '(rd, rd2) := RescalePair d d2 in value rd ?= value rd2.

Definition Equal (d d2 : Decimal) : bool :=
  match Cmp d d2 with Eq => true | _ => false end.
Definition GreaterThan (d d2 : Decimal) : bool :=
  match Cmp d d2 with Gt => true | _ => false end.
Definition LessThan (d d2 : Decimal) : bool :=
  match Cmp d d2 with Lt => true | _ => false end.
Definition LessThanOrEqual (d d2 : Decimal) : bool :=
  match Cmp d d2 with Gt => false | _ => true end.
Definition GreaterThanOrEqual (d d2 : Decimal) : bool :=
  match Cmp d d2 with Lt => false | _ => true end.

Definition Sign (d : Decimal) : Z := Z.sgn (value d).
Definition IsZero (d : Decimal) : bool := Sign d =? 0.

(** [decimal.Min(first, rest...)] at its two-argument use. *)
Definition Min (first item : Decimal) : Decimal :=
  match Cmp item first with Lt => item | _ => first end.

(** The rational a decimal denotes. *)
Definition toQ (d : Decimal) : Q := inject_Z (value d) * Qpower 10 (exp d).

(** ** Printing and parsing *)

Definition digitChar (d : Z) : ascii := ascii_of_nat (48 + Z.to_nat d).

(** Decimal digits of a natural number, most significant first; the fuel
    bounds the number of divisions by ten. *)
Fixpoint natDigits (fuel : nat) (n : Z) : list ascii :=
  match fuel with
  | O => [digitChar n]
  | S f => if n <? 10 then [digitChar n]
           else natDigits f (n / 10) ++ [digitChar (n mod 10)]
  end.

(** [big.Int.String] of a non-negative number. *)
Definition absString (n : Z) : list ascii := natDigits (Z.to_nat (Z.log2 n)) n.

(** [big.Int.String]. *)
Definition bigIntString (n : Z) : list ascii :=
  if n <? 0 then "-"%char :: absString (Z.abs n) else absString n.

(** The loop of [Decimal.string] that drops the zeros ending the
    fractional part. *)
Fixpoint trimTrailingZeros (s : list ascii) : list ascii :=
  match s with
  | [] => []
  | c :: r =>
      match trimTrailingZeros r with
      | [] => if Ascii.eqb c "0" then [] else [c]
      | r' => c :: r'
      end
  end.

(** [Decimal.string(true)], on bytes. *)
Definition stringBytes (d : Decimal) : list ascii :=
  if 0 <=? exp d then bigIntString (value (rescale d 0))
  else
    let str := absString (Z.abs (value d)) in
    let dExpInt := exp d in
    let '(intPart, fractionalPart) :=
      if - dExpInt <? Z.of_nat (length str)
      then (firstn (Z.to_nat (Z.of_nat (length str) + dExpInt)) str,
            skipn (Z.to_nat (Z.of_nat (length str) + dExpInt)) str)
      else (["0"%char],
            repeat "0"%char (Z.to_nat (- dExpInt - Z.of_nat (length str))) ++ str) in
    let fractionalPart := trimTrailingZeros fractionalPart in
    let number :=
      match fractionalPart with
      | [] => intPart
      | _ => intPart ++ "."%char :: fractionalPart
      end in
    if value d <? 0 then "-"%char :: number else number.

(** [Decimal.String] (named apart from the constructor of [string]). *)
Definition Decimal_String (d : Decimal) : string :=
  string_of_list_ascii (stringBytes d).

Definition digitVal (c : ascii) : option Z :=
  let n := nat_of_ascii c in
  if ((48 <=? n) && (n <=? 57))%nat then Some (Z.of_nat n - 48) else None.

Fixpoint parseDigits (acc : Z) (s : list ascii) : option Z :=
  match s with
  | [] => Some acc
  | c :: r =>
      match digitVal c with
      | Some d => parseDigits (10 * acc + d) r
      | None => None
      end
  end.

(** Base-ten integer syntax as [strconv.ParseInt] and [big.Int.SetString]
    read it: an optional sign, then at least one digit. *)
Definition parseInt (s : list ascii) : option Z :=
  match s with
  | [] => None
  | c :: r =>
      if Ascii.eqb c "-" then
        match r with [] => None | _ => option_map Z.opp (parseDigits 0 r) end
      else if Ascii.eqb c "+" then
        match r with [] => None | _ => parseDigits 0 r end
      else parseDigits 0 s
  end.

(** Position of the single decimal point: [None] when there are several,
    [Some None] when there is none. *)
Fixpoint pointIndex (s : list ascii) : option (option nat) :=
  match s with
  | [] => Some None
  | c :: r =>
      match pointIndex r with
      | None => None
      | Some None => if Ascii.eqb c "." then Some (Some O) else Some None
      | Some (Some i) => if Ascii.eqb c "." then None else Some (Some (S i))
      end
  end.

(** [decimal.NewFromString] on plain decimal notation (the scientific
    notation the library also reads is never produced by [Decimal_String]);
    [None] is the returned error, on which [RequireFromString] panics. *)
Definition NewFromString (s : string) : option Decimal :=
  let v := list_ascii_of_string s in
  match pointIndex v with
  | None => None
  | Some None => option_map (fun n => New n 0) (parseInt v)
  | Some (Some pIndex) =>
      let intString := firstn pIndex v ++ skipn (S pIndex) v in
      option_map (fun n => New n (- Z.of_nat (length (skipn (S pIndex) v))))
                 (parseInt intString)
  end.

Definition RequireFromString (s : string) : option Decimal := NewFromString s.

End decimal.
Export decimal.

(* ===================================================================== *)
(** * Strings *)
(* ===================================================================== *)

Module strings.

(** [strings.Split(s, sep)] for the one-byte separator the code passes:
    every maximal run between separators, so that a string without the
    separator yields itself alone and the empty string yields [[""]]. *)
Fixpoint Split (s : string) (sep : ascii) : list string :=
  match s with
  | EmptyString => [EmptyString]
  | String c r =>
      if Ascii.eqb c sep then EmptyString :: Split r sep
      else match Split r sep with
           | h :: t => String c h :: t
           | [] => [String c EmptyString]
           end
  end.

(** Whether a byte occurs in a string. *)
Fixpoint ContainsByte (s : string) (c : ascii) : bool :=
  match s with
  | EmptyString => false
  | String a r => Ascii.eqb a c || ContainsByte r c
  end.

End strings.

(* ===================================================================== *)
(** * Results and the state-and-error monad *)
(* ===================================================================== *)

(** Go [error] values: the sentinels of package [entity] and the errors
    made on the spot with [errors.New]. *)
Inductive error : Type :=
  | ErrInvalidPrice
  | ErrInvalidQuantity
  | ErrInvalidOrderType
  | ErrInvalidPairFormat
  | ErrMaxQuantity
  | ErrMaxPrice
  | errors_New (msg : string).

(** What a call leaves behind: a value, a returned error, or a panic
    (the only panics of the core are slice indexes out of range). *)
Inductive outcome (A : Type) : Type :=
  | Ok (a : A)
  | Err (e : error)
  | Panic.
Arguments Ok {A} a.
Arguments Err {A} e.
Arguments Panic {A}.

(** A computation over a store [S].  The store survives an error: what a
    failed call wrote stays written until the caller rolls back. *)
Definition M (S A : Type) : Type := S -> S * outcome A.

Definition ret {S A} (a : A) : M S A := fun s => (s, Ok a).
Definition fail {S A} (e : error) : M S A := fun s => (s, Err e).
Definition panic {S A} : M S A := fun s => (s, Panic).

(** [if err := c; err != nil { return err }] followed by [k]. *)
Definition bind {S A B} (c : M S A) (k : A -> M S B) : M S B :=
  fun s => match c s with
           | (s', Ok a) => k a s'
           | (s', Err e) => (s', Err e)
           | (s', Panic) => (s', Panic)
           end.

Notation "x <- c1 ;; c2" := (bind c1 (fun x => c2))
  (at level 100, c1 at next level, right associativity).
Notation "c1 ;; c2" := (bind c1 (fun _ => c2))
  (at level 100, right associativity).

(** [l[i]]: a slice index, panicking out of range. *)
Definition index {S A} (l : list A) (i : nat) : M S A :=
  match nth_error l i with
  | Some x => ret x
  | None => panic
  end.

(* ===================================================================== *)
(** * Package entity *)
(* ===================================================================== *)

Module entity.

(** [uuid.UUID] is sixteen bytes; read as a number. [uuid.Nil] is 0. *)
Definition UUID : Type := N.
(** [time.Time] as a count of clock ticks. *)
Definition Timestamp : Type := Z.

Definition OrderTypeBuy : string := "BUY".
Definition OrderTypeSell : string := "SELL".

Definition OrderStatusOpen : string := "OPEN".
Definition OrderStatusFilled : string := "FILLED".
Definition OrderStatusPartial : string := "PARTIALLY_FILLED".
Definition OrderStatusCancelled : string := "CANCELLED".

Definition MaxQuantity : Z := 1000.
Definition MaxPrice : Z := 100000000.

Record Order : Type := mkOrder {
  ID : UUID;
  CreatedAt : Timestamp;
  UpdatedAt : Timestamp;
  AccountID : UUID;
  InstrumentPair : string;
  OrderType : string;
  Price : Decimal;
  Quantity : Decimal;
  RemainingQuantity : Decimal;
  Status : string
}.

Definition withRemainingQuantity (o : Order) (q : Decimal) : Order :=
  mkOrder (ID o) (CreatedAt o) (UpdatedAt o) (AccountID o) (InstrumentPair o)
          (OrderType o) (Price o) (Quantity o) q (Status o).

Definition withStatus (o : Order) (st : string) : Order :=
  mkOrder (ID o) (CreatedAt o) (UpdatedAt o) (AccountID o) (InstrumentPair o)
          (OrderType o) (Price o) (Quantity o) (RemainingQuantity o) st.

Record Wallet : Type := mkWallet {
  wID : UUID;
  wAccountID : UUID;
  AssetSymbol : string;
  Balance : Decimal;
  wDeletedAt : option Timestamp
}.

Definition withBalance (w : Wallet) (b : Decimal) : Wallet :=
  mkWallet (wID w) (wAccountID w) (AssetSymbol w) b (wDeletedAt w).

(** A trade, without the timestamps the database fills in. *)
Record Trade : Type := mkTrade {
  tID : UUID;
  BuyerOrderID : UUID;
  SellerOrderID : UUID;
  tPrice : Decimal;
  tQuantity : Decimal
}.

Definition IsValidInstrumentPair (pair : string) : bool :=
  let assets := strings.Split pair "_" in
  (length assets =? 2)%nat
  && negb (String.eqb (nth 0 assets EmptyString) EmptyString)
  && negb (String.eqb (nth 1 assets EmptyString) EmptyString).

(** [Order.Validate]: [None] is the Go [nil]. *)
Definition Validate (o : Order) : option error :=
  if LessThanOrEqual (Price o) decimal.Zero then Some ErrInvalidPrice
  else if LessThanOrEqual (Quantity o) decimal.Zero then Some ErrInvalidQuantity
  else if GreaterThan (Quantity o) (NewFromInt MaxQuantity) then Some ErrMaxQuantity
  else if GreaterThan (Price o) (NewFromInt MaxPrice) then Some ErrMaxPrice
  else if negb (String.eqb (OrderType o) OrderTypeBuy)
          && negb (String.eqb (OrderType o) OrderTypeSell)
       then Some ErrInvalidOrderType
  else if negb (IsValidInstrumentPair (InstrumentPair o)) then Some ErrInvalidPairFormat
  else None.

(** [Order.GetRequiredAssetAndAmount]; [None] is the panic of an index
    out of range. *)
Definition GetRequiredAssetAndAmount (o : Order) : option (string * Decimal) :=
  let assets := strings.Split (InstrumentPair o) "_" in
  if String.eqb (OrderType o) OrderTypeBuy then
    match nth_error assets 1 with
    | Some quote => Some (quote, Mul (Price o) (Quantity o))
    | None => None
    end
  else
    match nth_error assets 0 with
    | Some base => Some (base, Quantity o)
    | None => None
    end.

End entity.
Export entity.

(* ===================================================================== *)
(** * Package repository *)
(* ===================================================================== *)

Module repository.

(** ** The interfaces

    Of each interface the methods that matching, settlement and the order
    book call.  The transaction handle [tx] every method takes is the
    store the monad threads. *)

Class WalletRepository (S : Type) : Type := {
  GetByAccountAndAsset : UUID -> string -> M S (option Wallet);
  AddToBalance : UUID -> string -> Decimal -> M S unit;
  SubtractFromBalance : UUID -> string -> Decimal -> M S unit
}.

Class OrderRepository (S : Type) : Type := {
  GetOpenOrdersByInstrumentPair : string -> M S (list Order);
  UpdateRemainingAndStatus : UUID -> Decimal -> string -> M S unit;
  GetMatchingOrders :
    UUID -> string -> string -> Decimal -> bool -> M S (list Order)
}.

(** [Create] hands the trade back: the Go method fills in the id of the
    trade it is given a pointer to. *)
Class TradeRepository (S : Type) : Type := {
  Create : Trade -> M S Trade
}.

(** ** The database

    The three tables of [schema.sql] the core touches.  Columns hold the
    decimals as written; the rounding of [DECIMAL(20,8)] is not modelled.
    [nextID] supplies the ids that [uuid.New] draws. *)
Record DB : Type := mkDB {
  wallets : list Wallet;
  orders : list Order;
  trades : list Trade;
  nextID : UUID
}.

Definition withWallets (db : DB) (ws : list Wallet) : DB :=
  mkDB ws (orders db) (trades db) (nextID db).
Definition withOrders (db : DB) (os : list Order) : DB :=
  mkDB (wallets db) os (trades db) (nextID db).

(** ** walletRepository *)

(** [account_id = ? AND asset_symbol = ? AND deleted_at IS NULL] *)
Definition walletRow (accountID : UUID) (assetSymbol : string) (w : Wallet) : bool :=
  N.eqb (wAccountID w) accountID
  && String.eqb (AssetSymbol w) assetSymbol
  && match wDeletedAt w with None => true | Some _ => false end.

(** [First] takes the first row that matches; the table allows one row
    per account and asset. *)
Definition walletRepository_GetByAccountAndAsset
    (accountID : UUID) (assetSymbol : string) : M DB (option Wallet) :=
  fun db => (db, Ok (List.find (walletRow accountID assetSymbol) (wallets db))).

(** [UPDATE wallet SET balance = balance - ?] (or [balance + ?]) on the
    rows of the account and asset; the table of [schema.sql] puts no
    constraint on the sign of [balance].  No row updated is the one
    failure. *)
Definition updateBalance
    (accountID : UUID) (assetSymbol : string) (amount : Decimal) (isAdd : bool)
    : M DB unit :=
  fun db =>
    let updateClause (balance : Decimal) :=
      if isAdd then Add balance amount else Sub balance amount in
    let hit := walletRow accountID assetSymbol in
    let RowsAffected := length (List.filter hit (wallets db)) in
    let db' :=
      withWallets db
        (List.map (fun w => if hit w then withBalance w (updateClause (Balance w)) else w)
                  (wallets db)) in
    if (RowsAffected =? 0)%nat
    then (db', Err (errors_New "insufficient balance or wallet not found"))
    else (db', Ok tt).

Definition walletRepository_SubtractFromBalance
    (accountID : UUID) (assetSymbol : string) (amount : Decimal) : M DB unit :=
  updateBalance accountID assetSymbol amount false.

Definition walletRepository_AddToBalance
    (accountID : UUID) (assetSymbol : string) (amount : Decimal) : M DB unit :=
  updateBalance accountID assetSymbol amount true.

#[export] Instance walletRepository : WalletRepository DB := {
  GetByAccountAndAsset := walletRepository_GetByAccountAndAsset;
  AddToBalance := walletRepository_AddToBalance;
  SubtractFromBalance := walletRepository_SubtractFromBalance
}.

(** ** orderRepository *)

(** [instrument_pair = ? AND status = ?] with status [OPEN]; rows come in
    table order, the query names none. *)
Definition orderRepository_GetOpenOrdersByInstrumentPair
    (instrumentPair : string) : M DB (list Order) :=
  fun db =>
    (db, Ok (List.filter
               (fun o => String.eqb (InstrumentPair o) instrumentPair
                         && String.eqb (Status o) OrderStatusOpen)
               (orders db))).

(** [UPDATE "order" SET remaining_quantity = ?, status = ? WHERE id = ?];
    the number of rows updated is not looked at. *)
Definition orderRepository_UpdateRemainingAndStatus
    (id : UUID) (quantity : Decimal) (status : string) : M DB unit :=
  fun db =>
    (withOrders db
       (List.map (fun o => if N.eqb (ID o) id
                           then withStatus (withRemainingQuantity o quantity) status
                           else o)
                 (orders db)),
     Ok tt).

(** The [WHERE] clause of [GetMatchingOrders]. *)
Definition matchingRow
    (accountID : UUID) (instrumentPair orderType : string)
    (price : Decimal) (isBuyOrder : bool) (o : Order) : bool :=
  String.eqb (InstrumentPair o) instrumentPair
  && String.eqb (OrderType o) orderType
  && (String.eqb (Status o) OrderStatusOpen || String.eqb (Status o) OrderStatusPartial)
  && negb (N.eqb (AccountID o) accountID)
  && (if isBuyOrder then LessThanOrEqual (Price o) price
      else GreaterThanOrEqual (Price o) price).

(** [ORDER BY price ASC, created_at ASC] for a buyer, [price DESC,
    created_at ASC] for a seller: row [a] may come before row [b]. *)
Definition orderBy (isBuyOrder : bool) (a b : Order) : bool :=
  match Cmp (Price a) (Price b) with
  | Lt => isBuyOrder
  | Gt => negb isBuyOrder
  | Eq => CreatedAt a <=? CreatedAt b
  end.

Definition comesBefore (isBuyOrder : bool) (a b : Order) : Prop :=
  orderBy isBuyOrder a b = true.

#[export] Instance comesBefore_dec isBuyOrder a b :
  Decision (comesBefore isBuyOrder a b) :=
  bool_eq_dec (orderBy isBuyOrder a b) true.

(** The query sorts the selected rows; between rows equal in price and
    creation time SQL fixes no order, and a merge sort stands for the
    one the database picks. *)
Definition orderRepository_GetMatchingOrders
    (accountID : UUID) (instrumentPair orderType : string)
    (price : Decimal) (isBuyOrder : bool) : M DB (list Order) :=
  fun db =>
    (db, Ok (merge_sort (comesBefore isBuyOrder)
               (List.filter (matchingRow accountID instrumentPair orderType price isBuyOrder)
                            (orders db)))).

#[export] Instance orderRepository : OrderRepository DB := {
  GetOpenOrdersByInstrumentPair := orderRepository_GetOpenOrdersByInstrumentPair;
  UpdateRemainingAndStatus := orderRepository_UpdateRemainingAndStatus;
  GetMatchingOrders := orderRepository_GetMatchingOrders
}.

(** ** tradeRepository *)

(** [tx.Create(trade)], after the [BeforeCreate] hook gave a trade
    without id a fresh one. *)
Definition tradeRepository_Create (trade : Trade) : M DB Trade :=
  fun db =>
    let '(trade, next) :=
      if N.eqb (tID trade) 0
      then (mkTrade (nextID db) (BuyerOrderID trade) (SellerOrderID trade)
                    (tPrice trade) (tQuantity trade), N.succ (nextID db))
      else (trade, nextID db) in
    (mkDB (wallets db) (orders db) (trades db ++ [trade]) next, Ok trade).

#[export] Instance tradeRepository : TradeRepository DB := {
  Create := tradeRepository_Create
}.

End repository.
Export repository.

(* ===================================================================== *)
(** * Package usecase *)
(* ===================================================================== *)

Module usecase.

Record OrderBookEntry : Type := mkEntry {
  ePrice : Decimal;
  eQuantity : Decimal
}.

Record OrderBook : Type := mkOrderBook {
  obInstrumentPair : string;
  Bids : list OrderBookEntry;
  Asks : list OrderBookEntry
}.

(** The executor hands both orders back: the Go method updates them
    through the pointers it is given. *)
Class TradeExecutor (S : Type) : Type := {
  Execute : Order -> Order -> Decimal -> M S (Order * Order)
}.

(** ** tradeExecutor *)

Section tradeExecutor.
Context {S : Type}.
Context {orderRepo : OrderRepository S}.
Context {walletRepo : WalletRepository S}.
Context {tradeRepo : TradeRepository S}.

Definition newStatusOf (o : Order) : string :=
  if IsZero (RemainingQuantity o) then OrderStatusFilled
  else if Equal (RemainingQuantity o) (Quantity o) then OrderStatusOpen
  else OrderStatusPartial.

Definition updateOrderStatus (o : Order) : M S Order :=
  let newStatus := newStatusOf o in
  UpdateRemainingAndStatus (ID o) (RemainingQuantity o) newStatus ;;
  ret (withStatus o newStatus).

Definition settle (order matchingOrder : Order) (qty : Decimal) : M S unit :=
  let parts := strings.Split (InstrumentPair order) "_" in
  base <- index parts 0 ;;
  quote <- index parts 1 ;;
  let '(buyer, seller) :=
    if String.eqb (OrderType order) "SELL"
    then (matchingOrder, order) else (order, matchingOrder) in
  let total := Mul (Price matchingOrder) qty in
  SubtractFromBalance (AccountID seller) base qty ;;
  AddToBalance (AccountID buyer) base qty ;;
  SubtractFromBalance (AccountID buyer) quote total ;;
  AddToBalance (AccountID seller) quote total.

Definition tradeExecutor_Execute
    (order matchingOrder : Order) (qty : Decimal) : M S (Order * Order) :=
  let '(buyID, sellID) :=
    if String.eqb (OrderType order) "SELL"
    then (ID matchingOrder, ID order) else (ID order, ID matchingOrder) in
  let trade := mkTrade 0%N buyID sellID (Price matchingOrder) qty in
  Create trade ;;
  let order :=
    withRemainingQuantity order (Sub (RemainingQuantity order) qty) in
  let matchingOrder :=
    withRemainingQuantity matchingOrder (Sub (RemainingQuantity matchingOrder) qty) in
  order <- updateOrderStatus order ;;
  matchingOrder <- updateOrderStatus matchingOrder ;;
  settle order matchingOrder qty ;;
  ret (order, matchingOrder).

#[export] Instance tradeExecutor : TradeExecutor S := {
  Execute := tradeExecutor_Execute
}.
End tradeExecutor.

(** ** orderUseCase *)

(** [sort.Slice(x, less)] leaves no pair out of order: an element never
    comes before one that [less] puts ahead of it. *)
Definition notAfter {A} (less : A -> A -> bool) (a b : A) : Prop := less b a = false.

#[export] Instance notAfter_dec {A} (less : A -> A -> bool) a b :
  Decision (notAfter less a b) := bool_eq_dec (less b a) false.

Definition sort_Slice {A} (less : A -> A -> bool) (x : list A) : list A :=
  merge_sort (notAfter less) x.

(** [m[k]] of a Go map: the zero value when the key is absent. *)
Definition mapIndex (m : gmap string Decimal) (k : string) : Decimal :=
  default zeroValue (m !! k).

(** [m[k] = m[k].Add(q)] with [k] the price as a string *)
Definition addToLevel (m : gmap string Decimal) (order : Order) : gmap string Decimal :=
  <[Decimal_String (Price order) :=
      Add (mapIndex m (Decimal_String (Price order))) (RemainingQuantity order)]> m.

(** The keys of a map, in the order its iteration yields them. *)
Definition mapKeys (m : gmap string Decimal) : list string := (map_to_list m).*1.

Section orderUseCase.
Context {S : Type}.
Context {orderRepository : OrderRepository S}.
Context {walletRepository : WalletRepository S}.
Context {executor : TradeExecutor S}.

(** The loop of [matchOrder] over the orders the repository returned. *)
Fixpoint matchLoop (order : Order) (matchingOrders : list Order) : M S Order :=
  match matchingOrders with
  | [] => ret order
  | matchingOrder :: rest =>
      let qty := Min (RemainingQuantity order) (RemainingQuantity matchingOrder) in
      r <- Execute order matchingOrder qty ;;
      let order := fst r in
      if IsZero (RemainingQuantity order) then ret order
      else matchLoop order rest
  end.

Definition matchOrder (order : Order) : M S Order :=
  let oppositeOrderType :=
    if String.eqb (OrderType order) "SELL" then "BUY"%string else "SELL"%string in
  matchingOrders <-
    GetMatchingOrders (AccountID order) (InstrumentPair order) oppositeOrderType
                      (Price order) (String.eqb (OrderType order) "BUY") ;;
  if (length matchingOrders =? 0)%nat then ret order
  else matchLoop order matchingOrders.

Definition checkWalletBalance (order : Order) : M S unit :=
  match GetRequiredAssetAndAmount order with
  | None => panic
  | Some (requiredAsset, requiredAmount) =>
      wallet <- GetByAccountAndAsset (AccountID order) requiredAsset ;;
      match wallet with
      | None => fail (errors_New "wallet not found for required asset")
      | Some w =>
          if LessThan (Balance w) requiredAmount
          then fail (errors_New "insufficient balance")
          else ret tt
      end
  end.

(** [decimal.RequireFromString] over the keys of a level map. *)
Fixpoint requireAll (keys : list string) : M S (list Decimal) :=
  match keys with
  | [] => ret []
  | p :: rest =>
      match RequireFromString p with
      | None => panic
      | Some d => ds <- requireAll rest ;; ret (d :: ds)
      end
  end.

Definition levels (m : gmap string Decimal) (prices : list Decimal)
    : list OrderBookEntry :=
  List.map (fun p => mkEntry p (mapIndex m (Decimal_String p))) prices.

(** [GetOrderBook]: [Ok None] is the pair [(nil, nil)]. *)
Definition GetOrderBook (instrumentPair : string) : M S (option OrderBook) :=
  if negb (IsValidInstrumentPair instrumentPair) then fail ErrInvalidPairFormat
  else
    orders <- GetOpenOrdersByInstrumentPair instrumentPair ;;
    if (length orders =? 0)%nat then ret None
    else
      let '(bidsMap, asksMap) :=
        fold_left
          (fun maps order =>
             if String.eqb (OrderType order) "BUY"
             then (addToLevel (fst maps) order, snd maps)
             else (fst maps, addToLevel (snd maps) order))
          orders (∅, ∅) in
      bidPrices <- requireAll (mapKeys bidsMap) ;;
      let bidPrices := sort_Slice GreaterThan bidPrices in
      askPrices <- requireAll (mapKeys asksMap) ;;
      let askPrices := sort_Slice LessThan askPrices in
      ret (Some (mkOrderBook instrumentPair
                   (levels bidsMap bidPrices) (levels asksMap askPrices))).
End orderUseCase.

End usecase.
Export usecase.


(* ===================================================================== *)
(** * Vocabulary of the statements *)
(* ===================================================================== *)

(** [pair] reads as [base], one separator, [quote], neither part holding
    a separator of its own. *)
Definition pairOf (base quote : string) (pair : string) : Prop :=
  pair = (base ++ String "_" quote)%string
  /\ strings.ContainsByte base "_" = false
  /\ strings.ContainsByte quote "_" = false.

(** The side is one of the two order types. *)
Definition validSide (o : Order) : Prop :=
  OrderType o = OrderTypeBuy \/ OrderType o = OrderTypeSell.

(** The pair format of the data model: exactly two non-empty components. *)
Definition validPair (o : Order) : Prop :=
  exists base quote,
    pairOf base quote (InstrumentPair o)
    /\ base <> EmptyString /\ quote <> EmptyString.


(** ** Recording what the repositories are asked to do

    The use cases are written against the repository interfaces.  To
    speak of the calls they make, any implementation is wrapped so that
    each mutating call is appended to a log kept beside the store; the
    wrapped call then runs unchanged, and the log keeps the call whether
    it succeeds or fails. *)

Inductive Event : Type :=
  | TradeCreated (trade : Trade)
  | OrderUpdated (id : UUID) (remaining : Decimal) (status : string)
  | Debit (account : UUID) (asset : string) (amount : Decimal)
  | Credit (account : UUID) (asset : string) (amount : Decimal).

Definition recorded {S A} (e : Event) (c : M S A) : M (S * list Event) A :=
  fun sl => let '(s', r) := c (fst sl) in ((s', snd sl ++ [e]), r).

Definition unrecorded {S L A} (c : M S A) : M (S * L) A :=
  fun sl => let '(s', r) := c (fst sl) in ((s', snd sl), r).

Section recording.
Context {S : Type}.
Context (orderRepo : OrderRepository S).
Context (walletRepo : WalletRepository S).
Context (tradeRepo : TradeRepository S).

Definition recordingOrders : OrderRepository (S * list Event) := {|
  GetOpenOrdersByInstrumentPair pair :=
    unrecorded (GetOpenOrdersByInstrumentPair pair);
  UpdateRemainingAndStatus id quantity status :=
    recorded (OrderUpdated id quantity status)
             (UpdateRemainingAndStatus id quantity status);
  GetMatchingOrders accountID pair orderType price isBuyOrder :=
    unrecorded (GetMatchingOrders accountID pair orderType price isBuyOrder)
|}.

Definition recordingWallets : WalletRepository (S * list Event) := {|
  GetByAccountAndAsset accountID asset :=
    unrecorded (GetByAccountAndAsset accountID asset);
  AddToBalance accountID asset amount :=
    recorded (Credit accountID asset amount) (AddToBalance accountID asset amount);
  SubtractFromBalance accountID asset amount :=
    recorded (Debit accountID asset amount) (SubtractFromBalance accountID asset amount)
|}.

Definition recordingTrades : TradeRepository (S * list Event) := {|
  Create trade := recorded (TradeCreated trade) (Create trade)
|}.

(** The repository call an event stands for. *)
Definition perform (e : Event) : M S unit :=
  match e with
  | TradeCreated trade => Create trade ;; ret tt
  | OrderUpdated id remaining status => UpdateRemainingAndStatus id remaining status
  | Debit account asset amount => SubtractFromBalance account asset amount
  | Credit account asset amount => AddToBalance account asset amount
  end.

(** Perform the events one after the other, logging each as it is
    performed, and give up at the first that does not succeed. *)
Fixpoint performAll (es : list Event) : M (S * list Event) unit :=
  match es with
  | [] => ret tt
  | e :: rest => recorded e (perform e) ;; performAll rest
  end.
End recording.

(** ** The parties and the steps of one execution, in the spec's words *)

(** Whichever of taker and maker has side BUY is the buyer, the other the
    seller. *)
Definition buyerOf (taker maker : Order) : Order :=
  if String.eqb (OrderType taker) OrderTypeBuy then taker else maker.
Definition sellerOf (taker maker : Order) : Order :=
  if String.eqb (OrderType taker) OrderTypeBuy then maker else taker.

(** The trade record: execution at the maker's limit price. *)
Definition tradeOf (taker maker : Order) (qty : Decimal) : Trade :=
  mkTrade 0%N (ID (buyerOf taker maker)) (ID (sellerOf taker maker))
          (Price maker) qty.

(** total = maker's price x qty; base from seller to buyer, then quote
    from buyer to seller. *)
Definition settlementLegs
    (taker maker : Order) (qty : Decimal) (base quote : string) : list Event :=
  let total := Mul (Price maker) qty in
  [ Debit (AccountID (sellerOf taker maker)) base qty;
    Credit (AccountID (buyerOf taker maker)) base qty;
    Debit (AccountID (buyerOf taker maker)) quote total;
    Credit (AccountID (sellerOf taker maker)) quote total ].

(** The status that goes with a remaining quantity. *)
Definition fillStatus (o : Order) : Prop :=
  ((toQ (RemainingQuantity o) == 0)%Q -> Status o = OrderStatusFilled)
  /\ ((toQ (RemainingQuantity o) == toQ (Quantity o))%Q -> Status o = OrderStatusOpen)
  /\ ((0 < toQ (RemainingQuantity o) < toQ (Quantity o))%Q ->
      Status o = OrderStatusPartial).

(** An order after [qty] of it was executed. *)
Definition afterFill (o : Order) (qty : Decimal) : Order :=
  let o' := withRemainingQuantity o (Sub (RemainingQuantity o) qty) in
  withStatus o' (newStatusOf o').

Definition executionScript
    (taker maker : Order) (qty : Decimal) (base quote : string) : list Event :=
  TradeCreated (tradeOf taker maker qty)
  :: OrderUpdated (ID taker) (RemainingQuantity (afterFill taker qty))
                  (Status (afterFill taker qty))
  :: OrderUpdated (ID maker) (RemainingQuantity (afterFill maker qty))
                  (Status (afterFill maker qty))
  :: settlementLegs taker maker qty base quote.

(** The two orders of the coverage example: 0.5 BTC_BRL at 200000.00. *)
Definition coverageExample (side : string) : Order :=
  mkOrder 1%N 0 0 1%N "BTC_BRL" side (New 20000000 (-2)) (New 5 (-1)) (New 5 (-1))
          OrderStatusOpen.

(** What an execution returns once its steps have run: the two orders
    as the fill leaves them. *)
Definition executed (taker maker : Order) (qty : Decimal)
    (r : outcome unit) : outcome (Order * Order) :=
  match r with
  | Ok _ => Ok (afterFill taker qty, afterFill maker qty)
  | Err e => Err e
  | Panic => Panic
  end.

(** ** A worked example

    Account 1 buys 0.5 BTC at a limit of 200000 BRL; account 2 has 0.8 BTC
    on offer at 199000 BRL. *)
Definition exampleTaker : Order :=
  mkOrder 10%N 5 5 1%N "BTC_BRL" "BUY" (New 200000 0) (New 5 (-1)) (New 5 (-1))
          OrderStatusOpen.

Definition exampleMaker : Order :=
  mkOrder 20%N 3 3 2%N "BTC_BRL" "SELL" (New 199000 0) (New 8 (-1)) (New 8 (-1))
          OrderStatusOpen.

Definition exampleDB : DB :=
  mkDB [ mkWallet 1%N 1%N "BRL" (New 150000 0) None;
         mkWallet 2%N 1%N "BTC" (New 0 0) None;
         mkWallet 3%N 2%N "BRL" (New 0 0) None;
         mkWallet 4%N 2%N "BTC" (New 1 0) None ]
       [ exampleMaker; exampleTaker ] [] 100%N.

(** A wallet holding 0.5 BTC. *)
Definition overdraftDB : DB :=
  mkDB [ mkWallet 1%N 1%N "BTC" (New 5 (-1)) None ] [] [] 100%N.

(** A book whose only resting order is partially filled: a BUY of 1 BTC
    at 100 with 0.4 remaining; and the same book with an untouched BUY of
    1 BTC at 100 beside it. *)
Definition partialOrder : Order :=
  mkOrder 30%N 1 2 1%N "BTC_BRL" "BUY" (New 100 0) (New 10 (-1)) (New 4 (-1))
          OrderStatusPartial.

Definition openOrder : Order :=
  mkOrder 31%N 3 3 2%N "BTC_BRL" "BUY" (New 100 0) (New 10 (-1)) (New 10 (-1))
          OrderStatusOpen.

Definition partialOnlyDB : DB := mkDB [] [ partialOrder ] [] 100%N.
Definition partialAndOpenDB : DB := mkDB [] [ partialOrder; openOrder ] [] 100%N.

(** The side a taker is matched against, and whether the taker buys, as
    [matchOrder] passes them to the repository. *)
Definition oppositeOrderType (taker : Order) : string :=
  if String.eqb (OrderType taker) "SELL" then "BUY"%string else "SELL"%string.
Definition takerBuys (taker : Order) : bool := String.eqb (OrderType taker) "BUY".

(** The book of the price-time example: three offers to sell BTC, at 100
    (created at 7), at 99 (created at 8) and at 100 (created at 3), an
    offer at 101, one of the taker's own account, one already filled;
    and a taker buying at a limit of 100. *)
Definition offer (id : N) (created : Z) (account : N) (price : Z) (status : string) : Order :=
  mkOrder id created created account "BTC_BRL" "SELL" (New price 0)
          (New 1 0) (New 1 0) status.

Definition priorityDB : DB :=
  mkDB []
       [ offer 1 7 2 100 OrderStatusOpen;
         offer 2 8 3 99 OrderStatusOpen;
         offer 3 3 4 100 OrderStatusPartial;
         offer 4 1 5 101 OrderStatusOpen;
         offer 5 1 1 90 OrderStatusOpen;
         offer 6 1 6 95 OrderStatusFilled ]
       [] 100%N.

Definition priorityTaker : Order :=
  mkOrder 50%N 9 9 1%N "BTC_BRL" "BUY" (New 100 0) (New 3 0) (New 3 0) OrderStatusOpen.

(** ** Recording what the executor is asked to do

    The matching loop is written against the executor interface; an
    executor is wrapped so that every call is logged with its arguments
    and with what it returned. *)

Record Call : Type := mkCall {
  callTaker : Order;
  callMaker : Order;
  callQty : Decimal;
  callResult : outcome (Order * Order)
}.

Definition recordingExecutor {S} (E : TradeExecutor S) : TradeExecutor (S * list Call) := {|
  Execute order matchingOrder qty :=
    fun sl =>
      let '(s', r) := Execute order matchingOrder qty (fst sl) in
      ((s', snd sl ++ [mkCall order matchingOrder qty r]), r)
|}.

(** The order repository beside a log it does not write to. *)
Definition besideLog {S} (L : Type) (O : OrderRepository S) : OrderRepository (S * L) := {|
  GetOpenOrdersByInstrumentPair pair :=
    unrecorded (GetOpenOrdersByInstrumentPair pair);
  UpdateRemainingAndStatus id quantity status :=
    unrecorded (UpdateRemainingAndStatus id quantity status);
  GetMatchingOrders accountID pair orderType price isBuyOrder :=
    unrecorded (GetMatchingOrders accountID pair orderType price isBuyOrder)
|}.

(** The runs of the matching loop: the calls made for a taker over a
    list of makers, and the outcome. *)
Inductive MatchRun : Order -> list Order -> list Call -> outcome Order -> Prop :=
  | run_none order :
      MatchRun order [] [] (Ok order)
  | run_err order m ms e :
      MatchRun order (m :: ms)
        [ mkCall order m (Min (RemainingQuantity order) (RemainingQuantity m)) (Err e) ]
        (Err e)
  | run_panic order m ms :
      MatchRun order (m :: ms)
        [ mkCall order m (Min (RemainingQuantity order) (RemainingQuantity m)) Panic ]
        Panic
  | run_filled order m ms t m' :
      IsZero (RemainingQuantity t) = true ->
      MatchRun order (m :: ms)
        [ mkCall order m (Min (RemainingQuantity order) (RemainingQuantity m))
                 (Ok (t, m')) ]
        (Ok t)
  | run_next order m ms t m' calls r :
      IsZero (RemainingQuantity t) = false ->
      MatchRun t ms calls r ->
      MatchRun order (m :: ms)
        (mkCall order m (Min (RemainingQuantity order) (RemainingQuantity m))
                (Ok (t, m')) :: calls)
        r.

(** A mock executor that fills the taker and touches no store, and one
    that always fails. *)
Definition fillingExecutor {S} : TradeExecutor S := {|
  Execute order matchingOrder qty :=
    fun s => (s, Ok (afterFill order qty, afterFill matchingOrder qty))
|}.

Definition failingExecutor {S} : TradeExecutor S := {|
  Execute order matchingOrder qty := fun s => (s, Err (errors_New "exec failed"))
|}.

(** ** Reading digit strings *)

(** The number a string of digits writes, after the digits read so far. *)
Fixpoint digitsValue (acc : Z) (s : list ascii) : Z :=
  match s with
  | [] => acc
  | c :: r =>
      digitsValue (10 * acc + match digitVal c with Some d => d | None => 0 end) r
  end.

Definition isDigit (c : ascii) : Prop := is_Some (digitVal c).

(** The sign a printed decimal carries. *)
Definition signed (negative : bool) (n : Z) : Z := if negative then - n else n.

Definition withSign (negative : bool) (number : list ascii) : list ascii :=
  if negative then "-"%char :: number else number.

Definition pointed (intPart fractionalPart : list ascii) : list ascii :=
  match fractionalPart with
  | [] => intPart
  | _ => intPart ++ "."%char :: fractionalPart
  end.

(** ** Price levels *)

(** The remaining quantity that the orders of a list offer at a price. *)
Fixpoint quantityAt (price : Q) (l : list Order) : Q :=
  match l with
  | [] => 0
  | o :: r =>
      (if Qeq_bool (toQ (Price o)) price then toQ (RemainingQuantity o) else 0)
      + quantityAt price r
  end.

(** The orders the aggregation counts as bids, and as asks. *)
Definition bidOrders (orders : list Order) : list Order :=
  List.filter (fun o => String.eqb (OrderType o) "BUY") orders.
Definition askOrders (orders : list Order) : list Order :=
  List.filter (fun o => negb (String.eqb (OrderType o) "BUY")) orders.

(** What it is for a list of levels to aggregate a list of orders: every
    order has its level, every level has an order and carries the sum of
    the remaining quantities at its price. *)
Definition aggregates (levels : list OrderBookEntry) (l : list Order) : Prop :=
  (forall o, In o l ->
     exists e, In e levels /\ (toQ (ePrice e) == toQ (Price o))%Q)
  /\ (forall e, In e levels ->
        (exists o, In o l /\ (toQ (Price o) == toQ (ePrice e))%Q)
        /\ (toQ (eQuantity e) == quantityAt (toQ (ePrice e)) l)%Q).

(** The two orders of the aggregation example: BUY at "100" for 1.0 and
    BUY at "100.00" for 0.4. *)
Definition bookExampleDB : DB :=
  mkDB []
       [ mkOrder 1%N 1 1 1%N "BTC_BRL" "BUY" (New 100 0) (New 10 (-1)) (New 10 (-1))
                 OrderStatusOpen;
         mkOrder 2%N 2 2 2%N "BTC_BRL" "BUY" (New 10000 (-2)) (New 4 (-1)) (New 4 (-1))
                 OrderStatusOpen ]
       [] 100%N.

(* ===================================================================== *)
(** * The rest of the order repository and of the order use case *)
(* ===================================================================== *)

(** The methods of [OrderRepository] that placing and cancelling an
    order call besides those above. *)
Class OrderRepositoryRest (S : Type) : Type := {
  order_Create : Order -> M S Order;
  GetByID : UUID -> list string -> M S (option Order);
  UpdateStatus : UUID -> string -> M S unit
}.

(** [WHERE id = ? AND status IN ?], the status condition being added only
    when statuses are given; [First] takes the first row that matches,
    and no row is [nil, nil]. *)
Definition orderRepository_GetByID (id : UUID) (status : list string) : M DB (option Order) :=
  fun db =>
    (db, Ok (List.find
               (fun o => N.eqb (ID o) id
                         && match status with
                            | [] => true
                            | _ => existsb (String.eqb (Status o)) status
                            end)
               (orders db))).

(** [UPDATE "order" SET status = ? WHERE id = ?] *)
Definition orderRepository_UpdateStatus (id : UUID) (status : string) : M DB unit :=
  fun db =>
    (withOrders db
       (List.map (fun o => if N.eqb (ID o) id then withStatus o status else o)
                 (orders db)),
     Ok tt).

Section orderUseCase_rest.
Context {S : Type}.
Context {orderRepository : OrderRepository S}.
Context {orderRepositoryRest : OrderRepositoryRest S}.
Context {walletRepository : WalletRepository S}.
Context {executor : TradeExecutor S}.

Definition CancelOrder (id : UUID) : M S unit :=
  order <- GetByID id [OrderStatusOpen] ;;
  match order with
  | None => ret tt
  | Some _ => UpdateStatus id OrderStatusCancelled
  end.

(** What [CreateOrder] does between [Begin] and [Commit]. *)
Definition placeOrder (order : Order) : M S Order :=
  checkWalletBalance order ;;
  let order := withStatus order OrderStatusOpen in
  let order := withRemainingQuantity order (Quantity order) in
  order <- order_Create order ;;
  matchOrder order.

(** [CreateOrder].  The transaction is the store the steps run on:
    [Rollback] gives back the store of before [Begin] and [Commit], taken
    to succeed, keeps the store the steps left.  A panic is recovered by
    the deferred function, which rolls back; the method then returns its
    zero result, [nil].  The final state of the order is handed back on
    success only. *)
Definition CreateOrder (order : Order) : M S (option Order) :=
  fun s =>
    match Validate order with
    | Some err => (s, Err err)
    | None =>
        match placeOrder order s with
        | (tx, Ok order) => (tx, Ok (Some order))
        | (tx, Err err) => (s, Err err)
        | (tx, Panic) => (s, Ok None)
        end
    end.
End orderUseCase_rest.

(** ** Vocabulary for the ledger *)

(** [UNIQUE (account_id, asset_symbol)] of [schema.sql]. *)
Definition walletKey (w : Wallet) : UUID * string := (wAccountID w, AssetSymbol w).
Definition walletsUnique (db : DB) : Prop := NoDup (List.map walletKey (wallets db)).

Fixpoint sumBalances (ws : list Wallet) : Q :=
  match ws with
  | [] => 0
  | w :: r => toQ (Balance w) + sumBalances r
  end.

(** What an account holds of an asset in its wallet that is not deleted,
    and what all the wallets of an asset hold together. *)
Definition balanceOf (accountID : UUID) (asset : string) (db : DB) : Q :=
  sumBalances (List.filter (walletRow accountID asset) (wallets db)).
Definition totalOf (asset : string) (db : DB) : Q :=
  sumBalances (List.filter (fun w => String.eqb (AssetSymbol w) asset) (wallets db)).

Definition hasWallet (accountID : UUID) (asset : string) (db : DB) : Prop :=
  exists w, In w (wallets db) /\ walletRow accountID asset w = true.

(** The row update of [updateBalance], and the amount it adds. *)
Definition updatedRow (accountID : UUID) (asset : string) (amount : Decimal)
    (isAdd : bool) (w : Wallet) : Wallet :=
  if walletRow accountID asset w
  then withBalance w (if isAdd then Add (Balance w) amount else Sub (Balance w) amount)
  else w.

Definition signedAmount (amount : Decimal) (isAdd : bool) : Q :=
  if isAdd then toQ amount else - toQ amount.

(** What a settlement adds to the balance an account holds of an asset. *)
Definition netChange (taker maker : Order) (qty : Decimal) (base quote : string)
    (a : UUID) (s : string) : Q :=
  let buyer := AccountID (buyerOf taker maker) in
  let seller := AccountID (sellerOf taker maker) in
  let total := Mul (Price maker) qty in
  (if N.eqb a seller && String.eqb s base then - toQ qty else 0)
  + (if N.eqb a buyer && String.eqb s base then toQ qty else 0)
  + (if N.eqb a buyer && String.eqb s quote then - toQ total else 0)
  + (if N.eqb a seller && String.eqb s quote then toQ total else 0).

(** A sequence of balance updates, each an account, an asset, an amount
    and whether it is added; what it adds to one balance, and to the
    total of one asset. *)
Definition BalanceUpdate : Type := UUID * string * Decimal * bool.

Fixpoint runUpdates (us : list BalanceUpdate) : M DB unit :=
  match us with
  | [] => ret tt
  | (a, s, amount, isAdd) :: rest => updateBalance a s amount isAdd ;; runUpdates rest
  end.

Fixpoint changeOf (us : list BalanceUpdate) (a : UUID) (s : string) : Q :=
  match us with
  | [] => 0
  | (a', s', amount, isAdd) :: rest =>
      (if N.eqb a a' && String.eqb s s' then signedAmount amount isAdd else 0)
      + changeOf rest a s
  end.

Fixpoint totalChangeOf (us : list BalanceUpdate) (s : string) : Q :=
  match us with
  | [] => 0
  | (_, s', amount, isAdd) :: rest =>
      (if String.eqb s s' then signedAmount amount isAdd else 0)
      + totalChangeOf rest s
  end.

Definition settlementUpdates (taker maker : Order) (qty : Decimal)
    (base quote : string) : list BalanceUpdate :=
  let buyer := AccountID (buyerOf taker maker) in
  let seller := AccountID (sellerOf taker maker) in
  let total := Mul (Price maker) qty in
  [ (seller, base, qty, false); (buyer, base, qty, true);
    (buyer, quote, total, false); (seller, quote, total, true) ].

(** Buyer and seller each have a wallet for the base and for the quote
    asset. *)
Definition partiesHaveWallets (taker maker : Order) (base quote : string) (db : DB) : Prop :=
  hasWallet (AccountID (sellerOf taker maker)) base db
  /\ hasWallet (AccountID (buyerOf taker maker)) base db
  /\ hasWallet (AccountID (buyerOf taker maker)) quote db
  /\ hasWallet (AccountID (sellerOf taker maker)) quote db.

(** [db.Create(order)]: the [BeforeCreate] hook gives an order without id
    a fresh one, the two timestamps left at their zero value are set to
    the time [now] of the call, and the row is inserted; the insert is
    taken to succeed. *)
Definition orderRepository_Create (now : Timestamp) (order : Order) : M DB Order :=
  fun db =>
    let '(id, next) :=
      if N.eqb (ID order) 0 then (nextID db, N.succ (nextID db))
      else (ID order, nextID db) in
    let order :=
      mkOrder id
              (if CreatedAt order =? 0 then now else CreatedAt order)
              (if UpdatedAt order =? 0 then now else UpdatedAt order)
              (AccountID order) (InstrumentPair order) (OrderType order)
              (Price order) (Quantity order) (RemainingQuantity order) (Status order) in
    (mkDB (wallets db) (orders db ++ [order]) (trades db) next, Ok order).

Definition orderRepositoryRest (now : Timestamp) : OrderRepositoryRest DB := {|
  order_Create := orderRepository_Create now;
  GetByID := orderRepository_GetByID;
  UpdateStatus := orderRepository_UpdateStatus
|}.

(** [PRIMARY KEY (id)] of the order table. *)
Definition ordersUnique (db : DB) : Prop := NoDup (List.map ID (orders db)).

(** The row update of a cancellation. *)
Definition cancelledRow (id : UUID) (o : Order) : Order :=
  if N.eqb (ID o) id then withStatus o OrderStatusCancelled else o.

(** A trade between a taker and a maker: at the maker's price, buyer and
    seller told apart by the taker's side. *)
Definition tradeBetween (taker : Order) (t : Trade) (m : Order) : Prop :=
  tPrice t = Price m
  /\ BuyerOrderID t = ID (buyerOf taker m)
  /\ SellerOrderID t = ID (sellerOf taker m).

(** The quantities of the calls made to the executor, added up. *)
Fixpoint sumCalls (calls : list Call) : Q :=
  match calls with
  | [] => 0
  | c :: r => toQ (callQty c) + sumCalls r
  end.

(** The makers eligible for a taker, in the words of the matching rule. *)
Definition eligibleFor (taker m : Order) : Prop :=
  InstrumentPair m = InstrumentPair taker
  /\ OrderType m = oppositeOrderType taker
  /\ AccountID m <> AccountID taker
  /\ (Status m = OrderStatusOpen \/ Status m = OrderStatusPartial)
  /\ (if takerBuys taker then (toQ (Price m) <= toQ (Price taker))%Q
      else (toQ (Price taker) <= toQ (Price m))%Q).

(** Two stores with the same orders and the same trades. *)
Definition sameBook (db db' : DB) : Prop :=
  trades db' = trades db /\ orders db' = orders db.

(** ** The columns of [schema.sql]

    [balance], [price], [quantity] and [remaining_quantity] are
    [DECIMAL(20,8)]: a value written to such a column is rounded to 8
    fractional digits, ties away from zero, and the statement fails when
    the rounded value has more than 12 digits before the point.
    [numeric 20 8 d] is the value the column keeps of [d], [None] being
    the failure. *)
Definition roundHalfAway (v : Z) (k : Z) : Z :=
  Z.sgn v * ((Z.abs v + 10 ^ k / 2) / 10 ^ k).

Definition numeric (precision scale : Z) (d : Decimal) : option Decimal :=
  let n :=
    if (- scale <=? exp d)%Z then (value d * 10 ^ (exp d + scale))%Z
    else roundHalfAway (value d) (- scale - exp d) in
  if (Z.abs n <? 10 ^ precision)%Z then Some (New n (- scale)) else None.

(** The column keeps the number it is given. *)
Definition storedAsIs (d : Decimal) : bool :=
  match numeric 20 8 d with
  | Some d' => Equal d' d
  | None => false
  end.

(** Every balance that a sequence of balance updates writes is a number
    its column keeps as it is. *)
Fixpoint writesAsIs (us : list BalanceUpdate) (db : DB) : bool :=
  match us with
  | [] => true
  | (a, s, amount, isAdd) :: rest =>
      forallb (fun w => implb (walletRow a s w)
                          (storedAsIs (if isAdd then Add (Balance w) amount
                                       else Sub (Balance w) amount)))
              (wallets db)
      && writesAsIs rest (fst (updateBalance a s amount isAdd db))
  end.

(** [instrument_pair VARCHAR(20)], and a primary key that is new to the
    table: given by the [BeforeCreate] hook, or given and not in use. *)
Definition pairFitsColumn (o : Order) : Prop :=
  (String.length (InstrumentPair o) <= 20)%nat.
Definition idIsNew (o : Order) (db : DB) : Prop :=
  ID o = 0%N \/ forall o', In o' (orders db) -> ID o' <> ID o.

(** Every balance in the table is a number its column keeps as it is. *)
Definition columnsKept (db : DB) : bool :=
  forallb (fun w => storedAsIs (Balance w)) (wallets db).

(* ===================================================================== *)
(** * Decimal arithmetic against its rational meaning *)
(* ===================================================================== *)

Section decimal_facts.

Lemma pow10_pos (e : Z) : (0 < Qpower 10 e)%Q.
Proof. apply Qpower_0_lt. reflexivity. Qed.

Lemma pow10_plus (a b : Z) : (Qpower 10 (a + b) == Qpower 10 a * Qpower 10 b)%Q.
Proof. apply Qpower_plus. discriminate. Qed.

Lemma toQ_scale (v e j : Z) :
  0 <= j -> (toQ (New (v * 10 ^ j) (e - j)) == toQ (New v e))%Q.
Proof.
  intros Hj. unfold toQ. cbn [value exp].
  rewrite inject_Z_mult, Zpower_Qpower by assumption.
  replace e with ((e - j) + j) at 2 by lia.
  rewrite (pow10_plus (e - j) j).
  change (inject_Z 10) with (10 : Q). ring.
Qed.

Lemma toQ_rescale_down (d : Decimal) (e : Z) :
  e <= exp d -> (toQ (rescale d e) == toQ d)%Q.
Proof.
  intros He. unfold rescale.
  destruct (Z.eqb_spec (exp d) e) as [_|Hne]; [reflexivity|].
  destruct (Z.gtb_spec e (exp d)) as [Hgt|_]; [lia|].
  destruct d as [v x]. cbn [value exp] in *.
  replace e with (x - (x - e)) at 2 by lia.
  apply toQ_scale. lia.
Qed.

Lemma exp_rescale (d : Decimal) (e : Z) : exp (rescale d e) = e.
Proof.
  unfold rescale. destruct (Z.eqb_spec (exp d) e); [assumption|].
  destruct (e >? exp d); reflexivity.
Qed.

Lemma RescalePair_spec (a b : Decimal) :
  exp (fst (RescalePair a b)) = exp (snd (RescalePair a b))
  /\ (toQ (fst (RescalePair a b)) == toQ a)%Q
  /\ (toQ (snd (RescalePair a b)) == toQ b)%Q.
Proof.
  unfold RescalePair.
  destruct (Z.ltb_spec (exp a) (exp b)) as [Hlt|Hge]; cbn [fst snd].
  - rewrite exp_rescale. split; [reflexivity|]. split; [reflexivity|].
    apply toQ_rescale_down. lia.
  - destruct (Z.gtb_spec (exp a) (exp b)) as [Hgt|Hle]; cbn [fst snd].
    + rewrite exp_rescale. split; [reflexivity|]. split; [|reflexivity].
      apply toQ_rescale_down. lia.
    + split; [lia|]. split; reflexivity.
Qed.

Lemma Add_toQ (a b : Decimal) : (toQ (Add a b) == toQ a + toQ b)%Q.
Proof.
  unfold Add. destruct (RescalePair_spec a b) as (He & Ha & Hb).
  destruct (RescalePair a b) as [ra rb]. cbn [fst snd] in *.
  rewrite <- Ha, <- Hb. unfold toQ. cbn [value exp].
  rewrite inject_Z_plus, He. ring.
Qed.

Lemma Sub_toQ (a b : Decimal) : (toQ (Sub a b) == toQ a - toQ b)%Q.
Proof.
  unfold Sub. destruct (RescalePair_spec a b) as (He & Ha & Hb).
  destruct (RescalePair a b) as [ra rb]. cbn [fst snd] in *.
  rewrite <- Ha, <- Hb. unfold toQ. cbn [value exp].
  unfold Z.sub. rewrite inject_Z_plus, inject_Z_opp, He. ring.
Qed.

Lemma Mul_toQ (a b : Decimal) : (toQ (Mul a b) == toQ a * toQ b)%Q.
Proof.
  unfold Mul, toQ. cbn [value exp].
  rewrite inject_Z_mult, pow10_plus. ring.
Qed.

Lemma Qcompare_scale (x y : Z) (p : Q) :
  (0 < p)%Q -> (inject_Z x * p ?= inject_Z y * p)%Q = (x ?= y).
Proof.
  intros Hp. destruct (Z.compare_spec x y) as [->|Hlt|Hgt].
  - apply Qeq_alt. reflexivity.
  - apply Qlt_alt. apply Qmult_lt_r; [assumption|].
    rewrite <- Zlt_Qlt. assumption.
  - apply Qgt_alt. apply Qmult_lt_r; [assumption|].
    rewrite <- Zlt_Qlt. assumption.
Qed.

Lemma Cmp_toQ (a b : Decimal) : Cmp a b = (toQ a ?= toQ b)%Q.
Proof.
  unfold Cmp. destruct (RescalePair_spec a b) as (He & Ha & Hb).
  destruct (RescalePair a b) as [ra rb]. cbn [fst snd] in *.
  rewrite <- Ha, <- Hb. unfold toQ. rewrite He.
  symmetry. apply Qcompare_scale, pow10_pos.
Qed.

Lemma Equal_toQ (a b : Decimal) : Equal a b = true <-> (toQ a == toQ b)%Q.
Proof.
  unfold Equal. rewrite Cmp_toQ, Qeq_alt.
  destruct (toQ a ?= toQ b)%Q; split; congruence.
Qed.

Lemma LessThan_toQ (a b : Decimal) : LessThan a b = true <-> (toQ a < toQ b)%Q.
Proof.
  unfold LessThan. rewrite Cmp_toQ, Qlt_alt.
  destruct (toQ a ?= toQ b)%Q; split; congruence.
Qed.

Lemma GreaterThan_toQ (a b : Decimal) : GreaterThan a b = true <-> (toQ b < toQ a)%Q.
Proof.
  unfold GreaterThan. rewrite Cmp_toQ, Qgt_alt.
  destruct (toQ a ?= toQ b)%Q; split; congruence.
Qed.

Lemma LessThanOrEqual_toQ (a b : Decimal) :
  LessThanOrEqual a b = true <-> (toQ a <= toQ b)%Q.
Proof.
  unfold LessThanOrEqual. rewrite Cmp_toQ, Qle_alt.
  destruct (toQ a ?= toQ b)%Q; split; congruence.
Qed.

Lemma GreaterThanOrEqual_toQ (a b : Decimal) :
  GreaterThanOrEqual a b = true <-> (toQ b <= toQ a)%Q.
Proof.
  unfold GreaterThanOrEqual. rewrite Cmp_toQ, Qge_alt.
  destruct (toQ a ?= toQ b)%Q; split; congruence.
Qed.

Lemma IsZero_toQ (d : Decimal) : IsZero d = true <-> (toQ d == 0)%Q.
Proof.
  unfold IsZero, Sign, toQ. rewrite Z.eqb_eq, Z.sgn_null_iff. split.
  - intros ->. ring.
  - intros H. apply Qmult_integral in H. destruct H as [H|H].
    + apply (inject_Z_injective (value d) 0). assumption.
    + pose proof (pow10_pos (exp d)) as Hp. rewrite H in Hp.
      exfalso. revert Hp. apply Qlt_irrefl.
Qed.

Lemma toQ_Zero : (toQ decimal.Zero == 0)%Q.
Proof. unfold toQ, decimal.Zero. cbn [value exp]. ring. Qed.

Lemma toQ_zeroValue : (toQ zeroValue == 0)%Q.
Proof. unfold toQ, zeroValue. cbn [value exp]. ring. Qed.

Lemma toQ_NewFromInt (v : Z) : (toQ (NewFromInt v) == inject_Z v)%Q.
Proof. unfold toQ, NewFromInt. cbn [value exp Qpower]. ring. Qed.

Lemma Min_spec (a b : Decimal) :
  (Min a b = a \/ Min a b = b)
  /\ (toQ (Min a b) <= toQ a)%Q /\ (toQ (Min a b) <= toQ b)%Q.
Proof.
  unfold Min. rewrite Cmp_toQ.
  destruct (Qcompare_spec (toQ b) (toQ a)) as [He|Hlt|Hgt].
  - split; [left; reflexivity|]. split; [apply Qle_refl|].
    rewrite He. apply Qle_refl.
  - split; [right; reflexivity|]. split; [|apply Qle_refl].
    apply Qlt_le_weak. assumption.
  - split; [left; reflexivity|]. split; [apply Qle_refl|].
    apply Qlt_le_weak. assumption.
Qed.

End decimal_facts.

(* ===================================================================== *)
(** * Instrument pairs *)
(* ===================================================================== *)

Section pair_facts.

Lemma Split_not_nil (s : string) (sep : ascii) : strings.Split s sep <> [].
Proof.
  destruct s as [|c r]; cbn; [discriminate|].
  destruct (Ascii.eqb c sep); [discriminate|].
  destruct (strings.Split r sep); discriminate.
Qed.

Lemma Split_no_sep (s : string) (sep : ascii) :
  strings.ContainsByte s sep = false -> strings.Split s sep = [s].
Proof.
  induction s as [|c r IH]; cbn; [reflexivity|].
  intros H. apply orb_false_iff in H. destruct H as [Hc Hr].
  rewrite Hc, (IH Hr). reflexivity.
Qed.

Lemma Split_app (a b : string) (sep : ascii) :
  strings.ContainsByte a sep = false ->
  strings.Split (a ++ String sep b) sep = a :: strings.Split b sep.
Proof.
  induction a as [|c r IH].
  - intros _. change (strings.Split (String sep b) sep = [EmptyString] ++ strings.Split b sep).
    cbn. rewrite Ascii.eqb_refl. reflexivity.
  - intros H. cbn in H. apply orb_false_iff in H. destruct H as [Hc Hr].
    change (strings.Split (String c (r ++ String sep b)) sep
            = String c r :: strings.Split b sep).
    cbn. rewrite Hc, (IH Hr). reflexivity.
Qed.

Lemma Split_single_inv (s a : string) (sep : ascii) :
  strings.Split s sep = [a] -> s = a /\ strings.ContainsByte s sep = false.
Proof.
  revert a. induction s as [|c r IH]; intros a; cbn.
  - intros H. injection H as <-. split; reflexivity.
  - destruct (Ascii.eqb c sep) eqn:Ec.
    + intros H. injection H as _ Hr. exfalso. exact (Split_not_nil _ _ Hr).
    + destruct (strings.Split r sep) as [|h t] eqn:E.
      * exfalso. exact (Split_not_nil _ _ E).
      * intros H. injection H as <- ->.
        destruct (IH h eq_refl) as [-> Hh]. split; [reflexivity|assumption].
Qed.

(** A two-part split is read back as the two parts around one separator. *)
Lemma Split_two_inv (s a b : string) (sep : ascii) :
  strings.Split s sep = [a; b] ->
  s = (a ++ String sep b)%string
  /\ strings.ContainsByte a sep = false
  /\ strings.ContainsByte b sep = false.
Proof.
  revert a. induction s as [|c r IH]; intros a; cbn; [discriminate|].
  destruct (Ascii.eqb_spec c sep) as [->|Hne].
  - intros H. injection H as <- Hr.
    destruct (Split_single_inv _ _ _ Hr) as [-> Hb].
    split; [reflexivity|]. split; [reflexivity|assumption].
  - destruct (strings.Split r sep) as [|h t] eqn:E.
    + exfalso. exact (Split_not_nil _ _ E).
    + intros H. injection H as <- ->.
      destruct (IH h eq_refl) as (-> & Ha & Hb).
      apply Ascii.eqb_neq in Hne. cbn. rewrite Hne, Ha.
      split; [reflexivity|]. split; [reflexivity|assumption].
Qed.

Lemma pairOf_Split (base quote pair : string) :
  pairOf base quote pair -> strings.Split pair "_" = [base; quote].
Proof.
  intros (-> & Hb & Hq). rewrite Split_app by assumption.
  rewrite Split_no_sep by assumption. reflexivity.
Qed.

Lemma IsValidInstrumentPair_iff (pair : string) :
  IsValidInstrumentPair pair = true <->
  exists base quote,
    pairOf base quote pair /\ base <> EmptyString /\ quote <> EmptyString.
Proof.
  unfold IsValidInstrumentPair. split.
  - intros H. apply andb_true_iff in H. destruct H as [H Hq].
    apply andb_true_iff in H. destruct H as [Hlen Hb].
    apply Nat.eqb_eq in Hlen.
    destruct (strings.Split pair "_") as [|a [|b [|c t]]] eqn:E; try discriminate.
    cbn in Hb, Hq. exists a, b. split; [apply Split_two_inv; assumption|].
    apply negb_true_iff in Hb, Hq.
    split; intros ->; discriminate.
  - intros (base & quote & Hp & Hb & Hq). rewrite (pairOf_Split _ _ _ Hp). cbn.
    apply String.eqb_neq in Hb, Hq. rewrite Hb, Hq. reflexivity.
Qed.

End pair_facts.

(* ===================================================================== *)
(** * Validation *)
(* ===================================================================== *)

Section validation.

Lemma LessThanOrEqual_false (a b : Decimal) :
  LessThanOrEqual a b = false <-> (toQ b < toQ a)%Q.
Proof.
  pose proof (LessThanOrEqual_toQ a b) as H.
  destruct (LessThanOrEqual a b); split; intros H'; try discriminate.
  - exfalso. apply (Qlt_not_le _ _ H'). apply H. reflexivity.
  - apply Qnot_le_lt. intros Hle. apply H in Hle. discriminate.
  - reflexivity.
Qed.

Lemma GreaterThan_false (a b : Decimal) :
  GreaterThan a b = false <-> (toQ a <= toQ b)%Q.
Proof.
  pose proof (GreaterThan_toQ a b) as H.
  destruct (GreaterThan a b); split; intros H'; try discriminate.
  - exfalso. apply (Qlt_not_le (toQ b) (toQ a)); [apply H; reflexivity|assumption].
  - apply Qnot_lt_le. intros Hlt. apply H in Hlt. discriminate.
  - reflexivity.
Qed.

Lemma side_check (o : Order) :
  negb (String.eqb (OrderType o) OrderTypeBuy)
  && negb (String.eqb (OrderType o) OrderTypeSell) = false <-> validSide o.
Proof.
  unfold validSide.
  destruct (String.eqb_spec (OrderType o) OrderTypeBuy) as [Hb|Hb];
    destruct (String.eqb_spec (OrderType o) OrderTypeSell) as [Hs|Hs];
    cbn; split; intros H; auto; try discriminate.
  destruct H; contradiction.
Qed.

(** C8. [Validate] runs its six checks in the order price > 0,
    quantity > 0, quantity <= MaxQuantity, price <= MaxPrice, side,
    pair format; it stops at the first that fails and answers with that
    check's own error, so each error comes back exactly when the checks
    before its own pass and its own fails, and no error comes back
    exactly when all six pass.  The function reads the order and
    touches nothing else. *)
Theorem Validate_checks_in_order (o : Order) :
  let p := toQ (Price o) in
  let q := toQ (Quantity o) in
  (Validate o = Some ErrInvalidPrice <-> p <= 0)%Q
  /\ (Validate o = Some ErrInvalidQuantity <-> 0 < p /\ q <= 0)%Q
  /\ (Validate o = Some ErrMaxQuantity <->
        0 < p /\ 0 < q /\ inject_Z MaxQuantity < q)%Q
  /\ (Validate o = Some ErrMaxPrice <->
        0 < p /\ 0 < q /\ q <= inject_Z MaxQuantity /\ inject_Z MaxPrice < p)%Q
  /\ (Validate o = Some ErrInvalidOrderType <->
        (0 < p /\ 0 < q /\ q <= inject_Z MaxQuantity /\ p <= inject_Z MaxPrice)%Q
        /\ ~ validSide o)
  /\ (Validate o = Some ErrInvalidPairFormat <->
        (0 < p /\ 0 < q /\ q <= inject_Z MaxQuantity /\ p <= inject_Z MaxPrice)%Q
        /\ validSide o /\ ~ validPair o)
  /\ (Validate o = None <->
        (0 < p /\ 0 < q /\ q <= inject_Z MaxQuantity /\ p <= inject_Z MaxPrice)%Q
        /\ validSide o /\ validPair o)
  /\ (forall msg, Validate o <> Some (errors_New msg)).
Proof.
  intros p q. unfold Validate.
  pose proof toQ_Zero as Hz.
  pose proof (toQ_NewFromInt MaxQuantity) as HmQ.
  pose proof (toQ_NewFromInt MaxPrice) as HmP.
  destruct (LessThanOrEqual (Price o) decimal.Zero) eqn:E1.
  { apply LessThanOrEqual_toQ in E1. fold p in E1. rewrite Hz in E1.
    repeat split; intros; try discriminate; try assumption;
      try (exfalso; lra); try tauto. }
  apply LessThanOrEqual_false in E1. fold p in E1. rewrite Hz in E1.
  destruct (LessThanOrEqual (Quantity o) decimal.Zero) eqn:E2.
  { apply LessThanOrEqual_toQ in E2. fold q in E2. rewrite Hz in E2.
    repeat split; intros; try discriminate; try assumption;
      try (exfalso; lra); try tauto. }
  apply LessThanOrEqual_false in E2. fold q in E2. rewrite Hz in E2.
  destruct (GreaterThan (Quantity o) (NewFromInt MaxQuantity)) eqn:E3.
  { apply GreaterThan_toQ in E3. fold q in E3. rewrite HmQ in E3.
    repeat split; intros; try discriminate; try assumption;
      try (exfalso; lra); try tauto. }
  apply GreaterThan_false in E3. fold q in E3. rewrite HmQ in E3.
  destruct (GreaterThan (Price o) (NewFromInt MaxPrice)) eqn:E4.
  { apply GreaterThan_toQ in E4. fold p in E4. rewrite HmP in E4.
    repeat split; intros; try discriminate; try assumption;
      try (exfalso; lra); try tauto. }
  apply GreaterThan_false in E4. fold p in E4. rewrite HmP in E4.
  destruct (negb (String.eqb (OrderType o) OrderTypeBuy)
            && negb (String.eqb (OrderType o) OrderTypeSell)) eqn:E5.
  { assert (Hs : ~ validSide o).
    { intros Hs. apply side_check in Hs. congruence. }
    repeat split; intros; try discriminate; try assumption;
      try (exfalso; lra); try tauto. }
  apply side_check in E5.
  destruct (IsValidInstrumentPair (InstrumentPair o)) eqn:E6; cbn [negb].
  - apply IsValidInstrumentPair_iff in E6. fold (validPair o) in E6.
    repeat split; intros; try discriminate; try assumption;
      try (exfalso; lra); try tauto.
  - assert (Hp : ~ validPair o).
    { intros Hp. apply IsValidInstrumentPair_iff in Hp. congruence. }
    repeat split; intros; try discriminate; try assumption;
      try (exfalso; lra); try tauto.
Qed.

End validation.

(* ===================================================================== *)
(** * Required coverage and the indexing of pair components *)
(* ===================================================================== *)

Section coverage.

(** C7. For an order on the pair [base_quote], the required coverage is
    the quote asset with amount price x quantity when the side is BUY,
    and the base asset with the quantity itself when the side is
    SELL. *)
Theorem required_coverage (o : Order) (base quote : string) :
  pairOf base quote (InstrumentPair o) ->
  (OrderType o = OrderTypeBuy ->
     GetRequiredAssetAndAmount o = Some (quote, Mul (Price o) (Quantity o))
     /\ (toQ (Mul (Price o) (Quantity o)) == toQ (Price o) * toQ (Quantity o))%Q)
  /\ (OrderType o = OrderTypeSell ->
     GetRequiredAssetAndAmount o = Some (base, Quantity o)).
Proof.
  intros Hp. unfold GetRequiredAssetAndAmount.
  rewrite (pairOf_Split _ _ _ Hp). split.
  - intros ->. cbn. split; [reflexivity|apply Mul_toQ].
  - intros ->. cbn. reflexivity.
Qed.

(** The example of C7: the BUY requires (BRL, 100000.00), the SELL
    requires (BTC, 0.5). *)
Lemma required_coverage_example :
  RequireFromString "200000.00" = Some (Price (coverageExample "BUY"))
  /\ RequireFromString "0.5" = Some (Quantity (coverageExample "BUY"))
  /\ (exists amount,
        GetRequiredAssetAndAmount (coverageExample "BUY") = Some ("BRL"%string, amount)
        /\ Equal amount (New 10000000 (-2)) = true)
  /\ GetRequiredAssetAndAmount (coverageExample "SELL")
     = Some ("BTC"%string, New 5 (-1)).
Proof.
  assert (Hp : forall side, pairOf "BTC" "BRL" (InstrumentPair (coverageExample side))).
  { intros side. split; [reflexivity|]. split; reflexivity. }
  split; [reflexivity|]. split; [reflexivity|]. split.
  - destruct (required_coverage (coverageExample "BUY") "BTC" "BRL" (Hp _)) as [Hb _].
    destruct (Hb eq_refl) as [Hb1 _].
    exists (Mul (Price (coverageExample "BUY")) (Quantity (coverageExample "BUY"))).
    split; [exact Hb1|reflexivity].
  - destruct (required_coverage (coverageExample "SELL") "BTC" "BRL" (Hp _)) as [_ Hs].
    exact (Hs eq_refl).
Defined.

Lemma updateBalance_no_panic accountID assetSymbol amount isAdd (db : DB) :
  snd (updateBalance accountID assetSymbol amount isAdd db) <> Panic.
Proof.
  unfold updateBalance.
  destruct (length _ =? 0)%nat; cbn; discriminate.
Qed.

Lemma bind_no_panic {S A B} (c : M S A) (k : A -> M S B) :
  (forall s, snd (c s) <> Panic) ->
  (forall a s, snd (k a s) <> Panic) ->
  forall s, snd (bind c k s) <> Panic.
Proof.
  intros Hc Hk s. unfold bind. specialize (Hc s).
  destruct (c s) as [s' [a|e|]]; cbn in *.
  - apply Hk.
  - discriminate.
  - congruence.
Qed.

(** C10. Where the pair passes the format check, the split has exactly
    two components, so the indexes 0 and 1 that the coverage
    computation and the settlement take are in bounds and neither
    panics; where the pair holds no separator the split has a single
    component, index 1 is out of bounds, and both the coverage of a BUY
    and every settlement panic -- as for the pair BTCBRL. *)
Theorem pair_indexing_needs_valid_pair :
  (forall o : Order,
      IsValidInstrumentPair (InstrumentPair o) = true ->
      (exists base quote,
          nth_error (strings.Split (InstrumentPair o) "_") 0 = Some base
          /\ nth_error (strings.Split (InstrumentPair o) "_") 1 = Some quote)
      /\ GetRequiredAssetAndAmount o <> None
      /\ forall (matchingOrder : Order) (qty : Decimal) (db : DB),
           snd (settle (walletRepo := walletRepository) o matchingOrder qty db) <> Panic)
  /\ (forall o : Order,
        strings.ContainsByte (InstrumentPair o) "_" = false ->
        nth_error (strings.Split (InstrumentPair o) "_") 1 = None
        /\ (OrderType o = OrderTypeBuy -> GetRequiredAssetAndAmount o = None)
        /\ forall (S : Type) (W : WalletRepository S)
                  (matchingOrder : Order) (qty : Decimal) (s : S),
             snd (settle (walletRepo := W) o matchingOrder qty s) = Panic)
  /\ strings.ContainsByte "BTCBRL" "_" = false
  /\ IsValidInstrumentPair "BTCBRL" = false.
Proof.
  split; [|split; [|split; reflexivity]].
  - intros o Hv. apply IsValidInstrumentPair_iff in Hv.
    destruct Hv as (base & quote & Hp & _ & _).
    pose proof (pairOf_Split _ _ _ Hp) as Hs.
    split; [exists base, quote; rewrite Hs; split; reflexivity|].
    split.
    + unfold GetRequiredAssetAndAmount. rewrite Hs.
      destruct (String.eqb _ _); cbn; discriminate.
    + intros m qty db. unfold settle. rewrite Hs.
      unfold index. cbn [nth_error].
      unfold bind at 1, ret at 1. unfold bind at 1, ret at 1.
      destruct (String.eqb (OrderType o) "SELL");
        repeat (apply bind_no_panic; [intros; apply updateBalance_no_panic|intros]);
        apply updateBalance_no_panic.
  - intros o Hn. rewrite (Split_no_sep _ _ Hn).
    split; [reflexivity|]. split.
    + intros Hb. unfold GetRequiredAssetAndAmount.
      rewrite (Split_no_sep _ _ Hn), Hb. reflexivity.
    + intros S W m qty s. unfold settle. rewrite (Split_no_sep _ _ Hn).
      reflexivity.
Qed.

End coverage.

(* ===================================================================== *)
(** * Trade execution and settlement *)
(* ===================================================================== *)

Section execution.
Context {S : Type}.
Context (O : OrderRepository S) (W : WalletRepository S) (T : TradeRepository S).

Local Abbreviation performAll' := (performAll O W T).
Local Abbreviation perform' := (perform O W T).
Local Abbreviation ExecuteRec :=
  (tradeExecutor_Execute (orderRepo := recordingOrders O)
     (walletRepo := recordingWallets W) (tradeRepo := recordingTrades T)).

Lemma buyer_seller_code (taker maker : Order) :
  validSide taker ->
  (if String.eqb (OrderType taker) "SELL" then (maker, taker) else (taker, maker))
  = (buyerOf taker maker, sellerOf taker maker).
Proof.
  unfold buyerOf, sellerOf. intros [-> | ->]; reflexivity.
Qed.

Lemma bind_ret_unit {X} (c : M X unit) (x : X) : bind c (fun _ => ret tt) x = c x.
Proof.
  unfold bind, ret. destruct (c x) as [x' [[]|e|]]; reflexivity.
Qed.

(** The settlement is its four legs, in their order. *)
Lemma settle_script (taker maker : Order) (qty : Decimal) (base quote : string) sl :
  pairOf base quote (InstrumentPair taker) ->
  validSide taker ->
  settle (walletRepo := recordingWallets W) taker maker qty sl
  = performAll' (settlementLegs taker maker qty base quote) sl.
Proof.
  intros Hp Hs. unfold settle. rewrite (pairOf_Split _ _ _ Hp).
  unfold index. cbn [nth_error].
  unfold bind at 1, ret at 1. unfold bind at 1, ret at 1.
  rewrite (buyer_seller_code _ maker Hs).
  unfold settlementLegs. cbn [performAll perform recordingWallets
    SubtractFromBalance AddToBalance].
  unfold bind. 
  repeat match goal with
         | |- context [recorded ?e ?c ?x] =>
             destruct (recorded e c x) as [? [[]|?|]]; try reflexivity
         end.
Qed.

(** What the log of a run of events looks like: the events performed,
    in order, up to and including the first that did not succeed. *)
Lemma performAll_log (es : list Event) (sl : S * list Event) :
  exists n : nat,
    (n <= length es)%nat
    /\ snd (fst (performAll' es sl)) = snd sl ++ firstn n es
    /\ (snd (performAll' es sl) = Ok tt -> n = length es)
    /\ (snd (performAll' es sl) <> Ok tt ->
        exists e s, nth_error es (n - 1) = Some e /\ (1 <= n)%nat
                    /\ snd (perform' e s) = snd (performAll' es sl)).
Proof.
  revert sl. induction es as [|e es IH]; intros [s log].
  - exists 0%nat. cbn. rewrite app_nil_r.
    split; [lia|]. split; [reflexivity|]. split; [reflexivity|].
    intros H. contradiction.
  - cbn [performAll]. unfold bind, recorded. cbn [fst snd].
    destruct (perform' e s) as [s1 r] eqn:E.
    destruct r as [[]|err|].
    + destruct (IH (s1, log ++ [e])) as (n & Hn & Hlog & Hok & Hfail).
      exists (Datatypes.S n). cbn [length firstn fst snd] in *.
      split; [lia|]. split; [rewrite Hlog, <- app_assoc; reflexivity|].
      split; [intros H; rewrite (Hok H); reflexivity|].
      intros H. destruct (Hfail H) as (e' & s' & Hnth & Hn1 & Hres).
      exists e', s'. split; [|split; [lia|exact Hres]].
      replace (Datatypes.S n - 1)%nat with (Datatypes.S (n - 1)) by lia. exact Hnth.
    + exists 1%nat. cbn [length firstn fst snd].
      split; [lia|]. split; [reflexivity|]. split; [discriminate|].
      intros _. exists e, s. rewrite E. split; [reflexivity|]. split; [lia|reflexivity].
    + exists 1%nat. cbn [length firstn fst snd].
      split; [lia|]. split; [reflexivity|]. split; [discriminate|].
      intros _. exists e, s. rewrite E. split; [reflexivity|]. split; [lia|reflexivity].
Qed.

Lemma afterFill_fields (o : Order) (qty : Decimal) :
  ID (afterFill o qty) = ID o
  /\ AccountID (afterFill o qty) = AccountID o
  /\ InstrumentPair (afterFill o qty) = InstrumentPair o
  /\ OrderType (afterFill o qty) = OrderType o
  /\ Price (afterFill o qty) = Price o
  /\ Quantity (afterFill o qty) = Quantity o
  /\ RemainingQuantity (afterFill o qty) = Sub (RemainingQuantity o) qty.
Proof. repeat split. Qed.

Lemma settlementLegs_afterFill (taker maker : Order) (qty : Decimal) base quote :
  settlementLegs (afterFill taker qty) (afterFill maker qty) qty base quote
  = settlementLegs taker maker qty base quote.
Proof.
  unfold settlementLegs, buyerOf, sellerOf, afterFill. cbn.
  destruct (String.eqb (OrderType taker) OrderTypeBuy); reflexivity.
Qed.

(** One execution is its seven steps, in their order: the trade, the
    two order updates, the four legs. *)
Lemma Execute_script (taker maker : Order) (qty : Decimal) (base quote : string) sl :
  pairOf base quote (InstrumentPair taker) ->
  validSide taker ->
  ExecuteRec taker maker qty sl
  = (fst (performAll' (executionScript taker maker qty base quote) sl),
     executed taker maker qty
       (snd (performAll' (executionScript taker maker qty base quote) sl))).
Proof.
  intros Hp Hs. unfold tradeExecutor_Execute.
  replace (if String.eqb (OrderType taker) "SELL"
           then (ID maker, ID taker) else (ID taker, ID maker))
    with (ID (buyerOf taker maker), ID (sellerOf taker maker))
    by (unfold buyerOf, sellerOf; destruct Hs as [-> | ->]; reflexivity).
  unfold executionScript. cbn [performAll].
  fold (tradeOf taker maker qty).
  change (withStatus
            (withRemainingQuantity taker (Sub (RemainingQuantity taker) qty))
            (newStatusOf
               (withRemainingQuantity taker (Sub (RemainingQuantity taker) qty))))
    with (afterFill taker qty).
  unfold updateOrderStatus.
  change (withStatus
            (withRemainingQuantity taker (Sub (RemainingQuantity taker) qty))
            (newStatusOf
               (withRemainingQuantity taker (Sub (RemainingQuantity taker) qty))))
    with (afterFill taker qty).
  change (withStatus
            (withRemainingQuantity maker (Sub (RemainingQuantity maker) qty))
            (newStatusOf
               (withRemainingQuantity maker (Sub (RemainingQuantity maker) qty))))
    with (afterFill maker qty).
  change (newStatusOf (withRemainingQuantity taker (Sub (RemainingQuantity taker) qty)))
    with (Status (afterFill taker qty)).
  change (newStatusOf (withRemainingQuantity maker (Sub (RemainingQuantity maker) qty)))
    with (Status (afterFill maker qty)).
  cbn [ID RemainingQuantity withRemainingQuantity].
  change (Sub (RemainingQuantity taker) qty)
    with (RemainingQuantity (afterFill taker qty)).
  change (Sub (RemainingQuantity maker) qty)
    with (RemainingQuantity (afterFill maker qty)).
  unfold bind.
  cbn [Create recordingTrades UpdateRemainingAndStatus recordingOrders perform].
  unfold recorded, bind, ret. cbn [fst snd].
  destruct (Create (tradeOf taker maker qty) (fst sl)) as [s1 [t1|e1|]];
    cbn [fst snd executed]; try reflexivity.
  destruct (UpdateRemainingAndStatus (ID taker) _ _ s1) as [s2 [[]|e2|]];
    cbn [fst snd executed]; try reflexivity.
  destruct (UpdateRemainingAndStatus (ID maker) _ _ s2) as [s3 [[]|e3|]];
    cbn [fst snd executed]; try reflexivity.
  rewrite (settle_script (afterFill taker qty) (afterFill maker qty) qty base quote)
    by assumption.
  rewrite settlementLegs_afterFill.
  destruct (performAll' (settlementLegs taker maker qty base quote) _)
    as [sl4 [[]|e4|]]; reflexivity.
Qed.

(** C2. One execution of a match records the trade at the maker's
    limit price with the matched quantity, then updates the two
    orders, then moves the balances in four legs in this order: debit
    base qty from the seller, credit base qty to the buyer, debit quote
    total from the buyer, credit quote total to the seller, with
    total = maker's price x qty and base and quote the two components
    of the pair.  The calls stop at the first that does not succeed:
    the log of the settlement is a prefix of the four legs, complete
    when the settlement succeeds, and otherwise ending with the leg
    whose failure the settlement returns. *)
Theorem settlement_of_a_match
    (taker maker : Order) (qty : Decimal) (base quote : string)
    (sl : S * list Event) :
  pairOf base quote (InstrumentPair taker) ->
  validSide taker ->
  let buyer := buyerOf taker maker in
  let seller := sellerOf taker maker in
  let total := Mul (Price maker) qty in
  let legs :=
    [ Debit (AccountID seller) base qty;
      Credit (AccountID buyer) base qty;
      Debit (AccountID buyer) quote total;
      Credit (AccountID seller) quote total ] in
  let steps :=
    TradeCreated (mkTrade 0%N (ID buyer) (ID seller) (Price maker) qty)
    :: OrderUpdated (ID taker) (RemainingQuantity (afterFill taker qty))
                    (Status (afterFill taker qty))
    :: OrderUpdated (ID maker) (RemainingQuantity (afterFill maker qty))
                    (Status (afterFill maker qty))
    :: legs in
  ExecuteRec taker maker qty sl
  = (fst (performAll' steps sl), executed taker maker qty (snd (performAll' steps sl)))
  /\ settle (walletRepo := recordingWallets W) taker maker qty sl
     = performAll' legs sl
  /\ (toQ total == toQ (Price maker) * toQ qty)%Q
  /\ exists n : nat,
       (n <= 4)%nat
       /\ snd (fst (settle (walletRepo := recordingWallets W) taker maker qty sl))
          = snd sl ++ firstn n legs
       /\ (snd (settle (walletRepo := recordingWallets W) taker maker qty sl) = Ok tt
           -> n = 4%nat)
       /\ (snd (settle (walletRepo := recordingWallets W) taker maker qty sl) <> Ok tt
           -> exists leg s,
                nth_error legs (n - 1) = Some leg /\ (1 <= n)%nat
                /\ snd (perform' leg s)
                   = snd (settle (walletRepo := recordingWallets W) taker maker qty sl)).
Proof.
  intros Hp Hs buyer seller total legs steps.
  split; [exact (Execute_script taker maker qty base quote sl Hp Hs)|].
  split; [exact (settle_script taker maker qty base quote sl Hp Hs)|].
  split; [apply Mul_toQ|].
  rewrite (settle_script taker maker qty base quote sl Hp Hs).
  exact (performAll_log (settlementLegs taker maker qty base quote) sl).
Qed.

End execution.

(* ===================================================================== *)
(** * Order status after a fill *)
(* ===================================================================== *)

(** The example of C2: the taker's limit is 200000 but the trade and the
    quote legs go at the maker's 199000. *)
Lemma settlement_example :
  let run :=
    tradeExecutor_Execute
      (orderRepo := recordingOrders orderRepository)
      (walletRepo := recordingWallets walletRepository)
      (tradeRepo := recordingTrades tradeRepository)
      exampleTaker exampleMaker (New 5 (-1)) (exampleDB, []) in
  snd (fst run)
  = [ TradeCreated (mkTrade 0%N 10%N 20%N (New 199000 0) (New 5 (-1)));
      OrderUpdated 10%N (New 0 (-1)) "FILLED";
      OrderUpdated 20%N (New 3 (-1)) "PARTIALLY_FILLED";
      Debit 2%N "BTC" (New 5 (-1));
      Credit 1%N "BTC" (New 5 (-1));
      Debit 1%N "BRL" (New 995000 (-1));
      Credit 2%N "BRL" (New 995000 (-1)) ]
  /\ snd run = Ok (afterFill exampleTaker (New 5 (-1)), afterFill exampleMaker (New 5 (-1)))
  /\ List.map Balance (wallets (fst (fst run)))
     = [ New 505000 (-1); New 5 (-1); New 995000 (-1); New 5 (-1) ].
Proof.
  assert (Hp : pairOf "BTC" "BRL" (InstrumentPair exampleTaker)).
  { split; [reflexivity|]. split; reflexivity. }
  assert (Hs : validSide exampleTaker) by (left; reflexivity).
  destruct (settlement_of_a_match orderRepository walletRepository tradeRepository
              exampleTaker exampleMaker (New 5 (-1)) "BTC" "BRL" (exampleDB, []) Hp Hs)
    as (Hrun & _).
  cbv zeta. rewrite Hrun.
  split; [vm_compute; reflexivity|]. split; vm_compute; reflexivity.
Defined.

Section status.
Context {S : Type}.
Context {O : OrderRepository S} {W : WalletRepository S} {T : TradeRepository S}.

Lemma newStatusOf_cases (o : Order) :
  ((toQ (RemainingQuantity o) == 0)%Q -> newStatusOf o = OrderStatusFilled)
  /\ (~ (toQ (RemainingQuantity o) == 0)%Q ->
      (toQ (RemainingQuantity o) == toQ (Quantity o))%Q ->
      newStatusOf o = OrderStatusOpen)
  /\ (~ (toQ (RemainingQuantity o) == 0)%Q ->
      ~ (toQ (RemainingQuantity o) == toQ (Quantity o))%Q ->
      newStatusOf o = OrderStatusPartial).
Proof.
  unfold newStatusOf.
  pose proof (IsZero_toQ (RemainingQuantity o)) as Hz.
  pose proof (Equal_toQ (RemainingQuantity o) (Quantity o)) as He.
  destruct (IsZero (RemainingQuantity o)).
  - assert (H0 : (toQ (RemainingQuantity o) == 0)%Q) by (apply Hz; reflexivity).
    split; [reflexivity|]. split; intros H; contradiction.
  - assert (H0 : ~ (toQ (RemainingQuantity o) == 0)%Q).
    { intros H. apply Hz in H. discriminate. }
    split; [intros H; contradiction|].
    destruct (Equal (RemainingQuantity o) (Quantity o)).
    + assert (H1 : (toQ (RemainingQuantity o) == toQ (Quantity o))%Q)
        by (apply He; reflexivity).
      split; [reflexivity|]. intros _ H. contradiction.
    + split; [|reflexivity].
      intros _ H. apply He in H. discriminate.
Qed.

Lemma fillStatus_afterFill (o : Order) (qty : Decimal) :
  (0 < toQ (Quantity o))%Q -> fillStatus (afterFill o qty).
Proof.
  intros Hq. unfold fillStatus.
  set (o' := withRemainingQuantity o (Sub (RemainingQuantity o) qty)).
  destruct (newStatusOf_cases o') as (Hf & Ho & Hp).
  change (Status (afterFill o qty)) with (newStatusOf o').
  change (RemainingQuantity (afterFill o qty)) with (RemainingQuantity o').
  change (Quantity (afterFill o qty)) with (Quantity o').
  change (Quantity o') with (Quantity o) in *.
  split; [exact Hf|]. split.
  - intros He. apply Ho; [|exact He]. intros H0. rewrite H0 in He. lra.
  - intros [H1 H2]. apply Hp; intros H; lra.
Qed.

Lemma updateOrderStatus_Ok (o o' : Order) (s s' : S) :
  updateOrderStatus o s = (s', Ok o') -> o' = withStatus o (newStatusOf o).
Proof.
  unfold updateOrderStatus, bind, ret.
  destruct (UpdateRemainingAndStatus _ _ _ s) as [s1 [[]|e|]]; intros H;
    inversion H; reflexivity.
Qed.

Lemma Execute_Ok (taker maker taker' maker' : Order) (qty : Decimal) (s s' : S) :
  tradeExecutor_Execute taker maker qty s = (s', Ok (taker', maker')) ->
  taker' = afterFill taker qty /\ maker' = afterFill maker qty.
Proof.
  unfold tradeExecutor_Execute.
  destruct (String.eqb (OrderType taker) "SELL").
  all: unfold bind at 1;
    destruct (Create _ s) as [s1 [t1|e1|]]; try discriminate;
    unfold bind at 1;
    destruct (updateOrderStatus _ s1) as [s2 [o2|e2|]] eqn:E2; try discriminate;
    unfold bind at 1;
    destruct (updateOrderStatus _ s2) as [s3 [o3|e3|]] eqn:E3; try discriminate;
    unfold bind at 1;
    destruct (settle o2 o3 qty s3) as [s4 [[]|e4|]]; try discriminate;
    unfold ret; intros H; inversion H; subst;
    apply updateOrderStatus_Ok in E2, E3; subst; split; reflexivity.
Qed.

(** C5. After an execution has taken [qty] off an order's remaining
    quantity, the status it is given is FILLED when the remaining is
    zero, OPEN when the remaining equals the original quantity and
    PARTIALLY_FILLED when it lies strictly between zero and the
    original -- for the taker and for the maker alike.  (An order's
    original quantity is positive.) *)
Theorem status_after_execution
    (taker maker taker' maker' : Order) (qty : Decimal) (s s' : S) :
  (0 < toQ (Quantity taker))%Q ->
  (0 < toQ (Quantity maker))%Q ->
  tradeExecutor_Execute taker maker qty s = (s', Ok (taker', maker')) ->
  ((toQ (RemainingQuantity taker') == toQ (RemainingQuantity taker) - toQ qty)%Q
   /\ Quantity taker' = Quantity taker
   /\ fillStatus taker')
  /\ ((toQ (RemainingQuantity maker') == toQ (RemainingQuantity maker) - toQ qty)%Q
      /\ Quantity maker' = Quantity maker
      /\ fillStatus maker').
Proof.
  intros Ht Hm Hrun. destruct (Execute_Ok _ _ _ _ _ _ _ Hrun) as [-> ->].
  split; (split; [apply Sub_toQ|]; split; [reflexivity|]);
    apply fillStatus_afterFill; assumption.
Qed.

End status.

(** The example of C5: the taker is filled, the maker partially filled. *)
Lemma status_example :
  let run := tradeExecutor_Execute exampleTaker exampleMaker (New 5 (-1)) exampleDB in
  exists taker' maker',
    snd run = Ok (taker', maker')
    /\ fillStatus taker' /\ Status taker' = OrderStatusFilled
    /\ fillStatus maker' /\ Status maker' = OrderStatusPartial.
Proof.
  cbv zeta.
  destruct (tradeExecutor_Execute exampleTaker exampleMaker (New 5 (-1)) exampleDB)
    as [db' r] eqn:E.
  assert (Hr : r = Ok (afterFill exampleTaker (New 5 (-1)),
                       afterFill exampleMaker (New 5 (-1)))).
  { apply (f_equal snd) in E. cbn [snd] in E. rewrite <- E.
    vm_compute. reflexivity. }
  subst r.
  assert (Ht : (0 < toQ (Quantity exampleTaker))%Q) by reflexivity.
  assert (Hm : (0 < toQ (Quantity exampleMaker))%Q) by reflexivity.
  destruct (status_after_execution _ _ _ _ _ _ _ Ht Hm E)
    as ((_ & _ & Hft) & (_ & _ & Hfm)).
  exists (afterFill exampleTaker (New 5 (-1))), (afterFill exampleMaker (New 5 (-1))).
  split; [reflexivity|]. split; [exact Hft|]. split; [reflexivity|].
  split; [exact Hfm|]. reflexivity.
Defined.

(* ===================================================================== *)
(** * The balance ledger *)
(* ===================================================================== *)

Section ledger.

(** A debit with no wallet row for the account and asset fails and
    leaves every balance as it was. *)
Lemma debit_missing_wallet (accountID : UUID) (asset : string) (amount : Decimal) (db : DB) :
  List.filter (walletRow accountID asset) (wallets db) = [] ->
  snd (walletRepository_SubtractFromBalance accountID asset amount db)
  = Err (errors_New "insufficient balance or wallet not found")
  /\ wallets (fst (walletRepository_SubtractFromBalance accountID asset amount db))
     = wallets db.
Proof.
  intros Hnone. unfold walletRepository_SubtractFromBalance, updateBalance.
  rewrite Hnone. cbn. split; [reflexivity|].
  assert (H : forall w, In w (wallets db) -> walletRow accountID asset w = false).
  { intros w Hin. destruct (walletRow accountID asset w) eqn:E; [|reflexivity].
    assert (Hf : In w (List.filter (walletRow accountID asset) (wallets db)))
      by (apply filter_In; split; assumption).
    rewrite Hnone in Hf. destruct Hf. }
  clear Hnone. revert H. generalize (wallets db) as ws.
  induction ws as [|w ws IH]; intros H; [reflexivity|].
  cbn. rewrite (H w) by (left; reflexivity).
  f_equal. apply IH. intros w' Hin. apply H. right. exact Hin.
Qed.

(** A debit that finds the wallet succeeds and takes the amount off its
    balance, whatever the balance was. *)
Lemma debit_found_wallet (accountID : UUID) (asset : string) (amount : Decimal) (db : DB) :
  List.filter (walletRow accountID asset) (wallets db) <> [] ->
  snd (walletRepository_SubtractFromBalance accountID asset amount db) = Ok tt
  /\ wallets (fst (walletRepository_SubtractFromBalance accountID asset amount db))
     = List.map (fun w => if walletRow accountID asset w
                          then withBalance w (Sub (Balance w) amount) else w)
                (wallets db).
Proof.
  intros Hsome. unfold walletRepository_SubtractFromBalance, updateBalance.
  destruct (List.filter (walletRow accountID asset) (wallets db)) as [|w ws];
    [contradiction|].
  cbn. split; reflexivity.
Qed.

(** C3, at the input where the code parts from it.  The wallet holds
    0.5 BTC and 1 BTC is debited: the claim has the debit fail and the
    balance stay at 0.5; the update goes through and leaves -0.5. *)
Theorem debit_below_zero_goes_through :
  let run := walletRepository_SubtractFromBalance 1%N "BTC" (New 1 0) overdraftDB in
  List.map Balance (wallets overdraftDB) = [ New 5 (-1) ]
  /\ snd run = Ok tt
  /\ List.map Balance (wallets (fst run)) = [ New (-5) (-1) ]
  /\ (toQ (New (-5) (-1)) < 0)%Q.
Proof.
  cbv zeta. split; [reflexivity|]. split; [reflexivity|].
  split; reflexivity.
Qed.

End ledger.

(* ===================================================================== *)
(** * The order book: what is fetched *)
(* ===================================================================== *)

Section book_fetch.
Context {S : Type}.
Context {O : OrderRepository S}.

(** A pair that fails the format check is refused before the
    repository is asked anything: the store is untouched whatever the
    repository would have done. *)
Lemma GetOrderBook_invalid_pair (pair : string) (s : S) :
  IsValidInstrumentPair pair = false ->
  GetOrderBook pair s = (s, Err ErrInvalidPairFormat).
Proof.
  intros H. unfold GetOrderBook. rewrite H. reflexivity.
Qed.

(** No order fetched: no book and no error. *)
Lemma GetOrderBook_no_orders (pair : string) (s s' : S) :
  IsValidInstrumentPair pair = true ->
  GetOpenOrdersByInstrumentPair pair s = (s', Ok []) ->
  GetOrderBook pair s = (s', Ok None).
Proof.
  intros Hv Hf. unfold GetOrderBook. rewrite Hv. cbn [negb].
  unfold bind. rewrite Hf. reflexivity.
Qed.

End book_fetch.

(** C6, at the input where the code parts from it.  The book of BTC_BRL
    holds one order, partially filled with 0.4 remaining: the claim has
    the aggregation run over it; the query selects status OPEN alone, so
    nothing is fetched and the answer is "no book".  With an untouched
    order of 1 BTC beside it at the same price, the level shows 1 and not
    1.4. *)
Theorem order_book_skips_partially_filled :
  IsValidInstrumentPair "BTC_BRL" = true
  /\ Status partialOrder = OrderStatusPartial
  /\ InstrumentPair partialOrder = "BTC_BRL"%string
  /\ snd (GetOpenOrdersByInstrumentPair "BTC_BRL" partialOnlyDB) = Ok []
  /\ snd (GetOrderBook "BTC_BRL" partialOnlyDB) = Ok None
  /\ snd (GetOrderBook "BTC_BRL" partialAndOpenDB)
     = Ok (Some (mkOrderBook "BTC_BRL" [ mkEntry (New 100 0) (New 10 (-1)) ] [])).
Proof.
  repeat split; vm_compute; reflexivity.
Qed.

(* ===================================================================== *)
(** * The matching query: eligibility and price-time priority *)
(* ===================================================================== *)

Section matching_query.

Lemma comesBefore_buy (a b : Order) :
  comesBefore true a b <->
  (toQ (Price a) < toQ (Price b))%Q
  \/ ((toQ (Price a) == toQ (Price b))%Q /\ CreatedAt a <= CreatedAt b).
Proof.
  unfold comesBefore, orderBy. rewrite Cmp_toQ.
  destruct (Qcompare_spec (toQ (Price a)) (toQ (Price b))) as [He|Hlt|Hgt]; cbn.
  - rewrite Z.leb_le. split.
    + intros H. right. split; assumption.
    + intros [H|[_ H]]; [rewrite He in H; exfalso; lra|exact H].
  - split; [intros _; left; exact Hlt|reflexivity].
  - split; [discriminate|]. intros [H|[H _]]; exfalso; lra.
Qed.

Lemma comesBefore_sell (a b : Order) :
  comesBefore false a b <->
  (toQ (Price b) < toQ (Price a))%Q
  \/ ((toQ (Price a) == toQ (Price b))%Q /\ CreatedAt a <= CreatedAt b).
Proof.
  unfold comesBefore, orderBy. rewrite Cmp_toQ.
  destruct (Qcompare_spec (toQ (Price a)) (toQ (Price b))) as [He|Hlt|Hgt]; cbn.
  - rewrite Z.leb_le. split.
    + intros H. right. split; assumption.
    + intros [H|[_ H]]; [rewrite He in H; exfalso; lra|exact H].
  - split; [discriminate|]. intros [H|[H _]]; exfalso; lra.
  - split; [intros _; left; exact Hgt|reflexivity].
Qed.

#[local] Instance comesBefore_total (isBuyOrder : bool) : Total (comesBefore isBuyOrder).
Proof.
  intros a b. destruct isBuyOrder.
  - rewrite !comesBefore_buy.
    destruct (Qcompare_spec (toQ (Price a)) (toQ (Price b))) as [He|Hlt|Hgt].
    + destruct (Z.le_ge_cases (CreatedAt a) (CreatedAt b)).
      * left. right. split; assumption.
      * right. right. split; [symmetry; assumption|assumption].
    + left. left. assumption.
    + right. left. assumption.
  - rewrite !comesBefore_sell.
    destruct (Qcompare_spec (toQ (Price a)) (toQ (Price b))) as [He|Hlt|Hgt].
    + destruct (Z.le_ge_cases (CreatedAt a) (CreatedAt b)).
      * left. right. split; assumption.
      * right. right. split; [symmetry; assumption|assumption].
    + right. left. assumption.
    + left. left. assumption.
Qed.

#[local] Instance comesBefore_trans (isBuyOrder : bool) : Transitive (comesBefore isBuyOrder).
Proof.
  intros a b c. destruct isBuyOrder.
  - rewrite !comesBefore_buy.
    intros [H1|[H1 H1']] [H2|[H2 H2']].
    + left. lra.
    + left. lra.
    + left. lra.
    + right. split; [lra|lia].
  - rewrite !comesBefore_sell.
    intros [H1|[H1 H1']] [H2|[H2 H2']].
    + left. lra.
    + left. lra.
    + left. lra.
    + right. split; [lra|lia].
Qed.

Lemma StronglySorted_lookup {A} (R : relation A) (l : list A) (i j : nat) (a b : A) :
  StronglySorted R l -> (i < j)%nat -> l !! i = Some a -> l !! j = Some b -> R a b.
Proof.
  intros Hs. revert i j a b.
  induction Hs as [|x l Hs IH Hall]; intros i j a b Hij Hi Hj.
  - discriminate.
  - destruct j as [|j]; [lia|]. cbn in Hj.
    destruct i as [|i].
    + cbn in Hi. injection Hi as ->.
      rewrite Forall_forall in Hall. apply Hall.
      eapply list_elem_of_lookup_2. exact Hj.
    + cbn in Hi. apply (IH i j); [lia|assumption|assumption].
Qed.

(** The rows the [WHERE] clause keeps. *)
Lemma matchingRow_iff accountID pair orderType price (isBuyOrder : bool) (o : Order) :
  matchingRow accountID pair orderType price isBuyOrder o = true <->
  InstrumentPair o = pair
  /\ OrderType o = orderType
  /\ (Status o = OrderStatusOpen \/ Status o = OrderStatusPartial)
  /\ AccountID o <> accountID
  /\ (if isBuyOrder then (toQ (Price o) <= toQ price)%Q
      else (toQ price <= toQ (Price o))%Q).
Proof.
  unfold matchingRow. rewrite !andb_true_iff, orb_true_iff, negb_true_iff.
  rewrite !String.eqb_eq, N.eqb_neq.
  destruct isBuyOrder.
  - rewrite LessThanOrEqual_toQ. tauto.
  - rewrite GreaterThanOrEqual_toQ. tauto.
Qed.

(** C1. For a taker, the matching query returns exactly the orders of
    the book that are on the same pair, on the opposite side, of another
    account, OPEN or PARTIALLY_FILLED, and priced within the taker's
    limit (at most the limit for a buyer, at least the limit for a
    seller); and it returns them by price, ascending for a buyer and
    descending for a seller, the earlier created first among equal
    prices. *)
Theorem matching_orders_price_time (db : DB) (taker : Order) :
  validSide taker ->
  exists makers : list Order,
    GetMatchingOrders (AccountID taker) (InstrumentPair taker)
                      (oppositeOrderType taker) (Price taker) (takerBuys taker) db
    = (db, Ok makers)
    /\ makers ≡ₚ
       List.filter (matchingRow (AccountID taker) (InstrumentPair taker)
                      (oppositeOrderType taker) (Price taker) (takerBuys taker))
                   (orders db)
    /\ (forall m : Order,
          In m makers <->
          In m (orders db)
          /\ InstrumentPair m = InstrumentPair taker
          /\ OrderType m <> OrderType taker /\ validSide m
          /\ AccountID m <> AccountID taker
          /\ (Status m = OrderStatusOpen \/ Status m = OrderStatusPartial)
          /\ (OrderType taker = OrderTypeBuy -> (toQ (Price m) <= toQ (Price taker))%Q)
          /\ (OrderType taker = OrderTypeSell -> (toQ (Price taker) <= toQ (Price m))%Q))
    /\ (forall (i j : nat) (a b : Order),
          (i < j)%nat -> makers !! i = Some a -> makers !! j = Some b ->
          (OrderType taker = OrderTypeBuy -> (toQ (Price a) <= toQ (Price b))%Q)
          /\ (OrderType taker = OrderTypeSell -> (toQ (Price b) <= toQ (Price a))%Q)
          /\ ((toQ (Price a) == toQ (Price b))%Q -> CreatedAt a <= CreatedAt b)).
Proof.
  intros Hside.
  set (row := matchingRow (AccountID taker) (InstrumentPair taker)
                (oppositeOrderType taker) (Price taker) (takerBuys taker)).
  exists (merge_sort (comesBefore (takerBuys taker)) (List.filter row (orders db))).
  split; [reflexivity|]. split; [apply merge_sort_Permutation|]. split.
  - intros m.
    rewrite <- !list_elem_of_In.
    rewrite (merge_sort_Permutation (comesBefore (takerBuys taker))).
    rewrite !list_elem_of_In, filter_In. unfold row.
    rewrite matchingRow_iff.
    unfold oppositeOrderType, takerBuys, validSide, OrderTypeBuy, OrderTypeSell.
    destruct Hside as [Hb|Hs].
    + rewrite Hb. cbn. split.
      * intros (Hin & Hp & Ht & Hst & Ha & Hpr).
        rewrite Ht. repeat split; auto; try discriminate.
      * intros (Hin & Hp & Ht & [Hv|Hv] & Ha & Hst & Hpb & _); [contradiction|].
        repeat split; auto.
    + rewrite Hs. cbn. split.
      * intros (Hin & Hp & Ht & Hst & Ha & Hpr).
        rewrite Ht. repeat split; auto; try discriminate.
      * intros (Hin & Hp & Ht & [Hv|Hv] & Ha & Hst & _ & Hps); [|contradiction].
        repeat split; auto.
  - intros i j a b Hij Hi Hj.
    pose proof (StronglySorted_merge_sort (comesBefore (takerBuys taker))
                  (List.filter row (orders db))) as Hsorted.
    pose proof (StronglySorted_lookup _ _ i j a b Hsorted Hij Hi Hj) as Hab.
    unfold takerBuys, OrderTypeBuy, OrderTypeSell in *.
    destruct Hside as [Hb|Hs].
    + rewrite Hb in *. cbn in Hab. apply comesBefore_buy in Hab.
      split; [intros _; destruct Hab as [H|[H _]]; lra|].
      split; [discriminate|].
      intros He. destruct Hab as [H|[_ H]]; [exfalso; lra|exact H].
    + rewrite Hs in *. cbn in Hab. apply comesBefore_sell in Hab.
      split; [discriminate|].
      split; [intros _; destruct Hab as [H|[H _]]; lra|].
      intros He. destruct Hab as [H|[_ H]]; [exfalso; lra|exact H].
Qed.

End matching_query.

(** The example of C1: a buyer at a limit of 100 is offered 99 first,
    then the two offers at 100, the older before the newer. *)
Lemma matching_orders_example :
  exists makers : list Order,
    GetMatchingOrders (AccountID priorityTaker) (InstrumentPair priorityTaker)
                      "SELL" (Price priorityTaker) true priorityDB
    = (priorityDB, Ok makers)
    /\ List.map ID makers = [ 2%N; 3%N; 1%N ]
    /\ (forall (i j : nat) (a b : Order),
          (i < j)%nat -> makers !! i = Some a -> makers !! j = Some b ->
          (toQ (Price a) <= toQ (Price b))%Q
          /\ ((toQ (Price a) == toQ (Price b))%Q -> CreatedAt a <= CreatedAt b)).
Proof.
  assert (Hside : validSide priorityTaker) by (left; reflexivity).
  destruct (matching_orders_price_time priorityDB priorityTaker Hside)
    as (makers & Hrun & _ & _ & Hsorted).
  exists makers. split; [exact Hrun|]. split.
  - assert (H : snd (GetMatchingOrders (AccountID priorityTaker)
                       (InstrumentPair priorityTaker) (oppositeOrderType priorityTaker)
                       (Price priorityTaker) (takerBuys priorityTaker) priorityDB)
                = Ok makers) by (rewrite Hrun; reflexivity).
    vm_compute in H. injection H as <-. reflexivity.
  - intros i j a b Hij Hi Hj.
    destruct (Hsorted i j a b Hij Hi Hj) as (Hb & _ & Ht).
    split; [apply Hb; reflexivity|exact Ht].
Defined.

(* ===================================================================== *)
(** * The matching loop *)
(* ===================================================================== *)

Section matching_loop.
Context {S : Type}.
Context (O : OrderRepository S) (E : TradeExecutor S).

Local Abbreviation matchLoopRec :=
  (matchLoop (executor := recordingExecutor E)).
Local Abbreviation matchOrderRec :=
  (matchOrder (orderRepository := besideLog (list Call) O)
              (executor := recordingExecutor E)).

(** The loop appends to the log the calls of one of its runs. *)
Lemma matchLoop_run (makers : list Order) (order : Order) (s : S) (log : list Call) :
  exists calls : list Call,
    snd (fst (matchLoopRec order makers (s, log))) = log ++ calls
    /\ MatchRun order makers calls (snd (matchLoopRec order makers (s, log))).
Proof.
  revert order s log. induction makers as [|m ms IH]; intros order s log.
  - exists []. cbn. rewrite app_nil_r. split; [reflexivity|constructor].
  - cbn [matchLoop]. unfold bind.
    cbn [Execute recordingExecutor fst snd].
    destruct (Execute order m (Min (RemainingQuantity order) (RemainingQuantity m)) s)
      as [s1 [[t m']|e|]].
    + cbn [fst snd].
      destruct (IsZero (RemainingQuantity t)) eqn:Ez.
      * eexists. split; [reflexivity|]. cbn. apply run_filled. exact Ez.
      * destruct (IH t s1 (log ++ [mkCall order m
                     (Min (RemainingQuantity order) (RemainingQuantity m)) (Ok (t, m'))]))
          as (calls & Hlog & Hrun).
        eexists. split.
        -- rewrite Hlog, <- app_assoc. reflexivity.
        -- apply run_next; assumption.
    + eexists. split; [reflexivity|]. cbn. apply run_err.
    + eexists. split; [reflexivity|]. cbn. apply run_panic.
Qed.

(** What a run looks like, call by call. *)
Lemma MatchRun_shape (order : Order) (makers : list Order) (calls : list Call)
    (r : outcome Order) :
  MatchRun order makers calls r ->
  List.map callMaker calls = firstn (length calls) makers
  /\ (forall c, In c calls ->
        callQty c = Min (RemainingQuantity (callTaker c)) (RemainingQuantity (callMaker c)))
  /\ (forall c, calls !! 0%nat = Some c -> callTaker c = order)
  /\ (forall (i : nat) (c c' : Call),
        calls !! i = Some c -> calls !! Datatypes.S i = Some c' ->
        exists t m', callResult c = Ok (t, m')
                     /\ IsZero (RemainingQuantity t) = false
                     /\ callTaker c' = t)
  /\ (calls = [] -> makers = [] /\ r = Ok order)
  /\ (forall c, last calls = Some c ->
        match callResult c with
        | Ok (t, _) =>
            r = Ok t
            /\ (IsZero (RemainingQuantity t) = true \/ length calls = length makers)
        | Err e => r = Err e
        | Panic => r = Panic
        end).
Proof.
  induction 1 as [order|order m ms e|order m ms|order m ms t m' Hz
                  |order m ms t m' calls r Hz Hrun IH].
  - cbn. repeat split; try discriminate; try contradiction; auto.
  - cbn. split; [reflexivity|]. split; [intros c [<-|[]]; reflexivity|].
    split; [intros c H; injection H as <-; reflexivity|].
    split; [intros [|i] c c' H H'; discriminate|].
    split; [discriminate|]. intros c H. injection H as <-. reflexivity.
  - cbn. split; [reflexivity|]. split; [intros c [<-|[]]; reflexivity|].
    split; [intros c H; injection H as <-; reflexivity|].
    split; [intros [|i] c c' H H'; discriminate|].
    split; [discriminate|]. intros c H. injection H as <-. reflexivity.
  - cbn. split; [reflexivity|]. split; [intros c [<-|[]]; reflexivity|].
    split; [intros c H; injection H as <-; reflexivity|].
    split; [intros [|i] c c' H H'; discriminate|].
    split; [discriminate|]. intros c H. injection H as <-. cbn.
    split; [reflexivity|left; exact Hz].
  - destruct IH as (Hmap & Hqty & Hhead & Hchain & Hnil & Hlast).
    split; [cbn; rewrite Hmap; reflexivity|].
    split; [intros c [<-|Hin]; [reflexivity|apply Hqty; exact Hin]|].
    split; [intros c H; injection H as <-; reflexivity|].
    split.
    { intros [|i] c c' Hc Hc'.
      - cbn in Hc, Hc'. injection Hc as <-. exists t, m'.
        split; [reflexivity|]. split; [exact Hz|]. apply Hhead. exact Hc'.
      - cbn in Hc, Hc'. apply (Hchain i c c'); assumption. }
    split; [discriminate|].
    intros c Hc. destruct calls as [|c1 calls'].
    + destruct (Hnil eq_refl) as [-> ->]. cbn in Hc. injection Hc as <-. cbn.
      split; [reflexivity|right; reflexivity].
    + rewrite last_cons_cons in Hc. specialize (Hlast c Hc).
      destruct (callResult c) as [[t' m'']|e|]; try exact Hlast.
      destruct Hlast as [-> Hor]. split; [reflexivity|].
      destruct Hor as [Hor|Hor]; [left; exact Hor|right; cbn in *; lia].
Qed.


End matching_loop.


(* ===================================================================== *)
(** * Decimal strings are canonical *)
(* ===================================================================== *)

Section decimal_strings.

(** ** Digits *)

Lemma natDigits_fuel (f1 f2 : nat) (n : Z) :
  0 <= n -> n < 10 ^ (Z.of_nat f1 + 1) -> n < 10 ^ (Z.of_nat f2 + 1) ->
  natDigits f1 n = natDigits f2 n.
Proof.
  revert f2 n. induction f1 as [|f1 IH]; intros f2 n Hn H1 H2.
  - change (10 ^ (Z.of_nat 0 + 1)) with 10 in H1.
    destruct f2 as [|f2]; cbn [natDigits]; [reflexivity|].
    destruct (Z.ltb_spec n 10); [reflexivity|lia].
  - cbn [natDigits]. destruct (Z.ltb_spec n 10) as [Hlt|Hge].
    + destruct f2 as [|f2]; cbn [natDigits]; [reflexivity|].
      destruct (Z.ltb_spec n 10); [reflexivity|lia].
    + destruct f2 as [|f2].
      * change (10 ^ (Z.of_nat 0 + 1)) with 10 in H2. lia.
      * cbn [natDigits]. destruct (Z.ltb_spec n 10); [lia|].
        f_equal. apply IH.
        -- apply Z.div_pos; lia.
        -- apply Z.div_lt_upper_bound; [lia|].
           replace (Z.of_nat (Datatypes.S f1) + 1) with (Z.succ (Z.of_nat f1 + 1)) in H1 by lia.
           rewrite Z.pow_succ_r in H1 by lia. exact H1.
        -- apply Z.div_lt_upper_bound; [lia|].
           replace (Z.of_nat (Datatypes.S f2) + 1) with (Z.succ (Z.of_nat f2 + 1)) in H2 by lia.
           rewrite Z.pow_succ_r in H2 by lia. exact H2.
Qed.

Lemma log2_fuel (n : Z) : 0 <= n -> n < 10 ^ (Z.of_nat (Z.to_nat (Z.log2 n)) + 1).
Proof.
  intros Hn. rewrite Z2Nat.id by apply Z.log2_nonneg.
  destruct (Z.eq_dec n 0) as [->|Hne]; [reflexivity|].
  assert (H : n < 2 ^ Z.succ (Z.log2 n)) by (apply Z.log2_spec; lia).
  eapply Z.lt_le_trans; [exact H|].
  replace (Z.log2 n + 1) with (Z.succ (Z.log2 n)) by lia.
  apply Z.pow_le_mono_l. lia.
Qed.

Lemma absString_small (n : Z) : 0 <= n < 10 -> absString n = [digitChar n].
Proof.
  intros Hn. unfold absString.
  destruct (Z.to_nat (Z.log2 n)); cbn [natDigits]; [reflexivity|].
  destruct (Z.ltb_spec n 10); [reflexivity|lia].
Qed.

Lemma absString_step (n : Z) :
  10 <= n -> absString n = absString (n / 10) ++ [digitChar (n mod 10)].
Proof.
  intros Hn. unfold absString.
  pose proof (log2_fuel n ltac:(lia)) as Hf.
  destruct (Z.to_nat (Z.log2 n)) as [|f] eqn:Ef.
  - change (10 ^ (Z.of_nat 0 + 1)) with 10 in Hf. lia.
  - cbn [natDigits]. destruct (Z.ltb_spec n 10); [lia|]. f_equal.
    assert (H0 : 0 <= n / 10) by (apply Z.div_pos; lia).
    apply natDigits_fuel; [exact H0| |apply log2_fuel; exact H0].
    apply Z.div_lt_upper_bound; [lia|].
    replace (Z.of_nat (Datatypes.S f) + 1) with (Z.succ (Z.of_nat f + 1)) in Hf by lia.
    rewrite Z.pow_succ_r in Hf by lia. exact Hf.
Qed.

Lemma absString_snoc (a d : Z) :
  0 < a -> 0 <= d < 10 -> absString (10 * a + d) = absString a ++ [digitChar d].
Proof.
  intros Ha Hd. rewrite absString_step by lia.
  replace ((10 * a + d) / 10) with a by (apply Z.div_unique with d; lia).
  replace ((10 * a + d) mod 10) with d by (apply Z.mod_unique with a; lia).
  reflexivity.
Qed.

Lemma absString_tenfold (a : Z) :
  0 < a -> absString (a * 10) = absString a ++ ["0"%char].
Proof.
  intros Ha. replace (a * 10) with (10 * a + 0) by lia.
  rewrite absString_snoc by lia. reflexivity.
Qed.

Lemma absString_not_nil (n : Z) : absString n <> [].
Proof.
  unfold absString. destruct (Z.to_nat (Z.log2 n)); cbn [natDigits]; [discriminate|].
  destruct (n <? 10); [discriminate|].
  intros H. apply app_eq_nil in H. destruct H as [_ H]. discriminate.
Qed.

(** ** Trailing zeros *)

Lemma trimTrailingZeros_snoc_zero (s : list ascii) :
  trimTrailingZeros (s ++ ["0"%char]) = trimTrailingZeros s.
Proof.
  induction s as [|c r IH]; [reflexivity|].
  cbn [app trimTrailingZeros]. rewrite IH. reflexivity.
Qed.

Lemma trimTrailingZeros_zeros (n : nat) : trimTrailingZeros (repeat "0"%char n) = [].
Proof.
  induction n as [|n IH]; [reflexivity|].
  cbn [repeat trimTrailingZeros]. rewrite IH. reflexivity.
Qed.

(** ** One more trailing zero in the coefficient changes nothing *)

Lemma value_rescale_zero (v e : Z) : 0 <= e -> value (rescale (New v e) 0) = v * 10 ^ e.
Proof.
  intros He. unfold rescale. cbn [value exp].
  destruct (Z.eqb_spec e 0) as [->|Hne]; [cbn [value]; lia|].
  destruct (Z.gtb_spec 0 e); [lia|]. cbn [value]. f_equal. f_equal. lia.
Qed.

Lemma ltb_tenfold (v : Z) : (v * 10 <? 0) = (v <? 0).
Proof. destruct (Z.ltb_spec (v * 10) 0), (Z.ltb_spec v 0); lia || reflexivity. Qed.

Lemma abs_tenfold (v : Z) : Z.abs (v * 10) = Z.abs v * 10.
Proof. lia. Qed.

Lemma stringBytes_tenfold (v e : Z) :
  stringBytes (New (v * 10) (e - 1)) = stringBytes (New v e).
Proof.
  unfold stringBytes. cbn [value exp].
  destruct (Z.leb_spec 0 (e - 1)) as [Hge|Hlt].
  - destruct (Z.leb_spec 0 e); [|lia].
    rewrite !value_rescale_zero by lia.
    replace (v * 10 * 10 ^ (e - 1)) with (v * 10 ^ e); [reflexivity|].
    replace e with (Z.succ (e - 1)) at 1 by lia.
    rewrite Z.pow_succ_r by lia. lia.
  - rewrite ltb_tenfold, abs_tenfold.
    destruct (Z.eq_dec v 0) as [->|Hv].
    + (* the coefficient is zero: "0" either way *)
      change (Z.abs 0 * 10) with 0. change (Z.abs 0) with 0.
      rewrite (absString_small 0) by lia. cbn [length].
      destruct (Z.ltb_spec (- (e - 1)) (Z.of_nat 1)); [lia|].
      rewrite trimTrailingZeros_snoc_zero, trimTrailingZeros_zeros.
      destruct (Z.leb_spec 0 e) as [He|He].
      * assert (e = 0) as -> by lia. reflexivity.
      * destruct (Z.ltb_spec (- e) (Z.of_nat 1)); [lia|].
        rewrite trimTrailingZeros_snoc_zero, trimTrailingZeros_zeros. reflexivity.
    + rewrite absString_tenfold by lia.
      set (str := absString (Z.abs v)).
      assert (Hlen : (1 <= length str)%nat).
      { pose proof (absString_not_nil (Z.abs v)) as Hnn. fold str in Hnn.
        destruct str; [contradiction|cbn; lia]. }
      rewrite length_app. cbn [length].
      destruct (Z.leb_spec 0 e) as [He|He].
      * (* from an integer to one decimal place *)
        assert (e = 0) as -> by lia.
        destruct (Z.ltb_spec (- (0 - 1)) (Z.of_nat (length str + 1))); [|lia].
        replace (Z.to_nat (Z.of_nat (length str + 1) + (0 - 1))) with (length str) by lia.
        rewrite skipn_app, Nat.sub_diag, skipn_all. cbn [skipn app trimTrailingZeros].
        rewrite firstn_app, Nat.sub_diag, firstn_all. cbn [firstn]. rewrite app_nil_r.
        unfold bigIntString, rescale. cbn [value exp Z.eqb].
        destruct (Z.ltb_spec v 0).
        -- reflexivity.
        -- subst str. rewrite Z.abs_eq by lia. reflexivity.
      * destruct (Z.ltb_spec (- e) (Z.of_nat (length str))) as [Hk|Hk].
        -- destruct (Z.ltb_spec (- (e - 1)) (Z.of_nat (length str + 1))); [|lia].
           replace (Z.to_nat (Z.of_nat (length str + 1) + (e - 1)))
             with (Z.to_nat (Z.of_nat (length str) + e)) by lia.
           set (p := Z.to_nat (Z.of_nat (length str) + e)).
           assert (Hp : (p <= length str)%nat) by lia.
           rewrite firstn_app, skipn_app.
           replace (p - length str)%nat with 0%nat by lia.
           cbn [firstn skipn]. rewrite app_nil_r.
           rewrite trimTrailingZeros_snoc_zero. reflexivity.
        -- destruct (Z.ltb_spec (- (e - 1)) (Z.of_nat (length str + 1))); [lia|].
           replace (Z.to_nat (- (e - 1) - Z.of_nat (length str + 1)))
             with (Z.to_nat (- e - Z.of_nat (length str))) by lia.
           rewrite app_assoc, trimTrailingZeros_snoc_zero. reflexivity.
Qed.

Lemma stringBytes_scale (j : nat) (v e : Z) :
  stringBytes (New (v * 10 ^ Z.of_nat j) (e - Z.of_nat j)) = stringBytes (New v e).
Proof.
  revert v e. induction j as [|j IH]; intros v e.
  - cbn. f_equal. f_equal; lia.
  - rewrite Nat2Z.inj_succ, Z.pow_succ_r by lia.
    replace (v * (10 * 10 ^ Z.of_nat j)) with (v * 10 ^ Z.of_nat j * 10) by lia.
    replace (e - Z.succ (Z.of_nat j)) with (e - Z.of_nat j - 1) by lia.
    rewrite stringBytes_tenfold. apply IH.
Qed.

Lemma stringBytes_rescale (d : Decimal) (e : Z) :
  e <= exp d -> stringBytes (rescale d e) = stringBytes d.
Proof.
  intros He. unfold rescale.
  destruct (Z.eqb_spec (exp d) e); [reflexivity|].
  destruct (Z.gtb_spec e (exp d)); [lia|].
  destruct d as [v x]. cbn [value exp] in *.
  replace (x - e) with (Z.of_nat (Z.to_nat (x - e))) by lia.
  replace e with (x - Z.of_nat (Z.to_nat (x - e))) at 2 by lia.
  apply stringBytes_scale.
Qed.

(** Decimals of equal value print alike. *)
Lemma Decimal_String_canonical (a b : Decimal) :
  (toQ a == toQ b)%Q -> Decimal_String a = Decimal_String b.
Proof.
  intros Hq. unfold Decimal_String. f_equal.
  assert (Hc : Cmp a b = Eq) by (rewrite Cmp_toQ; apply Qeq_alt; exact Hq).
  unfold Cmp in Hc. unfold RescalePair in Hc.
  destruct (Z.ltb_spec (exp a) (exp b)) as [Hlt|Hge].
  - apply Z.compare_eq in Hc.
    rewrite <- (stringBytes_rescale b (exp a)) by lia.
    f_equal. destruct a as [va ea]. cbn [value exp] in *.
    pose proof (exp_rescale b ea) as Hx.
    destruct (rescale b ea) as [vb' eb']. cbn [value exp] in *. congruence.
  - destruct (Z.gtb_spec (exp a) (exp b)) as [Hgt|Hle].
    + apply Z.compare_eq in Hc.
      rewrite <- (stringBytes_rescale a (exp b)) by lia.
      f_equal. destruct b as [vb eb]. cbn [value exp] in *.
      pose proof (exp_rescale a eb) as Hx.
      destruct (rescale a eb) as [va' ea']. cbn [value exp] in *. congruence.
    + apply Z.compare_eq in Hc. destruct a, b. cbn [value exp] in *.
      f_equal. f_equal; lia.
Qed.

(** ** Parsing what was printed *)

Lemma digitVal_digitChar (d : Z) : 0 <= d < 10 -> digitVal (digitChar d) = Some d.
Proof.
  intros Hd. unfold digitVal, digitChar.
  rewrite nat_ascii_embedding by lia.
  destruct (Nat.leb_spec 48 (48 + Z.to_nat d)); [|lia].
  destruct (Nat.leb_spec (48 + Z.to_nat d) 57); [|lia].
  cbn [andb]. f_equal. lia.
Qed.

Lemma isDigit_digitChar (d : Z) : 0 <= d < 10 -> isDigit (digitChar d).
Proof. intros Hd. unfold isDigit. rewrite digitVal_digitChar by assumption. eauto. Qed.

Lemma isDigit_zero : isDigit "0"%char.
Proof. unfold isDigit. cbn. eauto. Qed.

Lemma isDigit_not_mark (c : ascii) :
  isDigit c -> c <> "."%char /\ c <> "-"%char /\ c <> "+"%char.
Proof.
  intros [d Hd]. repeat split; intros ->; discriminate.
Qed.

Lemma absString_digits (n : Z) : 0 <= n -> Forall isDigit (absString n).
Proof.
  intros Hn. generalize Hn. pattern n. apply Z_lt_induction; [|exact Hn].
  clear n Hn. intros n IH Hn. cbv beta in IH.
  destruct (Z_lt_le_dec n 10) as [Hlt|Hge].
  - rewrite absString_small by lia. constructor; [|constructor].
    apply isDigit_digitChar. lia.
  - rewrite absString_step by lia. apply Forall_app. split.
    + apply IH; [split; [apply Z.div_pos; lia|apply Z.div_lt; lia]|apply Z.div_pos; lia].
    + constructor; [|constructor]. apply isDigit_digitChar. apply Z.mod_pos_bound. lia.
Qed.

Lemma digitsValue_app (acc : Z) (s1 s2 : list ascii) :
  digitsValue acc (s1 ++ s2) = digitsValue (digitsValue acc s1) s2.
Proof.
  revert acc. induction s1 as [|c r IH]; intros acc; [reflexivity|].
  cbn [app digitsValue]. apply IH.
Qed.

Lemma digitsValue_absString (n : Z) :
  0 <= n ->
  forall acc, digitsValue acc (absString n)
              = acc * 10 ^ Z.of_nat (length (absString n)) + n.
Proof.
  intros Hn. generalize Hn. pattern n. apply Z_lt_induction; [|exact Hn].
  clear n Hn. intros n IH Hn acc. cbv beta in IH.
  destruct (Z_lt_le_dec n 10) as [Hlt|Hge].
  - rewrite absString_small by lia. cbn [digitsValue length].
    rewrite digitVal_digitChar by lia. cbv iota. change (10 ^ Z.of_nat 1) with 10. lia.
  - rewrite absString_step by lia.
    rewrite digitsValue_app, length_app. cbn [digitsValue length].
    rewrite digitVal_digitChar by (apply Z.mod_pos_bound; lia). cbv iota.
    rewrite IH by (try split; try apply Z.div_pos; try apply Z.div_lt; lia).
    rewrite Nat2Z.inj_add, Z.pow_add_r by lia. change (10 ^ Z.of_nat 1) with 10.
    pose proof (Z.div_mod n 10 ltac:(lia)). lia.
Qed.

Lemma digitsValue_acc (acc : Z) (s : list ascii) :
  digitsValue acc s = acc * 10 ^ Z.of_nat (length s) + digitsValue 0 s.
Proof.
  revert acc. induction s as [|c r IH]; intros acc.
  - cbn. lia.
  - cbn [digitsValue length]. rewrite IH.
    rewrite (IH (10 * 0 + _)).
    rewrite Nat2Z.inj_succ, Z.pow_succ_r by lia. lia.
Qed.

Lemma digitsValue_zeros (acc : Z) (j : nat) :
  digitsValue acc (repeat "0"%char j) = acc * 10 ^ Z.of_nat j.
Proof.
  revert acc. induction j as [|j IH]; intros acc.
  - cbn. lia.
  - cbn [repeat digitsValue]. rewrite IH.
    change (digitVal "0") with (Some 0). cbv iota.
    rewrite Nat2Z.inj_succ, Z.pow_succ_r by lia. lia.
Qed.

Lemma parseDigits_digits (s : list ascii) :
  Forall isDigit s -> forall acc, parseDigits acc s = Some (digitsValue acc s).
Proof.
  induction 1 as [|c r [d Hd] Hr IH]; intros acc; [reflexivity|].
  cbn [parseDigits digitsValue]. rewrite Hd. cbv iota. apply IH.
Qed.

Lemma trimTrailingZeros_spec (s : list ascii) :
  exists j : nat, s = trimTrailingZeros s ++ repeat "0"%char j.
Proof.
  induction s as [|c r [j IH]].
  - exists 0%nat. reflexivity.
  - cbn [trimTrailingZeros]. destruct (trimTrailingZeros r) as [|c' r'] eqn:E.
    + destruct (Ascii.eqb_spec c "0") as [->|Hne].
      * exists (Datatypes.S j). cbn [app repeat]. cbn [app] in IH. congruence.
      * exists j. cbn [app] in *. congruence.
    + exists j. cbn [app] in *. congruence.
Qed.

Lemma Forall_trimTrailingZeros (P : ascii -> Prop) (s : list ascii) :
  Forall P s -> Forall P (trimTrailingZeros s).
Proof.
  intros H. destruct (trimTrailingZeros_spec s) as [j Hj].
  rewrite Hj in H. apply Forall_app in H. apply H.
Qed.

Lemma pointIndex_none (s : list ascii) :
  Forall (fun c => c <> "."%char) s -> pointIndex s = Some None.
Proof.
  induction 1 as [|c r Hc Hr IH]; [reflexivity|].
  cbn [pointIndex]. rewrite IH.
  destruct (Ascii.eqb_spec c "."); [contradiction|reflexivity].
Qed.

Lemma pointIndex_one (s1 s2 : list ascii) :
  Forall (fun c => c <> "."%char) s1 ->
  Forall (fun c => c <> "."%char) s2 ->
  pointIndex (s1 ++ "."%char :: s2) = Some (Some (length s1)).
Proof.
  intros H1 H2. induction H1 as [|c r Hc Hr IH].
  - cbn [app pointIndex length]. rewrite (pointIndex_none s2 H2). reflexivity.
  - cbn [app pointIndex length]. rewrite IH.
    destruct (Ascii.eqb_spec c "."); [contradiction|reflexivity].
Qed.

Lemma digits_no_point (s : list ascii) :
  Forall isDigit s -> Forall (fun c => c <> "."%char) s.
Proof.
  intros H. eapply Forall_impl; [exact H|].
  intros c Hc. apply isDigit_not_mark. exact Hc.
Qed.

Lemma parseInt_digits (s : list ascii) :
  s <> [] -> Forall isDigit s -> parseInt s = Some (digitsValue 0 s).
Proof.
  intros Hne Hd. destruct s as [|c r]; [contradiction|].
  pose proof (Forall_inv Hd) as Hc. apply isDigit_not_mark in Hc.
  destruct Hc as (_ & Hm & Hp).
  unfold parseInt.
  destruct (Ascii.eqb_spec c "-"); [contradiction|].
  destruct (Ascii.eqb_spec c "+"); [contradiction|].
  apply parseDigits_digits. exact Hd.
Qed.

Lemma parseInt_minus (s : list ascii) :
  s <> [] -> Forall isDigit s -> parseInt ("-"%char :: s) = Some (- digitsValue 0 s).
Proof.
  intros Hne Hd. unfold parseInt. cbn [Ascii.eqb Bool.eqb].
  destruct s as [|c r]; [contradiction|].
  rewrite (parseDigits_digits _ Hd). reflexivity.
Qed.

(** What is read back from a sign, an integer part and a fractional part. *)
Lemma NewFromString_plain (negative : bool) (ip fp : list ascii) :
  ip <> [] -> Forall isDigit ip -> Forall isDigit fp ->
  NewFromString (string_of_list_ascii (withSign negative (pointed ip fp)))
  = Some (New (signed negative (digitsValue 0 (ip ++ fp))) (- Z.of_nat (length fp))).
Proof.
  intros Hne Hip Hfp. unfold NewFromString.
  rewrite list_ascii_of_string_of_list_ascii.
  assert (Hsign : Forall (fun c => c <> "."%char) (withSign negative [])).
  { destruct negative; cbn; [constructor; [discriminate|constructor]|constructor]. }
  assert (Hw : forall l, withSign negative l = withSign negative [] ++ l)
    by (intros l; destruct negative; reflexivity).
  destruct fp as [|f fp'].
  - cbn [pointed length]. rewrite app_nil_r.
    rewrite pointIndex_none.
    2:{ rewrite Hw. apply Forall_app. split; [exact Hsign|apply digits_no_point; exact Hip]. }
    destruct negative; cbn [withSign signed].
    + rewrite parseInt_minus by assumption. reflexivity.
    + rewrite parseInt_digits by assumption. reflexivity.
  - cbn [pointed]. set (fp := f :: fp') in *.
    rewrite Hw, app_assoc.
    rewrite pointIndex_one.
    2:{ apply Forall_app. split; [exact Hsign|apply digits_no_point; exact Hip]. }
    2:{ apply digits_no_point. exact Hfp. }
    assert (Hf : firstn (length (withSign negative [] ++ ip))
                   ((withSign negative [] ++ ip) ++ "."%char :: fp)
                 = withSign negative [] ++ ip).
    { rewrite firstn_app, Nat.sub_diag, firstn_all. cbn [firstn]. apply app_nil_r. }
    assert (Hs : skipn (Datatypes.S (length (withSign negative [] ++ ip)))
                   ((withSign negative [] ++ ip) ++ "."%char :: fp)
                 = fp).
    { change (Datatypes.S (length (withSign negative [] ++ ip)))
        with (1 + length (withSign negative [] ++ ip))%nat.
      rewrite <- skipn_skipn.
      rewrite skipn_app, Nat.sub_diag, skipn_all. reflexivity. }
    rewrite Hf, Hs, <- app_assoc, <- Hw.
    assert (Hne' : ip ++ fp <> []).
    { intros H. apply app_eq_nil in H. destruct H as [H _]. contradiction. }
    assert (Hd : Forall isDigit (ip ++ fp)) by (apply Forall_app; split; assumption).
    destruct negative; cbn [withSign signed].
    + rewrite parseInt_minus by assumption. reflexivity.
    + rewrite parseInt_digits by assumption. reflexivity.
Qed.

(** Every printed decimal is a sign, an integer part and a fractional
    part that read back to the decimal's value. *)
Lemma stringBytes_form (d : Decimal) :
  exists (ip fp : list ascii),
    ip <> [] /\ Forall isDigit ip /\ Forall isDigit fp
    /\ stringBytes d = withSign (value d <? 0) (pointed ip fp)
    /\ (toQ (New (signed (value d <? 0) (digitsValue 0 (ip ++ fp)))
                 (- Z.of_nat (length fp)))
        == toQ d)%Q.
Proof.
  destruct d as [v e]. unfold stringBytes. cbn [value exp].
  destruct (Z.leb_spec 0 e) as [He|He].
  - (* an integer *)
    rewrite value_rescale_zero by assumption.
    assert (Hp : 0 < 10 ^ e) by (apply Z.pow_pos_nonneg; lia).
    exists (absString (Z.abs (v * 10 ^ e))), [].
    split; [apply absString_not_nil|].
    split; [apply absString_digits; lia|]. split; [constructor|].
    assert (Hs : (v * 10 ^ e <? 0) = (v <? 0)).
    { destruct (Z.ltb_spec (v * 10 ^ e) 0), (Z.ltb_spec v 0); try reflexivity; nia. }
    split.
    + unfold bigIntString, pointed. rewrite Hs.
      destruct (Z.ltb_spec v 0); cbn [withSign]; [reflexivity|].
      rewrite Z.abs_eq by nia. reflexivity.
    + rewrite app_nil_r, digitsValue_absString by lia. cbn [length].
      replace (signed (v <? 0) (0 * 10 ^ Z.of_nat (length (absString (Z.abs (v * 10 ^ e))))
                               + Z.abs (v * 10 ^ e)))
        with (v * 10 ^ e).
      2:{ unfold signed. destruct (Z.ltb_spec v 0); nia. }
      change (- Z.of_nat 0) with 0.
      replace (New (v * 10 ^ e) 0) with (New (v * 10 ^ e) (e - e)) by (f_equal; lia).
      apply toQ_scale. exact He.
  - (* a decimal point *)
    set (a := Z.abs v). set (str := absString a).
    assert (Ha : 0 <= a) by (subst a; lia).
    assert (Hstr : Forall isDigit str) by (apply absString_digits; exact Ha).
    assert (Hval : digitsValue 0 str = a).
    { subst str. rewrite digitsValue_absString by exact Ha. lia. }
    assert (Hlen : (1 <= length str)%nat).
    { pose proof (absString_not_nil a) as Hnn. fold str in Hnn.
      destruct str; [contradiction|cbn; lia]. }
    (* the two parts before the zeros are trimmed *)
    assert (Hparts : exists ip frac : list ascii,
               (if - e <? Z.of_nat (length str)
                then (firstn (Z.to_nat (Z.of_nat (length str) + e)) str,
                      skipn (Z.to_nat (Z.of_nat (length str) + e)) str)
                else (["0"%char],
                      repeat "0"%char (Z.to_nat (- e - Z.of_nat (length str))) ++ str))
               = (ip, frac)
               /\ ip <> [] /\ Forall isDigit ip /\ Forall isDigit frac
               /\ digitsValue 0 (ip ++ frac) = a
               /\ Z.of_nat (length frac) = - e).
    { destruct (Z.ltb_spec (- e) (Z.of_nat (length str))) as [Hk|Hk].
      - set (p := Z.to_nat (Z.of_nat (length str) + e)).
        exists (firstn p str), (skipn p str). split; [reflexivity|].
        pose proof (firstn_skipn p str) as Hfs.
        split.
        { intros H. apply (f_equal (@length ascii)) in H.
          rewrite length_firstn in H. cbn in H. lia. }
        split; [rewrite <- Hfs in Hstr; apply Forall_app in Hstr; apply Hstr|].
        split; [rewrite <- Hfs in Hstr; apply Forall_app in Hstr; apply Hstr|].
        split; [rewrite Hfs; exact Hval|].
        rewrite length_skipn. lia.
      - eexists _, _. split; [reflexivity|].
        split; [discriminate|].
        split; [constructor; [apply isDigit_zero|constructor]|].
        split.
        { apply Forall_app. split; [|exact Hstr].
          apply Forall_forall. intros c Hc. apply list_elem_of_In, repeat_spec in Hc. subst c.
          apply isDigit_zero. }
        split.
        { change (["0"%char] ++ ?x) with ("0"%char :: x).
          rewrite app_comm_cons, digitsValue_app.
          change ("0"%char :: repeat "0"%char ?n) with (repeat "0"%char (Datatypes.S n)).
          rewrite digitsValue_zeros. cbn [Z.mul]. exact Hval. }
        rewrite length_app, repeat_length. lia. }
    destruct Hparts as (ip & frac & -> & Hne & Hip & Hfrac & Hv & Hk).
    destruct (trimTrailingZeros_spec frac) as [j Hj].
    remember (trimTrailingZeros frac) as tf eqn:Etf.
    exists ip, tf.
    split; [exact Hne|]. split; [exact Hip|].
    split; [rewrite Etf; apply Forall_trimTrailingZeros; exact Hfrac|].
    split; [reflexivity|].
    assert (Hlen' : Z.of_nat (length frac) = Z.of_nat (length tf) + Z.of_nat j).
    { rewrite Hj at 1. rewrite length_app, repeat_length. lia. }
    assert (Hval' : digitsValue 0 (ip ++ tf) * 10 ^ Z.of_nat j = a).
    { rewrite <- Hv. rewrite Hj at 1.
      rewrite app_assoc, (digitsValue_app 0 (ip ++ tf)).
      rewrite digitsValue_zeros. reflexivity. }
    replace (New v e)
      with (New (signed (v <? 0) (digitsValue 0 (ip ++ tf)) * 10 ^ Z.of_nat j)
                (- Z.of_nat (length tf) - Z.of_nat j)).
    2:{ f_equal; [|lia]. unfold signed. destruct (Z.ltb_spec v 0); subst a; lia. }
    symmetry. apply toQ_scale. lia.
Qed.

(** What [Decimal_String] prints, [RequireFromString] reads back to a
    decimal of the same value. *)
Lemma RequireFromString_Decimal_String (d : Decimal) :
  exists d' : Decimal,
    RequireFromString (Decimal_String d) = Some d' /\ (toQ d' == toQ d)%Q.
Proof.
  destruct (stringBytes_form d) as (ip & fp & Hne & Hip & Hfp & Hs & Hq).
  eexists. split; [|exact Hq].
  unfold RequireFromString, Decimal_String. rewrite Hs.
  apply NewFromString_plain; assumption.
Qed.

(** Decimals that print alike have the same value. *)
Lemma Decimal_String_inj (a b : Decimal) :
  Decimal_String a = Decimal_String b -> (toQ a == toQ b)%Q.
Proof.
  intros H.
  destruct (RequireFromString_Decimal_String a) as (a' & Ha & Hqa).
  destruct (RequireFromString_Decimal_String b) as (b' & Hb & Hqb).
  rewrite H, Hb in Ha. injection Ha as <-.
  rewrite <- Hqa, Hqb. reflexivity.
Qed.

End decimal_strings.

(* ===================================================================== *)
(** * The order book: aggregation by price level *)
(* ===================================================================== *)

Section order_book.
Context {S : Type}.
Context {O : OrderRepository S}.

(** ** The level maps *)

Lemma fold_levels (orders : list Order) (b a : gmap string Decimal) :
  fold_left
    (fun maps order =>
       if String.eqb (OrderType order) "BUY"
       then (addToLevel (fst maps) order, snd maps)
       else (fst maps, addToLevel (snd maps) order))
    orders (b, a)
  = (fold_left addToLevel (bidOrders orders) b,
     fold_left addToLevel (askOrders orders) a).
Proof.
  revert b a. induction orders as [|o r IH]; intros b a; [reflexivity|].
  cbn [fold_left]. unfold bidOrders, askOrders. cbn [List.filter].
  destruct (String.eqb (OrderType o) "BUY"); cbn [negb fst snd fold_left]; apply IH.
Qed.

Lemma mapIndex_addToLevel (m : gmap string Decimal) (o : Order) (k : string) :
  mapIndex (addToLevel m o) k
  = if decide (Decimal_String (Price o) = k)
    then Add (mapIndex m k) (RemainingQuantity o) else mapIndex m k.
Proof.
  unfold mapIndex, addToLevel. rewrite lookup_insert.
  destruct (decide (Decimal_String (Price o) = k)) as [->|Hne]; reflexivity.
Qed.

Lemma is_Some_addToLevel (m : gmap string Decimal) (o : Order) (k : string) :
  is_Some (addToLevel m o !! k) <-> Decimal_String (Price o) = k \/ is_Some (m !! k).
Proof.
  unfold addToLevel. rewrite lookup_insert.
  destruct (decide (Decimal_String (Price o) = k)) as [->|Hne].
  - split; [intros _; left; reflexivity|intros _; eauto].
  - split; [intros H; right; exact H|intros [H|H]; [contradiction|exact H]].
Qed.

Lemma is_Some_fold_levels (l : list Order) (m : gmap string Decimal) (k : string) :
  is_Some (fold_left addToLevel l m !! k) <->
  is_Some (m !! k) \/ exists o, In o l /\ Decimal_String (Price o) = k.
Proof.
  revert m. induction l as [|o r IH]; intros m.
  - cbn. split; [intros H; left; exact H|intros [H|(o & [] & _)]; exact H].
  - cbn [fold_left]. rewrite IH, is_Some_addToLevel. split.
    + intros [[H|H]|(o' & Hin & Hk)].
      * right. exists o. split; [left; reflexivity|exact H].
      * left. exact H.
      * right. exists o'. split; [right; exact Hin|exact Hk].
    + intros [H|(o' & [<-|Hin] & Hk)].
      * left. right. exact H.
      * left. left. exact Hk.
      * right. exists o'. split; assumption.
Qed.

Lemma same_key (a b : Decimal) :
  Decimal_String a = Decimal_String b <-> Qeq_bool (toQ a) (toQ b) = true.
Proof.
  rewrite Qeq_bool_iff. split; [apply Decimal_String_inj|apply Decimal_String_canonical].
Qed.

Lemma toQ_fold_levels (l : list Order) (m : gmap string Decimal) (p : Decimal) :
  (toQ (mapIndex (fold_left addToLevel l m) (Decimal_String p))
   == toQ (mapIndex m (Decimal_String p)) + quantityAt (toQ p) l)%Q.
Proof.
  revert m. induction l as [|o r IH]; intros m.
  - cbn. ring.
  - cbn [fold_left quantityAt]. rewrite IH, mapIndex_addToLevel.
    destruct (decide (Decimal_String (Price o) = Decimal_String p)) as [He|Hne].
    + rewrite Add_toQ. apply same_key in He. rewrite He. ring.
    + destruct (Qeq_bool (toQ (Price o)) (toQ p)) eqn:Eq.
      * apply same_key in Eq. contradiction.
      * ring.
Qed.

(** ** The prices read back from the keys *)

Lemma requireAll_printed (keys : list string) (s : S) :
  (forall k, In k keys -> exists p, k = Decimal_String p) ->
  exists ds : list Decimal,
    requireAll keys s = (s, Ok ds) /\ List.map Decimal_String ds = keys.
Proof.
  induction keys as [|k r IH]; intros Hk.
  - exists []. split; reflexivity.
  - destruct (Hk k (or_introl eq_refl)) as [p ->].
    destruct (RequireFromString_Decimal_String p) as (d & Hd & Hq).
    destruct IH as (ds & Hrun & Hmap); [intros k' Hin; apply Hk; right; exact Hin|].
    exists (d :: ds). cbn [requireAll]. rewrite Hd. unfold bind. rewrite Hrun.
    split; [reflexivity|]. cbn [List.map]. rewrite Hmap. f_equal.
    apply Decimal_String_canonical. exact Hq.
Qed.

Lemma In_mapKeys (m : gmap string Decimal) (k : string) :
  In k (mapKeys m) <-> is_Some (m !! k).
Proof.
  unfold mapKeys. rewrite <- list_elem_of_In, list_elem_of_fmap. split.
  - intros ([k' q] & -> & Hin). apply elem_of_map_to_list in Hin. cbn. eauto.
  - intros [q Hq]. exists (k, q). split; [reflexivity|].
    apply elem_of_map_to_list. exact Hq.
Qed.

Lemma NoDup_mapKeys (m : gmap string Decimal) : NoDup (mapKeys m).
Proof. apply NoDup_fst_map_to_list. Qed.

(** ** One side of the book *)

Lemma side_levels (less : Decimal -> Decimal -> bool)
    `{!Total (notAfter less)} `{!Transitive (notAfter less)}
    (l : list Order) (s : S) :
  exists ds : list Decimal,
    requireAll (mapKeys (fold_left addToLevel l ∅)) s = (s, Ok ds)
    /\ aggregates (levels (fold_left addToLevel l ∅) (sort_Slice less ds)) l
    /\ (forall (i j : nat) (e1 e2 : OrderBookEntry),
          (i < j)%nat ->
          levels (fold_left addToLevel l ∅) (sort_Slice less ds) !! i = Some e1 ->
          levels (fold_left addToLevel l ∅) (sort_Slice less ds) !! j = Some e2 ->
          less (ePrice e2) (ePrice e1) = false
          /\ ~ (toQ (ePrice e1) == toQ (ePrice e2))%Q).
Proof.
  set (m := fold_left addToLevel l ∅).
  assert (Hkeys : forall k, In k (mapKeys m) <->
                            exists o, In o l /\ Decimal_String (Price o) = k).
  { intros k. rewrite In_mapKeys. unfold m. rewrite is_Some_fold_levels.
    rewrite lookup_empty. split; [intros [[x Hx]|H]; [discriminate|exact H]|].
    intros H. right. exact H. }
  destruct (requireAll_printed (mapKeys m) s) as (ds & Hrun & Hmap).
  { intros k Hk. apply Hkeys in Hk. destruct Hk as (o & _ & <-). eauto. }
  exists ds. split; [exact Hrun|].
  set (sorted := sort_Slice less ds).
  assert (Hperm : sorted ≡ₚ ds) by apply merge_sort_Permutation.
  assert (Hin : forall d, In d sorted <-> In d ds).
  { intros d. rewrite <- !list_elem_of_In. rewrite Hperm. reflexivity. }
  assert (Hds : forall d, In d ds -> In (Decimal_String d) (mapKeys m)).
  { intros d Hd. rewrite <- Hmap. apply in_map. exact Hd. }
  split; [split|].
  - (* every order has its level *)
    intros o Ho.
    assert (Hk : In (Decimal_String (Price o)) (mapKeys m))
      by (apply Hkeys; eauto).
    rewrite <- Hmap in Hk. apply in_map_iff in Hk. destruct Hk as (d & Hd & Hdin).
    exists (mkEntry d (mapIndex m (Decimal_String d))). split.
    + unfold levels. apply in_map_iff. exists d. split; [reflexivity|].
      apply Hin. exact Hdin.
    + cbn [ePrice]. apply Decimal_String_inj. exact Hd.
  - (* every level has an order, and carries the sum *)
    intros e He. unfold levels in He. apply in_map_iff in He.
    destruct He as (d & <- & Hd). cbn [ePrice eQuantity].
    apply Hin in Hd. apply Hds, Hkeys in Hd. destruct Hd as (o & Ho & Hk).
    split; [exists o; split; [exact Ho|apply Decimal_String_inj; exact Hk]|].
    unfold m. rewrite toQ_fold_levels.
    unfold mapIndex. rewrite lookup_empty. cbn [default]. rewrite toQ_zeroValue. ring.
  - (* the order of the levels *)
    intros i j e1 e2 Hij H1 H2.
    unfold levels in H1, H2.
    change (List.map ?f sorted) with (f <$> sorted) in H1, H2.
    rewrite list_lookup_fmap in H1, H2.
    destruct (sorted !! i) as [d1|] eqn:E1; [|discriminate].
    destruct (sorted !! j) as [d2|] eqn:E2; [|discriminate].
    cbn in H1, H2. injection H1 as <-. injection H2 as <-. cbn [ePrice].
    split.
    + pose proof (StronglySorted_merge_sort (notAfter less) ds) as Hs.
      exact (StronglySorted_lookup _ _ i j d1 d2 Hs Hij E1 E2).
    + intros Hq. apply Decimal_String_canonical in Hq.
      assert (Hnd : NoDup (Decimal_String <$> sorted)).
      { rewrite Hperm. change (Decimal_String <$> ds) with (List.map Decimal_String ds).
        rewrite Hmap. apply NoDup_mapKeys. }
      assert (i = j); [|lia].
      eapply (NoDup_lookup _ i j _ Hnd).
      * rewrite list_lookup_fmap, E1. reflexivity.
      * rewrite list_lookup_fmap, E2. cbn. rewrite Hq. reflexivity.
Qed.

(** ** The book *)

Lemma LessThan_false (a b : Decimal) : LessThan a b = false <-> (toQ b <= toQ a)%Q.
Proof.
  pose proof (LessThan_toQ a b) as H.
  destruct (LessThan a b); split; intros H'; try discriminate.
  - exfalso. apply (Qlt_not_le (toQ a) (toQ b)); [apply H; reflexivity|assumption].
  - apply Qnot_lt_le. intros Hlt. apply H in Hlt. discriminate.
  - reflexivity.
Qed.

#[local] Instance descending_total : Total (notAfter GreaterThan).
Proof.
  intros a b. unfold notAfter. rewrite !GreaterThan_false.
  destruct (Qlt_le_dec (toQ a) (toQ b)) as [H|H]; [right|left]; lra.
Qed.

#[local] Instance descending_trans : Transitive (notAfter GreaterThan).
Proof.
  intros a b c. unfold notAfter. rewrite !GreaterThan_false. intros; lra.
Qed.

#[local] Instance ascending_total : Total (notAfter LessThan).
Proof.
  intros a b. unfold notAfter. rewrite !LessThan_false.
  destruct (Qlt_le_dec (toQ a) (toQ b)) as [H|H]; [left|right]; lra.
Qed.

#[local] Instance ascending_trans : Transitive (notAfter LessThan).
Proof.
  intros a b c. unfold notAfter. rewrite !LessThan_false. intros; lra.
Qed.

Lemma one_level_per_price (lv : list OrderBookEntry) :
  (forall (i j : nat) (e1 e2 : OrderBookEntry),
      (i < j)%nat -> lv !! i = Some e1 -> lv !! j = Some e2 ->
      ~ (toQ (ePrice e1) == toQ (ePrice e2))%Q) ->
  forall e1 e2, In e1 lv -> In e2 lv ->
                (toQ (ePrice e1) == toQ (ePrice e2))%Q -> e1 = e2.
Proof.
  intros Hd e1 e2 H1 H2 Hq.
  apply list_elem_of_In, list_elem_of_lookup in H1, H2.
  destruct H1 as [i Hi]. destruct H2 as [j Hj].
  destruct (lt_eq_lt_dec i j) as [[Hlt|Heq]|Hgt].
  - exfalso. exact (Hd i j e1 e2 Hlt Hi Hj Hq).
  - subst j. congruence.
  - exfalso. apply (Hd j i e2 e1 Hgt Hj Hi). symmetry. exact Hq.
Qed.

(** C9. When orders were fetched, the book groups them per side by the
    printed form of the price, which is the same for prices of the same
    value and for no others: every order has its level, each level
    carries the sum of the remaining quantities of the orders at its
    price, no two levels of a side have the same price, the bid levels
    come by strictly descending price and the ask levels by strictly
    ascending price. *)
Theorem order_book_levels (pair : string) (orders : list Order) (s s' : S) :
  IsValidInstrumentPair pair = true ->
  GetOpenOrdersByInstrumentPair pair s = (s', Ok orders) ->
  orders <> [] ->
  exists book : OrderBook,
    GetOrderBook pair s = (s', Ok (Some book))
    /\ obInstrumentPair book = pair
    /\ aggregates (Bids book) (bidOrders orders)
    /\ aggregates (Asks book) (askOrders orders)
    /\ (forall e1 e2, In e1 (Bids book) -> In e2 (Bids book) ->
                      (toQ (ePrice e1) == toQ (ePrice e2))%Q -> e1 = e2)
    /\ (forall e1 e2, In e1 (Asks book) -> In e2 (Asks book) ->
                      (toQ (ePrice e1) == toQ (ePrice e2))%Q -> e1 = e2)
    /\ (forall (i j : nat) (e1 e2 : OrderBookEntry),
          (i < j)%nat -> Bids book !! i = Some e1 -> Bids book !! j = Some e2 ->
          (toQ (ePrice e2) < toQ (ePrice e1))%Q)
    /\ (forall (i j : nat) (e1 e2 : OrderBookEntry),
          (i < j)%nat -> Asks book !! i = Some e1 -> Asks book !! j = Some e2 ->
          (toQ (ePrice e1) < toQ (ePrice e2))%Q)
    /\ (forall a b : Decimal,
          Decimal_String a = Decimal_String b <-> (toQ a == toQ b)%Q).
Proof.
  intros Hv Hfetch Hne.
  destruct (side_levels GreaterThan (bidOrders orders) s') as (bp & Hbrun & Hbagg & Hbord).
  destruct (side_levels LessThan (askOrders orders) s') as (ap & Harun & Haagg & Haord).
  eexists. split.
  { unfold GetOrderBook. rewrite Hv. cbn [negb]. unfold bind at 1. rewrite Hfetch.
    destruct orders as [|o r]; [contradiction|]. cbn [length Nat.eqb].
    rewrite fold_levels. unfold bind at 1. rewrite Hbrun.
    unfold bind at 1. rewrite Harun. reflexivity. }
  cbn [obInstrumentPair Bids Asks].
  assert (Hbd : forall (i j : nat) (e1 e2 : OrderBookEntry),
             (i < j)%nat ->
             levels (fold_left addToLevel (bidOrders orders) ∅) (sort_Slice GreaterThan bp) !! i
             = Some e1 ->
             levels (fold_left addToLevel (bidOrders orders) ∅) (sort_Slice GreaterThan bp) !! j
             = Some e2 ->
             ~ (toQ (ePrice e1) == toQ (ePrice e2))%Q)
    by (intros i j e1 e2 Hij H1 H2; apply (Hbord i j e1 e2 Hij H1 H2)).
  assert (Had : forall (i j : nat) (e1 e2 : OrderBookEntry),
             (i < j)%nat ->
             levels (fold_left addToLevel (askOrders orders) ∅) (sort_Slice LessThan ap) !! i
             = Some e1 ->
             levels (fold_left addToLevel (askOrders orders) ∅) (sort_Slice LessThan ap) !! j
             = Some e2 ->
             ~ (toQ (ePrice e1) == toQ (ePrice e2))%Q)
    by (intros i j e1 e2 Hij H1 H2; apply (Haord i j e1 e2 Hij H1 H2)).
  split; [reflexivity|]. split; [exact Hbagg|]. split; [exact Haagg|].
  split; [apply one_level_per_price; exact Hbd|].
  split; [apply one_level_per_price; exact Had|].
  split; [|split].
  - intros i j e1 e2 Hij H1 H2.
    destruct (Hbord i j e1 e2 Hij H1 H2) as [Hle Hneq].
    apply GreaterThan_false in Hle.
    destruct (Qlt_le_dec (toQ (ePrice e2)) (toQ (ePrice e1))) as [H|H]; [exact H|].
    exfalso. apply Hneq. lra.
  - intros i j e1 e2 Hij H1 H2.
    destruct (Haord i j e1 e2 Hij H1 H2) as [Hle Hneq].
    apply LessThan_false in Hle.
    destruct (Qlt_le_dec (toQ (ePrice e1)) (toQ (ePrice e2))) as [H|H]; [exact H|].
    exfalso. apply Hneq. lra.
  - intros a b. split; [apply Decimal_String_inj|apply Decimal_String_canonical].
Qed.

End order_book.

(** The example of C9: BUY orders at "100" for 1.0 and at "100.00" for
    0.4 make the single bid level (100, 1.4). *)
Lemma order_book_example :
  RequireFromString "100" = Some (New 100 0)
  /\ RequireFromString "100.00" = Some (New 10000 (-2))
  /\ exists book : OrderBook,
       GetOrderBook "BTC_BRL" bookExampleDB = (bookExampleDB, Ok (Some book))
       /\ Bids book = [ mkEntry (New 100 0) (New 14 (-1)) ]
       /\ Asks book = []
       /\ aggregates (Bids book) (bidOrders (orders bookExampleDB)).
Proof.
  split; [reflexivity|]. split; [reflexivity|].
  assert (Hv : IsValidInstrumentPair "BTC_BRL" = true) by reflexivity.
  assert (Hf : GetOpenOrdersByInstrumentPair "BTC_BRL" bookExampleDB
               = (bookExampleDB, Ok (orders bookExampleDB))) by reflexivity.
  assert (Hne : orders bookExampleDB <> []) by discriminate.
  destruct (order_book_levels "BTC_BRL" (orders bookExampleDB) bookExampleDB bookExampleDB
              Hv Hf Hne) as (book & Hrun & _ & Hagg & _).
  exists book. split; [exact Hrun|].
  assert (Hb : snd (GetOrderBook "BTC_BRL" bookExampleDB) = Ok (Some book))
    by (rewrite Hrun; reflexivity).
  vm_compute in Hb. injection Hb as <-.
  split; [reflexivity|]. split; [reflexivity|]. exact Hagg.
Defined.

(* ===================================================================== *)
(** * The ledger: what a balance update changes *)
(* ===================================================================== *)

Section ledger_effects.

Lemma wallets_updateBalance accountID asset amount isAdd (db : DB) :
  wallets (fst (updateBalance accountID asset amount isAdd db))
  = List.map (updatedRow accountID asset amount isAdd) (wallets db).
Proof.
  unfold updateBalance. destruct (length _ =? 0)%nat; reflexivity.
Qed.

Lemma rest_updateBalance accountID asset amount isAdd (db : DB) :
  orders (fst (updateBalance accountID asset amount isAdd db)) = orders db
  /\ trades (fst (updateBalance accountID asset amount isAdd db)) = trades db
  /\ nextID (fst (updateBalance accountID asset amount isAdd db)) = nextID db.
Proof.
  unfold updateBalance. destruct (length _ =? 0)%nat; repeat split.
Qed.

Lemma outcome_updateBalance accountID asset amount isAdd (db : DB) :
  snd (updateBalance accountID asset amount isAdd db)
  = match List.filter (walletRow accountID asset) (wallets db) with
    | [] => Err (errors_New "insufficient balance or wallet not found")
    | _ => Ok tt
    end.
Proof.
  unfold updateBalance.
  destruct (List.filter (walletRow accountID asset) (wallets db)); reflexivity.
Qed.

Lemma updatedRow_key accountID asset amount isAdd (w : Wallet) :
  walletKey (updatedRow accountID asset amount isAdd w) = walletKey w
  /\ wDeletedAt (updatedRow accountID asset amount isAdd w) = wDeletedAt w.
Proof.
  unfold updatedRow. destruct (walletRow accountID asset w); split; reflexivity.
Qed.

Lemma walletRow_updatedRow accountID asset amount isAdd a s (w : Wallet) :
  walletRow a s (updatedRow accountID asset amount isAdd w) = walletRow a s w.
Proof.
  unfold updatedRow. destruct (walletRow accountID asset w); reflexivity.
Qed.

Lemma toQ_updatedRow accountID asset amount isAdd (w : Wallet) :
  (toQ (Balance (updatedRow accountID asset amount isAdd w))
   == toQ (Balance w)
      + (if walletRow accountID asset w then signedAmount amount isAdd else 0))%Q.
Proof.
  unfold updatedRow, signedAmount. destruct (walletRow accountID asset w); [|ring].
  destruct isAdd; cbn [Balance withBalance]; [rewrite Add_toQ|rewrite Sub_toQ]; ring.
Qed.

(** Over the rows a key-only condition selects, the update adds the
    amount once per selected row it hits. *)
Lemma sumBalances_updated accountID asset amount isAdd (P : Wallet -> bool)
    (ws : list Wallet) :
  (forall w, P (updatedRow accountID asset amount isAdd w) = P w) ->
  (sumBalances (List.filter P (List.map (updatedRow accountID asset amount isAdd) ws))
   == sumBalances (List.filter P ws)
      + signedAmount amount isAdd
        * inject_Z (Z.of_nat
            (length (List.filter (fun w => P w && walletRow accountID asset w) ws))))%Q.
Proof.
  intros HP. induction ws as [|w r IH].
  - cbn. ring.
  - cbn [List.map List.filter]. rewrite HP.
    destruct (P w) eqn:EP; cbn [andb].
    + cbn [sumBalances]. rewrite IH, toQ_updatedRow.
      destruct (walletRow accountID asset w); cbn [length sumBalances].
      * rewrite Nat2Z.inj_succ. unfold Z.succ. rewrite inject_Z_plus. ring.
      * ring.
    + exact IH.
Qed.

Lemma filter_never {A} (l : list A) : List.filter (fun _ => false) l = [].
Proof. induction l; [reflexivity|assumption]. Qed.

Lemma unique_hit accountID asset (ws : list Wallet) :
  NoDup (List.map walletKey ws) ->
  (length (List.filter (walletRow accountID asset) ws) <= 1)%nat.
Proof.
  assert (Hkey : forall w, walletRow accountID asset w = true ->
                           walletKey w = (accountID, asset)).
  { intros w H. unfold walletRow in H. apply andb_true_iff in H. destruct H as [H _].
    apply andb_true_iff in H. destruct H as [Ha Hs].
    apply N.eqb_eq in Ha. apply String.eqb_eq in Hs. unfold walletKey. congruence. }
  induction ws as [|w r IH]; intros Hnd; [cbn; lia|].
  cbn [List.map] in Hnd. apply NoDup_cons in Hnd. destruct Hnd as [Hnin Hnd].
  cbn [List.filter]. destruct (walletRow accountID asset w) eqn:E; [|apply IH; exact Hnd].
  assert (Hnone : List.filter (walletRow accountID asset) r = []).
  { destruct (List.filter (walletRow accountID asset) r) as [|w' r'] eqn:Er; [reflexivity|].
    exfalso. apply Hnin.
    assert (Hin : In w' (List.filter (walletRow accountID asset) r))
      by (rewrite Er; left; reflexivity).
    apply filter_In in Hin. destruct Hin as [Hin Hw'].
    rewrite (Hkey w E), <- (Hkey w' Hw').
    apply list_elem_of_In, in_map. exact Hin. }
  rewrite Hnone. cbn. lia.
Qed.

Lemma hasWallet_filter accountID asset (db : DB) :
  hasWallet accountID asset db <->
  List.filter (walletRow accountID asset) (wallets db) <> [].
Proof.
  unfold hasWallet. split.
  - intros (w & Hin & Hw) H.
    assert (Hf : In w (List.filter (walletRow accountID asset) (wallets db)))
      by (apply filter_In; split; assumption).
    rewrite H in Hf. destruct Hf.
  - intros H. destruct (List.filter (walletRow accountID asset) (wallets db)) as [|w r] eqn:E;
      [contradiction|].
    exists w. apply filter_In. rewrite E. left. reflexivity.
Qed.

Lemma walletsUnique_updateBalance accountID asset amount isAdd (db : DB) :
  walletsUnique db -> walletsUnique (fst (updateBalance accountID asset amount isAdd db)).
Proof.
  unfold walletsUnique. rewrite wallets_updateBalance, List.map_map. intros H.
  erewrite List.map_ext; [exact H|].
  intros w. apply updatedRow_key.
Qed.

(** A balance update that finds the wallet changes the balance of the
    account and asset by the amount, and the total of the asset with it;
    every other balance and total stays. *)
Lemma updateBalance_found accountID asset amount isAdd (db : DB) :
  walletsUnique db ->
  hasWallet accountID asset db ->
  snd (updateBalance accountID asset amount isAdd db) = Ok tt
  /\ (forall a s,
        (balanceOf a s (fst (updateBalance accountID asset amount isAdd db))
         == balanceOf a s db
            + (if N.eqb a accountID && String.eqb s asset
               then signedAmount amount isAdd else 0))%Q)
  /\ (forall s,
        (totalOf s (fst (updateBalance accountID asset amount isAdd db))
         == totalOf s db
            + (if String.eqb s asset then signedAmount amount isAdd else 0))%Q).
Proof.
  intros Hu Hw.
  assert (Hone : length (List.filter (walletRow accountID asset) (wallets db)) = 1%nat).
  { pose proof (unique_hit accountID asset (wallets db) Hu) as Hle.
    apply hasWallet_filter in Hw.
    destruct (List.filter (walletRow accountID asset) (wallets db)); [contradiction|].
    cbn in *. lia. }
  split.
  { rewrite outcome_updateBalance.
    destruct (List.filter (walletRow accountID asset) (wallets db)); [discriminate|reflexivity]. }
  split.
  - intros a s. unfold balanceOf. rewrite wallets_updateBalance.
    rewrite sumBalances_updated by (intros w; apply walletRow_updatedRow).
    destruct (N.eqb_spec a accountID) as [->|Ha];
      [destruct (String.eqb_spec s asset) as [->|Hs]|]; cbn [andb].
    + erewrite (List.filter_ext (fun w => _ && _) (walletRow accountID asset)).
      * rewrite Hone. change (inject_Z (Z.of_nat 1)) with 1%Q. ring.
      * intros w. apply andb_diag.
    + erewrite (List.filter_ext (fun w => _ && _) (fun _ => false)).
      * rewrite filter_never. cbn. ring.
      * intros w. unfold walletRow.
        destruct (String.eqb_spec (AssetSymbol w) s) as [<-|];
          [|rewrite !andb_false_r; reflexivity].
        apply String.eqb_neq in Hs. rewrite Hs, !andb_false_r. reflexivity.
    + erewrite (List.filter_ext (fun w => _ && _) (fun _ => false)).
      * rewrite filter_never. cbn. ring.
      * intros w. unfold walletRow.
        destruct (N.eqb_spec (wAccountID w) a) as [<-|]; [|reflexivity].
        apply N.eqb_neq in Ha. rewrite Ha. cbn. rewrite andb_false_r. reflexivity.
  - intros s. unfold totalOf. rewrite wallets_updateBalance.
    rewrite sumBalances_updated.
    2:{ intros w. unfold updatedRow. destruct (walletRow accountID asset w); reflexivity. }
    destruct (String.eqb_spec s asset) as [->|Hs].
    + erewrite (List.filter_ext (fun w => _ && _) (walletRow accountID asset)).
      * rewrite Hone. change (inject_Z (Z.of_nat 1)) with 1%Q. ring.
      * intros w. unfold walletRow.
        destruct (String.eqb (AssetSymbol w) asset); [reflexivity|].
        rewrite andb_false_r. reflexivity.
    + erewrite (List.filter_ext (fun w => _ && _) (fun _ => false)).
      * rewrite filter_never. cbn. ring.
      * intros w. unfold walletRow.
        destruct (String.eqb_spec (AssetSymbol w) s) as [<-|]; [|reflexivity].
        apply String.eqb_neq in Hs. rewrite Hs, andb_false_r. reflexivity.
Qed.

Lemma updateBalance_missing accountID asset amount isAdd (db : DB) :
  ~ hasWallet accountID asset db ->
  updateBalance accountID asset amount isAdd db
  = (db, Err (errors_New "insufficient balance or wallet not found")).
Proof.
  intros Hw.
  assert (Hnone : List.filter (walletRow accountID asset) (wallets db) = []).
  { destruct (List.filter (walletRow accountID asset) (wallets db)) eqn:E; [reflexivity|].
    exfalso. apply Hw, hasWallet_filter. rewrite E. discriminate. }
  unfold updateBalance. rewrite Hnone. cbn [length Nat.eqb].
  f_equal. destruct db as [ws os ts n]. unfold withWallets. cbn [wallets orders trades nextID] in *.
  f_equal. rewrite <- (List.map_id ws) at 2. apply List.map_ext_in.
  intros w Hin. destruct (walletRow accountID asset w) eqn:E; [|reflexivity].
  assert (Hf : In w (List.filter (walletRow accountID asset) ws))
    by (apply filter_In; split; assumption).
  rewrite Hnone in Hf. destruct Hf.
Qed.

Lemma hasWallet_updateBalance accountID asset amount isAdd a s (db : DB) :
  hasWallet a s (fst (updateBalance accountID asset amount isAdd db)) <-> hasWallet a s db.
Proof.
  unfold hasWallet. rewrite wallets_updateBalance. split.
  - intros (w & Hin & Hw). apply in_map_iff in Hin. destruct Hin as (w0 & <- & Hin0).
    exists w0. split; [exact Hin0|]. rewrite walletRow_updatedRow in Hw. exact Hw.
  - intros (w & Hin & Hw). exists (updatedRow accountID asset amount isAdd w).
    split; [apply in_map; exact Hin|]. rewrite walletRow_updatedRow. exact Hw.
Qed.

Lemma hasWallet_dec accountID asset (db : DB) :
  hasWallet accountID asset db \/ ~ hasWallet accountID asset db.
Proof.
  destruct (List.filter (walletRow accountID asset) (wallets db)) eqn:E.
  - right. intros H. apply hasWallet_filter in H. contradiction.
  - left. apply hasWallet_filter. rewrite E. discriminate.
Qed.

(** A balance update that writes what the column keeps leaves a table
    of balances that the column keeps. *)
Lemma updateBalance_columnsKept accountID asset amount isAdd (db : DB) :
  writesAsIs [(accountID, asset, amount, isAdd)] db = true ->
  columnsKept db = true ->
  columnsKept (fst (updateBalance accountID asset amount isAdd db)) = true.
Proof.
  cbn [writesAsIs]. rewrite andb_true_r. unfold columnsKept.
  rewrite wallets_updateBalance. rewrite !forallb_forall.
  intros Hw Hc w' Hin. apply in_map_iff in Hin. destruct Hin as (w & <- & Hin).
  specialize (Hw w Hin). specialize (Hc w Hin). unfold updatedRow.
  destruct (walletRow accountID asset w); cbn [implb Balance withBalance] in *;
    [exact Hw|exact Hc].
Qed.

Lemma runUpdates_columnsKept (us : list BalanceUpdate) (db : DB) :
  writesAsIs us db = true ->
  columnsKept db = true ->
  columnsKept (fst (runUpdates us db)) = true.
Proof.
  revert db. induction us as [|[[[a s] amount] isAdd] rest IH]; intros db Hw Hc.
  - exact Hc.
  - cbn [writesAsIs] in Hw. apply andb_true_iff in Hw. destruct Hw as [Hw1 Hw2].
    assert (H1 : columnsKept (fst (updateBalance a s amount isAdd db)) = true).
    { apply updateBalance_columnsKept; [|exact Hc].
      cbn [writesAsIs]. rewrite Hw1. reflexivity. }
    cbn [runUpdates]. unfold bind.
    destruct (updateBalance a s amount isAdd db) as [db1 [[]|e|]];
      cbn [fst] in *; [apply IH; assumption|exact H1|exact H1].
Qed.

(** X1. A credit asks for nothing but the wallet.  Where the balance it
    writes is a number the [DECIMAL(20,8)] column keeps as it is -- no
    rounding, no overflow -- a credit to a wallet of the account and
    asset that is not deleted succeeds whatever the balances are, adds
    the amount to that balance and to the total of the asset and leaves
    every other balance alone, and a table of balances that their
    column keeps is left as one; without such a wallet it fails and
    changes nothing. *)
Theorem credit_needs_only_the_wallet
    (accountID : UUID) (asset : string) (amount : Decimal) (db : DB) :
  walletsUnique db ->
  writesAsIs [(accountID, asset, amount, true)] db = true ->
  (hasWallet accountID asset db ->
     snd (AddToBalance accountID asset amount db) = Ok tt
     /\ (balanceOf accountID asset (fst (AddToBalance accountID asset amount db))
         == balanceOf accountID asset db + toQ amount)%Q
     /\ (forall a s, (a, s) <> (accountID, asset) ->
           (balanceOf a s (fst (AddToBalance accountID asset amount db))
            == balanceOf a s db)%Q)
     /\ (totalOf asset (fst (AddToBalance accountID asset amount db))
         == totalOf asset db + toQ amount)%Q
     /\ (columnsKept db = true ->
         columnsKept (fst (AddToBalance accountID asset amount db)) = true))
  /\ (~ hasWallet accountID asset db ->
      AddToBalance accountID asset amount db
      = (db, Err (errors_New "insufficient balance or wallet not found"))).
Proof.
  intros Hu Hcol. split.
  - intros Hw.
    destruct (updateBalance_found accountID asset amount true db Hu Hw) as (Hok & Hbal & Htot).
    split; [exact Hok|]. split; [|split; [|split]].
    + rewrite (Hbal accountID asset). rewrite N.eqb_refl, String.eqb_refl. reflexivity.
    + intros a s Hne. rewrite (Hbal a s).
      destruct (N.eqb_spec a accountID) as [->|]; [|cbn; ring].
      destruct (String.eqb_spec s asset) as [->|]; [contradiction|cbn; ring].
    + rewrite (Htot asset), String.eqb_refl. reflexivity.
    + exact (updateBalance_columnsKept accountID asset amount true db Hcol).
  - intros Hw. exact (updateBalance_missing accountID asset amount true db Hw).
Qed.

(** X2. Where the two balances written are numbers the [DECIMAL(20,8)]
    column keeps as they are, a debit followed by a credit of the same
    amount to the same wallet both succeed and leave every balance what
    it was, in a table of balances that their column keeps. *)
Theorem debit_then_credit_restores
    (accountID : UUID) (asset : string) (amount : Decimal) (db : DB) :
  walletsUnique db ->
  hasWallet accountID asset db ->
  writesAsIs [(accountID, asset, amount, false); (accountID, asset, amount, true)] db = true ->
  exists db1 db2,
    SubtractFromBalance accountID asset amount db = (db1, Ok tt)
    /\ AddToBalance accountID asset amount db1 = (db2, Ok tt)
    /\ (forall a s, (balanceOf a s db2 == balanceOf a s db)%Q)
    /\ orders db2 = orders db /\ trades db2 = trades db
    /\ (columnsKept db = true -> columnsKept db2 = true).
Proof.
  intros Hu Hw Hcol.
  destruct (updateBalance_found accountID asset amount false db Hu Hw) as (Hok1 & Hbal1 & _).
  pose proof (walletsUnique_updateBalance accountID asset amount false db Hu) as Hu1.
  pose proof (proj2 (hasWallet_updateBalance accountID asset amount false accountID asset db) Hw)
    as Hw1.
  destruct (rest_updateBalance accountID asset amount false db) as (Ho1 & Ht1 & _).
  set (db1 := fst (updateBalance accountID asset amount false db)) in *.
  destruct (updateBalance_found accountID asset amount true db1 Hu1 Hw1) as (Hok2 & Hbal2 & _).
  destruct (rest_updateBalance accountID asset amount true db1) as (Ho2 & Ht2 & _).
  exists db1, (fst (updateBalance accountID asset amount true db1)).
  split; [apply injective_projections; [reflexivity|exact Hok1]|].
  split; [apply injective_projections; [reflexivity|exact Hok2]|].
  split; [|split; [congruence|split; [congruence|]]].
  - intros a s. rewrite (Hbal2 a s), (Hbal1 a s). unfold signedAmount.
    destruct (N.eqb a accountID && String.eqb s asset); ring.
  - intros Hc. cbn [writesAsIs] in Hcol.
    apply andb_true_iff in Hcol. destruct Hcol as [Hc1 Hc2].
    apply updateBalance_columnsKept; [exact Hc2|].
    apply updateBalance_columnsKept; [|exact Hc].
    cbn [writesAsIs]. rewrite Hc1. reflexivity.
Qed.

(** ** Settlement on the database *)

Lemma runUpdates_found (us : list BalanceUpdate) (db : DB) :
  walletsUnique db ->
  (forall a s amount isAdd, In (a, s, amount, isAdd) us -> hasWallet a s db) ->
  snd (runUpdates us db) = Ok tt
  /\ walletsUnique (fst (runUpdates us db))
  /\ (forall a s, (balanceOf a s (fst (runUpdates us db))
                   == balanceOf a s db + changeOf us a s)%Q)
  /\ (forall s, (totalOf s (fst (runUpdates us db))
                 == totalOf s db + totalChangeOf us s)%Q)
  /\ orders (fst (runUpdates us db)) = orders db
  /\ trades (fst (runUpdates us db)) = trades db.
Proof.
  revert db. induction us as [|[[[a0 s0] amount] isAdd] rest IH]; intros db Hu Hall.
  - cbn. split; [reflexivity|]. split; [exact Hu|].
    split; [intros; ring|]. split; [intros; ring|]. split; reflexivity.
  - cbn [runUpdates]. unfold bind.
    assert (Hw : hasWallet a0 s0 db) by (eapply Hall; left; reflexivity).
    destruct (updateBalance_found a0 s0 amount isAdd db Hu Hw) as (Hok & Hbal & Htot).
    pose proof (walletsUnique_updateBalance a0 s0 amount isAdd db Hu) as Hu1.
    destruct (rest_updateBalance a0 s0 amount isAdd db) as (Ho1 & Ht1 & _).
    destruct (updateBalance a0 s0 amount isAdd db) as [db1 r] eqn:E.
    cbn [fst snd] in *. subst r.
    destruct (IH db1 Hu1) as (Hok' & Hu' & Hbal' & Htot' & Ho' & Ht').
    { intros a s amt add Hin.
      pose proof (hasWallet_updateBalance a0 s0 amount isAdd a s db) as Hiff.
      rewrite E in Hiff. cbn [fst] in Hiff. apply Hiff. eapply Hall. right. exact Hin. }
    split; [exact Hok'|]. split; [exact Hu'|].
    split; [intros a s; rewrite Hbal', Hbal; cbn [changeOf]; ring|].
    split; [intros s; rewrite Htot', Htot; cbn [totalChangeOf]; ring|].
    split; congruence.
Qed.

Lemma runUpdates_missing (us : list BalanceUpdate) (db : DB) :
  walletsUnique db ->
  (exists a s amount isAdd, In (a, s, amount, isAdd) us /\ ~ hasWallet a s db) ->
  snd (runUpdates us db) = Err (errors_New "insufficient balance or wallet not found").
Proof.
  revert db. induction us as [|[[[a0 s0] amount] isAdd] rest IH]; intros db Hu Hex.
  - destruct Hex as (a & s & amt & add & [] & _).
  - cbn [runUpdates]. unfold bind.
    destruct (hasWallet_dec a0 s0 db) as [Hw|Hw].
    + destruct (updateBalance_found a0 s0 amount isAdd db Hu Hw) as (Hok & _).
      pose proof (walletsUnique_updateBalance a0 s0 amount isAdd db Hu) as Hu1.
      pose proof (fun a s => hasWallet_updateBalance a0 s0 amount isAdd a s db) as Hiff.
      destruct (updateBalance a0 s0 amount isAdd db) as [db1 r] eqn:E.
      cbn [fst snd] in *. subst r. apply IH; [exact Hu1|].
      destruct Hex as (a & s & amt & add & [Heq|Hin] & Hno).
      * injection Heq as -> -> -> ->. contradiction.
      * exists a, s, amt, add. split; [exact Hin|]. rewrite Hiff. exact Hno.
    + rewrite (updateBalance_missing a0 s0 amount isAdd db Hw). reflexivity.
Qed.

Lemma settle_runUpdates (taker maker : Order) (qty : Decimal) (base quote : string) (db : DB) :
  pairOf base quote (InstrumentPair taker) ->
  validSide taker ->
  settle (walletRepo := walletRepository) taker maker qty db
  = runUpdates (settlementUpdates taker maker qty base quote) db.
Proof.
  intros Hp Hs. unfold settle. rewrite (pairOf_Split _ _ _ Hp).
  unfold index. cbn [nth_error].
  unfold bind at 1, ret at 1. unfold bind at 1, ret at 1.
  rewrite (buyer_seller_code taker maker Hs).
  unfold settlementUpdates. cbn [runUpdates].
  cbn [SubtractFromBalance AddToBalance walletRepository].
  unfold walletRepository_SubtractFromBalance, walletRepository_AddToBalance.
  unfold bind.
  repeat match goal with
         | |- context [updateBalance ?a ?s ?q ?b ?x] =>
             destruct (updateBalance a s q b x) as [? [[]|?|]]; try reflexivity
         end.
Qed.

Lemma changeOf_settlement (taker maker : Order) (qty : Decimal) (base quote : string) a s :
  (changeOf (settlementUpdates taker maker qty base quote) a s
   == netChange taker maker qty base quote a s)%Q.
Proof.
  unfold settlementUpdates, netChange. cbn [changeOf]. unfold signedAmount. ring.
Qed.

Lemma totalChangeOf_settlement (taker maker : Order) (qty : Decimal) (base quote : string) s :
  (totalChangeOf (settlementUpdates taker maker qty base quote) s == 0)%Q.
Proof.
  unfold settlementUpdates. cbn [totalChangeOf]. unfold signedAmount.
  destruct (String.eqb s base), (String.eqb s quote); ring.
Qed.

(** X3. On the database, where every balance the four legs write is a
    number the [DECIMAL(20,8)] column keeps as it is, a settlement
    succeeds exactly when buyer and seller each have a wallet for the
    base and for the quote asset -- no balance is looked at.  When it
    succeeds, the seller's base balance is down by qty and the buyer's
    up by qty, the buyer's quote balance is down by maker price x qty
    and the seller's up by it, no other balance, order or trade has
    changed, and a table of balances that their column keeps is left as
    one. *)
Theorem settle_moves_the_funds
    (taker maker : Order) (qty : Decimal) (base quote : string) (db : DB) :
  walletsUnique db ->
  pairOf base quote (InstrumentPair taker) ->
  validSide taker ->
  writesAsIs (settlementUpdates taker maker qty base quote) db = true ->
  (partiesHaveWallets taker maker base quote db ->
     snd (settle (walletRepo := walletRepository) taker maker qty db) = Ok tt
     /\ (forall a s,
           (balanceOf a s (fst (settle (walletRepo := walletRepository) taker maker qty db))
            == balanceOf a s db + netChange taker maker qty base quote a s)%Q)
     /\ orders (fst (settle (walletRepo := walletRepository) taker maker qty db)) = orders db
     /\ trades (fst (settle (walletRepo := walletRepository) taker maker qty db)) = trades db
     /\ (columnsKept db = true ->
         columnsKept (fst (settle (walletRepo := walletRepository) taker maker qty db))
         = true))
  /\ (~ partiesHaveWallets taker maker base quote db ->
      snd (settle (walletRepo := walletRepository) taker maker qty db)
      = Err (errors_New "insufficient balance or wallet not found")).
Proof.
  intros Hu Hp Hs Hcol. rewrite (settle_runUpdates taker maker qty base quote db Hp Hs). split.
  - intros (H1 & H2 & H3 & H4).
    destruct (runUpdates_found (settlementUpdates taker maker qty base quote) db Hu)
      as (Hok & _ & Hbal & _ & Ho & Ht).
    { intros a s amt add Hin. unfold settlementUpdates in Hin. cbn in Hin.
      destruct Hin as [H|[H|[H|[H|[]]]]]; injection H as <- <- _ _; assumption. }
    split; [exact Hok|]. split; [|split; [assumption|split; [assumption|]]].
    + intros a s. rewrite Hbal, changeOf_settlement. reflexivity.
    + exact (runUpdates_columnsKept _ db Hcol).
  - intros Hno. apply runUpdates_missing; [exact Hu|].
    unfold partiesHaveWallets in Hno. unfold settlementUpdates.
    destruct (hasWallet_dec (AccountID (sellerOf taker maker)) base db) as [H1|H1].
    2:{ do 4 eexists. split; [left; reflexivity|exact H1]. }
    destruct (hasWallet_dec (AccountID (buyerOf taker maker)) base db) as [H2|H2].
    2:{ do 4 eexists. split; [right; left; reflexivity|exact H2]. }
    destruct (hasWallet_dec (AccountID (buyerOf taker maker)) quote db) as [H3|H3].
    2:{ do 4 eexists. split; [right; right; left; reflexivity|exact H3]. }
    destruct (hasWallet_dec (AccountID (sellerOf taker maker)) quote db) as [H4|H4].
    2:{ do 4 eexists. split; [right; right; right; left; reflexivity|exact H4]. }
    exfalso. apply Hno. repeat split; assumption.
Qed.

(** X4. Where every balance the four legs write is a number the
    [DECIMAL(20,8)] column keeps as it is, a settlement that succeeds
    creates and destroys nothing: the total held of every asset, over
    all wallets, is what it was, and a table of balances that their
    column keeps is left as one. *)
Theorem settle_conserves_every_asset
    (taker maker : Order) (qty : Decimal) (base quote : string) (db db' : DB) :
  walletsUnique db ->
  pairOf base quote (InstrumentPair taker) ->
  validSide taker ->
  writesAsIs (settlementUpdates taker maker qty base quote) db = true ->
  settle (walletRepo := walletRepository) taker maker qty db = (db', Ok tt) ->
  walletsUnique db'
  /\ (forall s, (totalOf s db' == totalOf s db)%Q)
  /\ (columnsKept db = true -> columnsKept db' = true).
Proof.
  intros Hu Hp Hs Hcol Hrun. rewrite (settle_runUpdates taker maker qty base quote db Hp Hs) in Hrun.
  assert (Hall : forall a s amount isAdd,
             In (a, s, amount, isAdd) (settlementUpdates taker maker qty base quote) ->
             hasWallet a s db).
  { intros a s amt add Hin. destruct (hasWallet_dec a s db) as [H|H]; [exact H|].
    exfalso.
    assert (Herr : snd (runUpdates (settlementUpdates taker maker qty base quote) db)
                   = Err (errors_New "insufficient balance or wallet not found"))
      by (apply runUpdates_missing; [exact Hu|]; exists a, s, amt, add; split; assumption).
    rewrite Hrun in Herr. discriminate. }
  destruct (runUpdates_found _ db Hu Hall) as (_ & Hu' & _ & Htot & _).
  pose proof (runUpdates_columnsKept _ db Hcol) as Hk.
  rewrite Hrun in Hu', Htot, Hk. cbn [fst] in Hu', Htot, Hk.
  split; [exact Hu'|]. split; [|exact Hk].
  intros s. rewrite Htot, totalChangeOf_settlement. ring.
Qed.

End ledger_effects.

Lemma exampleDB_unique : walletsUnique exampleDB.
Proof.
  unfold walletsUnique. apply (bool_decide_unpack _). vm_compute. exact I.
Qed.

Lemma exampleDB_wallet (a : N) (s : string) :
  In (a, s) [ (1%N, "BRL"%string); (1%N, "BTC"%string);
              (2%N, "BRL"%string); (2%N, "BTC"%string) ] ->
  hasWallet a s exampleDB.
Proof.
  intros H. unfold hasWallet, exampleDB. cbn [wallets].
  repeat destruct H as [H|H]; try contradiction; injection H as <- <-;
    first [ solve [eexists; split; [left; reflexivity|reflexivity]]
          | solve [eexists; split; [right; left; reflexivity|reflexivity]]
          | solve [eexists; split; [right; right; left; reflexivity|reflexivity]]
          | solve [eexists; split; [right; right; right; left; reflexivity|reflexivity]] ].
Qed.

(** The example of X1: crediting 0.5 BTC to account 1. *)
Lemma credit_example :
  snd (AddToBalance 1%N "BTC" (New 5 (-1)) exampleDB) = Ok tt
  /\ (balanceOf 1%N "BTC" (fst (AddToBalance 1%N "BTC" (New 5 (-1)) exampleDB))
      == balanceOf 1%N "BTC" exampleDB + toQ (New 5 (-1)))%Q
  /\ AddToBalance 9%N "BTC" (New 5 (-1)) exampleDB
     = (exampleDB, Err (errors_New "insufficient balance or wallet not found")).
Proof.
  destruct (credit_needs_only_the_wallet 1%N "BTC" (New 5 (-1)) exampleDB exampleDB_unique
              eq_refl) as [Hyes _].
  destruct (Hyes (exampleDB_wallet 1%N "BTC" ltac:(cbn; tauto))) as (Hok & Hbal & _).
  split; [exact Hok|]. split; [exact Hbal|]. reflexivity.
Defined.

(** The example of X2: 0.5 BTC out of and back into the wallet of
    account 2. *)
Lemma debit_then_credit_example :
  exists db1 db2,
    SubtractFromBalance 2%N "BTC" (New 5 (-1)) exampleDB = (db1, Ok tt)
    /\ AddToBalance 2%N "BTC" (New 5 (-1)) db1 = (db2, Ok tt)
    /\ (forall a s, (balanceOf a s db2 == balanceOf a s exampleDB)%Q).
Proof.
  destruct (debit_then_credit_restores 2%N "BTC" (New 5 (-1)) exampleDB exampleDB_unique
              (exampleDB_wallet 2%N "BTC" ltac:(cbn; tauto)) eq_refl)
    as (db1 & db2 & H1 & H2 & Hbal & _).
  exists db1, db2. split; [exact H1|]. split; [exact H2|exact Hbal].
Defined.

Lemma example_pair : pairOf "BTC" "BRL" (InstrumentPair exampleTaker).
Proof. split; [reflexivity|]. split; reflexivity. Qed.

Lemma example_parties : partiesHaveWallets exampleTaker exampleMaker "BTC" "BRL" exampleDB.
Proof.
  repeat split; apply exampleDB_wallet; cbn; tauto.
Qed.

(** The example of X3: 0.5 BTC from account 2 to account 1 against
    99500 BRL. *)
Lemma settle_example :
  snd (settle (walletRepo := walletRepository) exampleTaker exampleMaker (New 5 (-1)) exampleDB)
  = Ok tt
  /\ (netChange exampleTaker exampleMaker (New 5 (-1)) "BTC" "BRL" 2%N "BTC" == - (1 # 2))%Q
  /\ (netChange exampleTaker exampleMaker (New 5 (-1)) "BTC" "BRL" 1%N "BRL" == - (99500 # 1))%Q
  /\ (balanceOf 1%N "BRL"
        (fst (settle (walletRepo := walletRepository) exampleTaker exampleMaker
                (New 5 (-1)) exampleDB))
      == balanceOf 1%N "BRL" exampleDB
         + netChange exampleTaker exampleMaker (New 5 (-1)) "BTC" "BRL" 1%N "BRL")%Q.
Proof.
  destruct (settle_moves_the_funds exampleTaker exampleMaker (New 5 (-1)) "BTC" "BRL" exampleDB
              exampleDB_unique example_pair (or_introl eq_refl) eq_refl) as [Hyes _].
  destruct (Hyes example_parties) as (Hok & Hbal & _).
  split; [exact Hok|]. split; [reflexivity|]. split; [reflexivity|]. apply Hbal.
Defined.

(** The example of X4. *)
Lemma settle_conserves_example :
  (totalOf "BTC" (fst (settle (walletRepo := walletRepository) exampleTaker exampleMaker
                         (New 5 (-1)) exampleDB))
   == totalOf "BTC" exampleDB)%Q
  /\ (totalOf "BRL" (fst (settle (walletRepo := walletRepository) exampleTaker exampleMaker
                            (New 5 (-1)) exampleDB))
      == totalOf "BRL" exampleDB)%Q.
Proof.
  assert (Hrun : settle (walletRepo := walletRepository) exampleTaker exampleMaker
                   (New 5 (-1)) exampleDB
                 = (fst (settle (walletRepo := walletRepository) exampleTaker exampleMaker
                           (New 5 (-1)) exampleDB), Ok tt))
    by (apply injective_projections; reflexivity).
  destruct (settle_conserves_every_asset exampleTaker exampleMaker (New 5 (-1)) "BTC" "BRL"
              exampleDB _ exampleDB_unique example_pair (or_introl eq_refl) eq_refl Hrun)
    as (_ & Htot & _).
  split; apply Htot.
Defined.

(* ===================================================================== *)
(** * Cancelling an order *)
(* ===================================================================== *)

Section cancel.
Context (now : Timestamp).

Local Abbreviation CancelOrderDB :=
  (CancelOrder (orderRepositoryRest := orderRepositoryRest now)).

Lemma find_open_none (id : UUID) (os : list Order) :
  (forall o, In o os -> ID o = id -> Status o <> OrderStatusOpen) ->
  List.find (fun o => N.eqb (ID o) id && existsb (String.eqb (Status o)) [OrderStatusOpen]) os
  = None.
Proof.
  intros H. induction os as [|o r IH]; [reflexivity|].
  cbn [List.find existsb].
  destruct (N.eqb_spec (ID o) id) as [He|Hne]; cbn [andb].
  - destruct (String.eqb_spec (Status o) OrderStatusOpen) as [Hs|Hs]; cbn [orb].
    + exfalso. exact (H o (or_introl eq_refl) He Hs).
    + apply IH. intros o' Hin. apply H. right. exact Hin.
  - apply IH. intros o' Hin. apply H. right. exact Hin.
Qed.

Lemma find_open_some (id : UUID) (os : list Order) (o : Order) :
  In o os -> ID o = id -> Status o = OrderStatusOpen ->
  exists o',
    List.find (fun o => N.eqb (ID o) id && existsb (String.eqb (Status o)) [OrderStatusOpen]) os
    = Some o'.
Proof.
  intros Hin Hid Hst.
  destruct (List.find _ os) as [o'|] eqn:E; [eauto|].
  exfalso. apply (List.find_none _ _ E) in Hin. cbn [existsb] in Hin.
  rewrite Hid, N.eqb_refl, Hst in Hin. discriminate.
Qed.

Lemma CancelOrder_nothing_open (id : UUID) (db : DB) :
  (forall o, In o (orders db) -> ID o = id -> Status o <> OrderStatusOpen) ->
  CancelOrderDB id db = (db, Ok tt).
Proof.
  intros H. unfold CancelOrder, bind.
  cbn [GetByID orderRepositoryRest]. unfold orderRepository_GetByID.
  rewrite (find_open_none id (orders db) H). reflexivity.
Qed.

(** X5. Cancelling an id under which no order is OPEN -- no such order,
    or one that is PARTIALLY_FILLED, FILLED or already CANCELLED -- is
    not an error and changes nothing. *)
Theorem cancel_without_open_order (id : UUID) (db : DB) :
  (forall o, In o (orders db) -> ID o = id -> Status o <> OrderStatusOpen) ->
  CancelOrderDB id db = (db, Ok tt)
  /\ (forall o, In o (orders db) -> ID o = id ->
        Status o = OrderStatusPartial -> In o (orders (fst (CancelOrderDB id db)))).
Proof.
  intros H. rewrite (CancelOrder_nothing_open id db H).
  split; [reflexivity|]. intros o Hin _ _. exact Hin.
Qed.

Lemma cancelledRow_other (id : UUID) (os : list Order) (o : Order) :
  NoDup (List.map ID os) -> In o os -> ID o = id ->
  forall o', In o' os -> o' <> o -> cancelledRow id o' = o'.
Proof.
  intros Hnd Hin Hid o' Hin' Hne. unfold cancelledRow.
  destruct (N.eqb_spec (ID o') id) as [He|]; [|reflexivity].
  exfalso. apply Hne. revert Hnd Hin Hin'. clear -Hid He.
  induction os as [|x r IH]; intros Hnd Hin Hin'; [destruct Hin|].
  cbn [List.map] in Hnd. apply NoDup_cons in Hnd. destruct Hnd as [Hx Hnd].
  destruct Hin as [->|Hin], Hin' as [->|Hin'].
  - reflexivity.
  - exfalso. apply Hx. rewrite Hid, <- He. apply list_elem_of_In, in_map. exact Hin'.
  - exfalso. apply Hx. rewrite He, <- Hid. apply list_elem_of_In, in_map. exact Hin.
  - apply IH; assumption.
Qed.

(** X6. Cancelling the id of an OPEN order succeeds and sets that order
    to CANCELLED, leaving every other order, every wallet and every trade
    as it was; from then on no matching query and no open-orders query
    returns the order, and cancelling it again changes nothing. *)
Theorem cancel_open_order (id : UUID) (db : DB) (o : Order) :
  ordersUnique db ->
  In o (orders db) -> ID o = id -> Status o = OrderStatusOpen ->
  exists db',
    CancelOrderDB id db = (db', Ok tt)
    /\ orders db' = List.map (cancelledRow id) (orders db)
    /\ In (withStatus o OrderStatusCancelled) (orders db')
    /\ (forall o', In o' (orders db) -> o' <> o -> In o' (orders db'))
    /\ length (orders db') = length (orders db)
    /\ wallets db' = wallets db /\ trades db' = trades db
    /\ (forall accountID pair orderType price isBuyOrder makers m,
          snd (GetMatchingOrders accountID pair orderType price isBuyOrder db') = Ok makers ->
          In m makers -> ID m <> id)
    /\ (forall pair open m,
          snd (GetOpenOrdersByInstrumentPair pair db') = Ok open ->
          In m open -> ID m <> id)
    /\ CancelOrderDB id db' = (db', Ok tt).
Proof.
  intros Hu Hin Hid Hst.
  destruct (find_open_some id (orders db) o Hin Hid Hst) as (o1 & Hfind).
  set (db' := withOrders db (List.map (cancelledRow id) (orders db))).
  assert (Hrows : forall m, In m (orders db') -> ID m = id -> Status m = OrderStatusCancelled).
  { intros m Hm Hmid. unfold db' in Hm. cbn [orders withOrders] in Hm.
    apply in_map_iff in Hm. destruct Hm as (m0 & <- & _). unfold cancelledRow in *.
    destruct (N.eqb_spec (ID m0) id); [reflexivity|contradiction]. }
  exists db'. split.
  { unfold CancelOrder, bind. cbn [GetByID orderRepositoryRest]. unfold orderRepository_GetByID.
    rewrite Hfind. reflexivity. }
  split; [reflexivity|]. split.
  { unfold db'. cbn [orders withOrders]. apply in_map_iff. exists o. split; [|exact Hin].
    unfold cancelledRow. rewrite Hid, N.eqb_refl. reflexivity. }
  split.
  { intros o' Hin' Hne. unfold db'. cbn [orders withOrders]. apply in_map_iff.
    exists o'. split; [|exact Hin'].
    exact (cancelledRow_other id (orders db) o Hu Hin Hid o' Hin' Hne). }
  split; [unfold db'; cbn [orders withOrders]; apply length_map|].
  split; [reflexivity|]. split; [reflexivity|]. split; [|split].
  - intros accountID pair orderType price isBuyOrder makers m Hq Hm Hmid.
    cbn [GetMatchingOrders orderRepository] in Hq.
    unfold orderRepository_GetMatchingOrders in Hq. cbn [snd] in Hq. injection Hq as <-.
    apply list_elem_of_In in Hm. rewrite merge_sort_Permutation in Hm.
    apply list_elem_of_In, filter_In in Hm. destruct Hm as [Hm Hrow].
    apply matchingRow_iff in Hrow. destruct Hrow as (_ & _ & Hs & _).
    rewrite (Hrows m Hm Hmid) in Hs. destruct Hs; discriminate.
  - intros pair open m Hq Hm Hmid.
    cbn [GetOpenOrdersByInstrumentPair orderRepository] in Hq.
    unfold orderRepository_GetOpenOrdersByInstrumentPair in Hq. cbn [snd] in Hq.
    injection Hq as <-. apply filter_In in Hm. destruct Hm as [Hm Hrow].
    apply andb_true_iff in Hrow. destruct Hrow as [_ Hs]. apply String.eqb_eq in Hs.
    rewrite (Hrows m Hm Hmid) in Hs. discriminate.
  - apply CancelOrder_nothing_open. intros m Hm Hmid Hs.
    rewrite (Hrows m Hm Hmid) in Hs. discriminate.
Qed.

End cancel.

(** The example of X5: the partially filled order cannot be cancelled. *)
Lemma cancel_partially_filled_example :
  Status partialOrder = OrderStatusPartial
  /\ CancelOrder (orderRepositoryRest := orderRepositoryRest 0) (ID partialOrder) partialAndOpenDB
     = (partialAndOpenDB, Ok tt).
Proof.
  split; [reflexivity|].
  apply (cancel_without_open_order 0).
  intros o Hin Hid. cbn in Hin. destruct Hin as [<-|[<-|[]]]; [discriminate|discriminate].
Defined.

(** The example of X6: the open order beside it is cancelled. *)
Lemma cancel_open_example :
  exists db',
    CancelOrder (orderRepositoryRest := orderRepositoryRest 0) (ID openOrder) partialAndOpenDB
    = (db', Ok tt)
    /\ List.map Status (orders db') = [ OrderStatusPartial; OrderStatusCancelled ].
Proof.
  assert (Hu : ordersUnique partialAndOpenDB).
  { unfold ordersUnique. apply (bool_decide_unpack _). vm_compute. exact I. }
  destruct (cancel_open_order 0 (ID openOrder) partialAndOpenDB openOrder Hu
              ltac:(cbn; tauto) eq_refl eq_refl) as (db' & Hrun & Hrows & _).
  exists db'. split; [exact Hrun|]. rewrite Hrows. reflexivity.
Defined.

(* ===================================================================== *)
(** * The balance check *)
(* ===================================================================== *)

Section balance_check.

Lemma find_filter {A} (f : A -> bool) (l : list A) :
  List.find f l = match List.filter f l with [] => None | x :: _ => Some x end.
Proof.
  induction l as [|x r IH]; [reflexivity|].
  cbn [List.find List.filter]. destruct (f x); [reflexivity|exact IH].
Qed.

Lemma balanceOf_found (accountID : UUID) (asset : string) (db : DB) (w : Wallet) :
  walletsUnique db ->
  List.find (walletRow accountID asset) (wallets db) = Some w ->
  (balanceOf accountID asset db == toQ (Balance w))%Q.
Proof.
  intros Hu Hf. rewrite find_filter in Hf. unfold balanceOf.
  pose proof (unique_hit accountID asset (wallets db) Hu) as Hle.
  destruct (List.filter (walletRow accountID asset) (wallets db)) as [|x [|y r]];
    [discriminate| |cbn in Hle; lia].
  injection Hf as ->. cbn. ring.
Qed.

Lemma find_none_hasWallet (accountID : UUID) (asset : string) (db : DB) :
  List.find (walletRow accountID asset) (wallets db) = None <-> ~ hasWallet accountID asset db.
Proof.
  rewrite find_filter, hasWallet_filter.
  destruct (List.filter (walletRow accountID asset) (wallets db)); split; intros H;
    try discriminate; try tauto.
  exfalso. apply H. discriminate.
Qed.


End balance_check.


(* ===================================================================== *)
(** * Placing an order on the database *)
(* ===================================================================== *)

Section create_db.
Context (now : Timestamp).

Local Abbreviation ExecuteDB :=
  (tradeExecutor_Execute (orderRepo := orderRepository)
     (walletRepo := walletRepository) (tradeRepo := tradeRepository)).
Local Abbreviation executorDB :=
  (tradeExecutor (orderRepo := orderRepository)
     (walletRepo := walletRepository) (tradeRepo := tradeRepository)).
Local Abbreviation matchLoopDB := (matchLoop (executor := executorDB)).
Local Abbreviation matchOrderDB :=
  (matchOrder (orderRepository := orderRepository) (executor := executorDB)).
Local Abbreviation placeOrderDB :=
  (placeOrder (orderRepository := orderRepository)
     (orderRepositoryRest := orderRepositoryRest now)
     (walletRepository := walletRepository) (executor := executorDB)).
Local Abbreviation CreateOrderDB :=
  (CreateOrder (orderRepository := orderRepository)
     (orderRepositoryRest := orderRepositoryRest now)
     (walletRepository := walletRepository) (executor := executorDB)).

Lemma settle_DB_no_panic (taker maker : Order) (qty : Decimal) (db : DB) :
  IsValidInstrumentPair (InstrumentPair taker) = true ->
  snd (settle (walletRepo := walletRepository) taker maker qty db) <> Panic.
Proof.
  intros Hv. apply IsValidInstrumentPair_iff in Hv.
  destruct Hv as (base & quote & Hp & _ & _).
  unfold settle. rewrite (pairOf_Split _ _ _ Hp).
  unfold index. cbn [nth_error].
  unfold bind at 1, ret at 1. unfold bind at 1, ret at 1.
  destruct (String.eqb (OrderType taker) "SELL");
    repeat (apply bind_no_panic; [intros; apply updateBalance_no_panic|intros]);
    apply updateBalance_no_panic.
Qed.

Lemma Execute_DB_no_panic (taker maker : Order) (qty : Decimal) (db : DB) :
  IsValidInstrumentPair (InstrumentPair taker) = true ->
  snd (ExecuteDB taker maker qty db) <> Panic.
Proof.
  intros Hv. unfold tradeExecutor_Execute.
  destruct (String.eqb (OrderType taker) "SELL").
  all: unfold bind at 1; cbn [Create tradeRepository];
    destruct (tradeRepository_Create _ db) as [db1 r1] eqn:E1;
    assert (exists t, r1 = Ok t) as [t ->]
      by (unfold tradeRepository_Create in E1;
          destruct (N.eqb _ 0) in E1; injection E1 as _ <-; eauto);
    unfold updateOrderStatus, bind;
    cbn [UpdateRemainingAndStatus orderRepository];
    unfold orderRepository_UpdateRemainingAndStatus, ret;
    match goal with
    | |- context [settle ?o ?m ?q ?d] =>
        pose proof (settle_DB_no_panic o m q d Hv) as Hn;
        destruct (settle o m q d) as [d' [[]|e|]]
    end; cbn [snd] in *; congruence.
Qed.

Lemma matchLoop_DB_no_panic (makers : list Order) (taker : Order) (db : DB) :
  IsValidInstrumentPair (InstrumentPair taker) = true ->
  snd (matchLoopDB taker makers db) <> Panic.
Proof.
  revert taker db. induction makers as [|m ms IH]; intros taker db Hv.
  - cbn. discriminate.
  - cbn [matchLoop]. unfold bind. cbn [Execute tradeExecutor].
    pose proof (Execute_DB_no_panic taker m
                  (Min (RemainingQuantity taker) (RemainingQuantity m)) db Hv) as Hn.
    destruct (ExecuteDB taker m (Min (RemainingQuantity taker) (RemainingQuantity m)) db)
      as [db1 [[t m']|e|]] eqn:Ex; cbn [snd] in *; [|discriminate|contradiction].
    destruct (Execute_Ok _ _ _ _ _ _ _ Ex) as [-> _]. cbn [fst].
    destruct (IsZero _); [cbn; discriminate|].
    apply IH. exact Hv.
Qed.

(** X9. On the database no step of a placement can panic once the order
    has passed validation: the pair that validation accepted is the one
    the balance check and every settlement split.  So [CreateOrder]
    either fails and leaves the database as it was, or succeeds and
    hands back the order; it never takes the way out of the recovered
    panic. *)
Theorem CreateOrder_on_the_database (order : Order) (db : DB) :
  (exists e, CreateOrderDB order db = (db, Err e))
  \/ (exists db' o, CreateOrderDB order db = (db', Ok (Some o))
                    /\ placeOrderDB order db = (db', Ok o)
                    /\ Validate order = None).
Proof.
  unfold CreateOrder. destruct (Validate order) as [err|] eqn:Ev; [left; eauto|].
  assert (Hv : IsValidInstrumentPair (InstrumentPair order) = true).
  { unfold Validate in Ev.
    repeat match type of Ev with
           | (if ?c then _ else _) = _ => destruct c eqn:?; [discriminate|]
           end.
    destruct (IsValidInstrumentPair (InstrumentPair order)); [reflexivity|discriminate]. }
  destruct (placeOrderDB order db) as [tx [o|e|]] eqn:Ep.
  - right. exists tx, o. repeat split.
  - left. eauto.
  - exfalso. unfold placeOrder, bind in Ep.
    unfold checkWalletBalance in Ep.
    destruct (GetRequiredAssetAndAmount order) as [[asset amount]|] eqn:Er.
    2:{ unfold GetRequiredAssetAndAmount in Er.
        apply IsValidInstrumentPair_iff in Hv. destruct Hv as (b & q & Hp & _).
        rewrite (pairOf_Split _ _ _ Hp) in Er.
        destruct (String.eqb _ _) in Er; discriminate. }
    unfold bind in Ep. cbn [GetByAccountAndAsset walletRepository] in Ep.
    unfold walletRepository_GetByAccountAndAsset in Ep.
    destruct (List.find _ (wallets db)) as [w|]; [|discriminate].
    destruct (LessThan (Balance w) amount); [discriminate|].
    cbn [ret order_Create orderRepositoryRest] in Ep.
    destruct (orderRepository_Create now _ db) as [db1 r1] eqn:Ec.
    unfold orderRepository_Create in Ec.
    destruct (N.eqb _ 0) in Ec; injection Ec as <- <-.
    all: unfold matchOrder, bind in Ep;
      cbn [GetMatchingOrders orderRepository] in Ep;
      unfold orderRepository_GetMatchingOrders in Ep;
      match type of Ep with
      | context [(length ?l =? 0)%nat] => destruct l as [|m ms] eqn:El
      end; cbn [length Nat.eqb] in Ep; [discriminate|];
      match type of Ep with
      | matchLoop ?t ?l ?d = _ =>
          pose proof (matchLoop_DB_no_panic l t d Hv) as Hn; rewrite Ep in Hn
      end; apply Hn; reflexivity.
Qed.

Lemma checkWalletBalance_DB_state (order : Order) (db : DB) :
  fst (checkWalletBalance order db) = db.
Proof.
  unfold checkWalletBalance.
  destruct (GetRequiredAssetAndAmount order) as [[asset amount]|]; [|reflexivity].
  unfold bind. cbn [GetByAccountAndAsset walletRepository].
  unfold walletRepository_GetByAccountAndAsset.
  destruct (List.find _ (wallets db)) as [w|]; [|reflexivity].
  destruct (LessThan (Balance w) amount); reflexivity.
Qed.

Lemma filter_all_false {A} (f : A -> bool) (l : list A) :
  (forall x, In x l -> f x = false) -> List.filter f l = [].
Proof.
  induction l as [|x r IH]; intros H; [reflexivity|].
  cbn [List.filter]. rewrite (H x (or_introl eq_refl)). apply IH.
  intros y Hy. apply H. right. exact Hy.
Qed.


End create_db.


(* ===================================================================== *)
(** * Matching on the database: the trades that are made *)
(* ===================================================================== *)

Section matching_db.

Local Abbreviation ExecuteDB :=
  (tradeExecutor_Execute (orderRepo := orderRepository)
     (walletRepo := walletRepository) (tradeRepo := tradeRepository)).
Local Abbreviation executorDB :=
  (tradeExecutor (orderRepo := orderRepository)
     (walletRepo := walletRepository) (tradeRepo := tradeRepository)).
Local Abbreviation matchLoopDB := (matchLoop (executor := executorDB)).
Local Abbreviation matchOrderDB :=
  (matchOrder (orderRepository := orderRepository) (executor := executorDB)).

Lemma bind_sameBook {A B} (c : M DB A) (k : A -> M DB B) :
  (forall s, sameBook s (fst (c s))) ->
  (forall a s, sameBook s (fst (k a s))) ->
  forall s, sameBook s (fst (bind c k s)).
Proof.
  intros Hc Hk s. unfold bind. specialize (Hc s).
  destruct (c s) as [s1 [a|e|]]; cbn [fst] in *; try exact Hc.
  specialize (Hk a s1). unfold sameBook in *. destruct Hc, Hk. split; congruence.
Qed.

Lemma updateBalance_sameBook accountID asset amount isAdd (db : DB) :
  sameBook db (fst (updateBalance accountID asset amount isAdd db)).
Proof.
  destruct (rest_updateBalance accountID asset amount isAdd db) as (Ho & Ht & _).
  split; assumption.
Qed.

(** Settlement touches the wallets only. *)
Lemma settle_sameBook (taker maker : Order) (qty : Decimal) (db : DB) :
  sameBook db (fst (settle (walletRepo := walletRepository) taker maker qty db)).
Proof.
  unfold settle.
  apply bind_sameBook; [intros s; unfold index; destruct (nth_error _ 0); split; reflexivity|].
  intros base s. apply bind_sameBook;
    [intros s'; unfold index; destruct (nth_error _ 1); split; reflexivity|].
  intros quote s'.
  destruct (String.eqb (OrderType taker) "SELL");
    repeat (apply bind_sameBook; [intros; apply updateBalance_sameBook|intros]);
    apply updateBalance_sameBook.
Qed.

(** One execution adds one trade, at the maker's price, and changes no
    trade that was there. *)
Lemma Execute_DB_trades (taker maker : Order) (qty : Decimal) (db : DB) :
  validSide taker ->
  exists t,
    trades (fst (ExecuteDB taker maker qty db)) = trades db ++ [t]
    /\ tradeBetween taker t maker /\ tQuantity t = qty.
Proof.
  intros Hs. unfold tradeExecutor_Execute.
  replace (if String.eqb (OrderType taker) "SELL"
           then (ID maker, ID taker) else (ID taker, ID maker))
    with (ID (buyerOf taker maker), ID (sellerOf taker maker))
    by (unfold buyerOf, sellerOf; destruct Hs as [-> | ->]; reflexivity).
  unfold bind at 1. cbn [Create tradeRepository]. unfold tradeRepository_Create.
  cbn [tID N.eqb BuyerOrderID SellerOrderID tPrice tQuantity].
  unfold updateOrderStatus, bind. cbn [UpdateRemainingAndStatus orderRepository].
  unfold orderRepository_UpdateRemainingAndStatus, ret.
  match goal with
  | |- context [settle ?o ?m ?q ?d] =>
      destruct (settle_sameBook o m q d) as [Ht _];
      destruct (settle o m q d) as [d' [[]|e|]]
  end; cbn [fst snd trades withOrders orders] in *.
  all: eexists; split; [rewrite Ht; reflexivity|]; split; [|reflexivity].
  all: repeat split.
Qed.

Lemma tradeBetween_afterFill (taker : Order) (qty : Decimal) (t : Trade) (m : Order) :
  tradeBetween (afterFill taker qty) t m <-> tradeBetween taker t m.
Proof.
  unfold tradeBetween, buyerOf, sellerOf.
  change (OrderType (afterFill taker qty)) with (OrderType taker).
  destruct (String.eqb (OrderType taker) OrderTypeBuy); reflexivity.
Qed.

Lemma validSide_afterFill (taker : Order) (qty : Decimal) :
  validSide (afterFill taker qty) <-> validSide taker.
Proof. reflexivity. Qed.

(** The loop makes one trade per maker it reaches, in their order. *)
Lemma matchLoop_DB_trades (makers : list Order) (taker : Order) (db : DB) :
  validSide taker ->
  exists used rest ts,
    makers = used ++ rest
    /\ trades (fst (matchLoopDB taker makers db)) = trades db ++ ts
    /\ Forall2 (tradeBetween taker) ts used.
Proof.
  revert taker db. induction makers as [|m ms IH]; intros taker db Hs.
  - exists [], [], []. cbn. rewrite app_nil_r. repeat split. constructor.
  - cbn [matchLoop]. unfold bind. cbn [Execute tradeExecutor].
    set (qty := Min (RemainingQuantity taker) (RemainingQuantity m)).
    destruct (Execute_DB_trades taker m qty db Hs) as (t & Ht & Hb & _).
    destruct (ExecuteDB taker m qty db) as [db1 [[t' m']|e|]] eqn:Ex; cbn [fst snd] in *.
    + destruct (Execute_Ok _ _ _ _ _ _ _ Ex) as [-> _].
      destruct (IsZero (RemainingQuantity (afterFill taker qty))).
      * exists [m], ms, [t]. cbn [fst ret]. split; [reflexivity|]. split; [exact Ht|].
        constructor; [exact Hb|constructor].
      * destruct (IH (afterFill taker qty) db1 Hs) as (used & rest & ts & -> & Hts & Hall).
        exists (m :: used), rest, (t :: ts). split; [reflexivity|].
        split; [rewrite Hts, Ht, <- app_assoc; reflexivity|].
        constructor; [exact Hb|].
        eapply Forall2_impl; [exact Hall|]. intros x y. apply tradeBetween_afterFill.
    + exists [m], ms, [t]. split; [reflexivity|]. split; [exact Ht|].
      constructor; [exact Hb|constructor].
    + exists [m], ms, [t]. split; [reflexivity|]. split; [exact Ht|].
      constructor; [exact Hb|constructor].
Qed.

Lemma eligibleFor_iff (taker m : Order) :
  matchingRow (AccountID taker) (InstrumentPair taker) (oppositeOrderType taker)
              (Price taker) (takerBuys taker) m = true
  <-> eligibleFor taker m.
Proof.
  rewrite matchingRow_iff. unfold eligibleFor. tauto.
Qed.

(** X11. Whatever its outcome, matching an order adds trades after the
    trades already recorded and changes none of them.  Each new trade is
    between the taker and one order of the book that is eligible for it
    -- another account's, never the taker's own, on the same pair and
    the opposite side, OPEN or PARTIALLY_FILLED, priced within the
    taker's limit -- and is made at that order's price; no order of the
    book is traded twice. *)
Theorem matching_trades_with_eligible_makers (taker : Order) (db : DB) :
  validSide taker ->
  exists (used rest : list Order) (ts : list Trade),
    trades (fst (matchOrderDB taker db)) = trades db ++ ts
    /\ Forall2 (tradeBetween taker) ts used
    /\ used ++ rest ≡ₚ
       List.filter (matchingRow (AccountID taker) (InstrumentPair taker)
                      (oppositeOrderType taker) (Price taker) (takerBuys taker))
                   (orders db)
    /\ (forall m, In m used ->
          In m (orders db) /\ eligibleFor taker m
          /\ AccountID m <> AccountID taker
          /\ (OrderType taker = OrderTypeBuy -> (toQ (Price m) <= toQ (Price taker))%Q)
          /\ (OrderType taker = OrderTypeSell -> (toQ (Price taker) <= toQ (Price m))%Q)).
Proof.
  intros Hs. unfold matchOrder, bind.
  cbn [GetMatchingOrders orderRepository]. unfold orderRepository_GetMatchingOrders.
  fold (oppositeOrderType taker). fold (takerBuys taker).
  set (row := matchingRow (AccountID taker) (InstrumentPair taker)
                (oppositeOrderType taker) (Price taker) (takerBuys taker)).
  set (makers := merge_sort (comesBefore (takerBuys taker)) (List.filter row (orders db))).
  assert (Hperm : makers ≡ₚ List.filter row (orders db)) by apply merge_sort_Permutation.
  assert (Hres : exists used rest ts,
             makers = used ++ rest
             /\ trades (fst ((if (length makers =? 0)%nat then ret taker
                              else matchLoopDB taker makers) db)) = trades db ++ ts
             /\ Forall2 (tradeBetween taker) ts used).
  { destruct makers as [|m ms] eqn:Em.
    - exists [], [], []. cbn. rewrite app_nil_r. repeat split. constructor.
    - cbn [length Nat.eqb]. apply matchLoop_DB_trades. exact Hs. }
  destruct Hres as (used & rest & ts & Hsplit & Hts & Hall).
  exists used, rest, ts. split; [exact Hts|]. split; [exact Hall|].
  split; [rewrite <- Hsplit; exact Hperm|].
  intros m Hm.
  assert (Hin : In m (List.filter row (orders db))).
  { apply list_elem_of_In. rewrite <- Hperm, Hsplit. apply list_elem_of_In.
    apply in_or_app. left. exact Hm. }
  apply filter_In in Hin. destruct Hin as [Hin Hrow].
  apply eligibleFor_iff in Hrow. split; [exact Hin|]. split; [exact Hrow|].
  destruct Hrow as (_ & _ & Ha & _ & Hp). split; [exact Ha|].
  unfold takerBuys in Hp. split.
  - intros Hb. rewrite Hb in Hp. exact Hp.
  - intros Hsell. rewrite Hsell in Hp. exact Hp.
Qed.

End matching_db.

(** The example of X11: the buyer of 0.5 at 200000 against the book
    holding the offer of 0.8 at 199000 from another account. *)
Lemma matching_trades_example :
  validSide exampleTaker
  /\ exists (used rest : list Order) (ts : list Trade),
       trades (fst (matchOrder (orderRepository := orderRepository)
                      (executor := tradeExecutor (orderRepo := orderRepository)
                                     (walletRepo := walletRepository)
                                     (tradeRepo := tradeRepository))
                      exampleTaker exampleDB))
       = trades exampleDB ++ ts
       /\ Forall2 (tradeBetween exampleTaker) ts used
       /\ used ++ rest ≡ₚ
          List.filter (matchingRow (AccountID exampleTaker) (InstrumentPair exampleTaker)
                         (oppositeOrderType exampleTaker) (Price exampleTaker)
                         (takerBuys exampleTaker))
                      (orders exampleDB)
       /\ (forall m, In m used ->
             In m (orders exampleDB) /\ eligibleFor exampleTaker m
             /\ AccountID m <> AccountID exampleTaker
             /\ (OrderType exampleTaker = OrderTypeBuy ->
                 (toQ (Price m) <= toQ (Price exampleTaker))%Q)
             /\ (OrderType exampleTaker = OrderTypeSell ->
                 (toQ (Price exampleTaker) <= toQ (Price m))%Q)).
Proof.
  split; [left; reflexivity|].
  apply (matching_trades_with_eligible_makers exampleTaker exampleDB).
  left; reflexivity.
Defined.

(* ===================================================================== *)
(** * The matching loop over the trade executor: the quantities *)
(* ===================================================================== *)

Section matching_quantities.
Context {S : Type}.
Context (O : OrderRepository S) (W : WalletRepository S) (T : TradeRepository S).

Local Abbreviation executorRec :=
  (recordingExecutor (tradeExecutor (orderRepo := O) (walletRepo := W) (tradeRepo := T))).
Local Abbreviation matchLoopRec := (matchLoop (executor := executorRec)).

Lemma Remaining_afterFill (o : Order) (qty : Decimal) :
  RemainingQuantity (afterFill o qty) = Sub (RemainingQuantity o) qty.
Proof. reflexivity. Qed.

(** The quantity of one step: never more than either side has left, and
    all of the maker's when the taker is left with something. *)
Lemma Min_step (rt rm : Decimal) :
  (0 <= toQ rt)%Q -> (0 <= toQ rm)%Q ->
  (0 <= toQ (Min rt rm) <= toQ rm)%Q
  /\ (0 <= toQ (Sub rt (Min rt rm)))%Q
  /\ (IsZero (Sub rt (Min rt rm)) = false -> (toQ (Min rt rm) == toQ rm)%Q).
Proof.
  intros Ht Hm. destruct (Min_spec rt rm) as (Hcase & Hle1 & Hle2).
  split; [split; [destruct Hcase as [-> | ->]; assumption|exact Hle2]|].
  split; [rewrite Sub_toQ; lra|].
  intros Hz. destruct Hcase as [He | He]; [|rewrite He; reflexivity].
  exfalso. assert (IsZero (Sub rt (Min rt rm)) = true) as Hz'.
  { apply IsZero_toQ. rewrite Sub_toQ, He. lra. }
  congruence.
Qed.

Lemma matchLoop_quantities (makers : list Order) (taker taker' : Order)
    (s : S) (log : list Call) :
  (0 <= toQ (RemainingQuantity taker))%Q ->
  Forall (fun m => (0 <= toQ (RemainingQuantity m))%Q) makers ->
  snd (matchLoopRec taker makers (s, log)) = Ok taker' ->
  exists calls,
    snd (fst (matchLoopRec taker makers (s, log))) = log ++ calls
    /\ Forall (fun c => (0 <= toQ (callQty c) <= toQ (RemainingQuantity (callMaker c)))%Q)
              calls
    /\ (sumCalls calls
        == toQ (RemainingQuantity taker) - toQ (RemainingQuantity taker'))%Q
    /\ (0 <= toQ (RemainingQuantity taker'))%Q
    /\ Quantity taker' = Quantity taker
    /\ (IsZero (RemainingQuantity taker') = false ->
        List.map callMaker calls = makers
        /\ Forall (fun c => (toQ (callQty c) == toQ (RemainingQuantity (callMaker c)))%Q)
                  calls).
Proof.
  revert taker s log. induction makers as [|m ms IH]; intros taker s log Ht Hms Hrun.
  - cbn in Hrun. injection Hrun as <-. exists []. cbn. rewrite app_nil_r.
    split; [reflexivity|]. split; [constructor|]. split; [lra|].
    split; [exact Ht|]. split; [reflexivity|]. intros _. split; [reflexivity|constructor].
  - inversion Hms as [|? ? Hm Hms']; subst.
    cbn [matchLoop] in Hrun |- *. unfold bind in Hrun |- *.
    cbn [Execute recordingExecutor tradeExecutor fst snd] in Hrun |- *.
    set (qty := Min (RemainingQuantity taker) (RemainingQuantity m)) in *.
    destruct (Min_step _ _ Ht Hm) as (Hq & Hr & Hall). fold qty in Hq, Hr, Hall.
    destruct (tradeExecutor_Execute taker m qty s) as [s1 [[t1 m1]|e|]] eqn:Ex;
      cbn [fst snd] in *; try discriminate.
    destruct (Execute_Ok _ _ _ _ _ _ _ Ex) as [-> _].
    change (RemainingQuantity (afterFill taker qty))
      with (Sub (RemainingQuantity taker) qty) in *.
    destruct (IsZero (Sub (RemainingQuantity taker) qty)) eqn:Hz.
    + cbn in Hrun. injection Hrun as <-. eexists. split; [reflexivity|].
      split; [constructor; [exact Hq|constructor]|].
      split; [cbn; rewrite Sub_toQ; lra|].
      split; [exact Hr|]. split; [reflexivity|].
      rewrite Remaining_afterFill. intros Hn. congruence.
    + destruct (IH (afterFill taker qty) s1
                  (log ++ [mkCall taker m qty (Ok (afterFill taker qty, m1))])
                  Hr Hms' Hrun)
        as (calls & Hlog & Hpos & Hsum & Hfin & Hqt & Hfull).
      exists (mkCall taker m qty (Ok (afterFill taker qty, m1)) :: calls).
      split; [rewrite Hlog, <- app_assoc; reflexivity|].
      split; [constructor; [exact Hq|exact Hpos]|].
      split.
      { cbn [sumCalls callQty]. rewrite Hsum, Remaining_afterFill, Sub_toQ. lra. }
      split; [exact Hfin|]. split; [exact Hqt|].
      intros Hn. destruct (Hfull Hn) as [Hmap Hfl].
      split; [cbn; rewrite Hmap; reflexivity|].
      constructor; [cbn; apply Hall; reflexivity|exact Hfl].
Qed.

(** X12. Matching never executes more than the order asks for, over any
    repositories.  When the taker and the makers have non-negative
    remaining quantities and the loop returns the order, each quantity
    it handed to the trade executor is between 0 and what that maker
    had left, the quantities add up to exactly what the order's
    remaining quantity went down by, and the order's remaining quantity
    has not gone below zero.  If the order is returned with something
    still unfilled, every maker has been executed against, each for the
    whole of its own remaining quantity. *)
Theorem matching_never_overfills (taker taker' : Order) (makers : list Order) (s : S) :
  (0 <= toQ (RemainingQuantity taker))%Q ->
  Forall (fun m => (0 <= toQ (RemainingQuantity m))%Q) makers ->
  snd (matchLoopRec taker makers (s, [])) = Ok taker' ->
  let calls := snd (fst (matchLoopRec taker makers (s, []))) in
  Forall (fun c => (0 <= toQ (callQty c) <= toQ (RemainingQuantity (callMaker c)))%Q) calls
  /\ (sumCalls calls == toQ (RemainingQuantity taker) - toQ (RemainingQuantity taker'))%Q
  /\ (0 <= toQ (RemainingQuantity taker') <= toQ (RemainingQuantity taker))%Q
  /\ Quantity taker' = Quantity taker
  /\ (IsZero (RemainingQuantity taker') = false ->
      List.map callMaker calls = makers
      /\ Forall (fun c => (toQ (callQty c) == toQ (RemainingQuantity (callMaker c)))%Q)
                calls).
Proof.
  intros Ht Hms Hrun calls.
  destruct (matchLoop_quantities makers taker taker' s [] Ht Hms Hrun)
    as (calls' & Hlog & Hpos & Hsum & Hfin & Hqt & Hfull).
  cbn [app] in Hlog. fold calls in Hlog. subst calls'.
  split; [exact Hpos|]. split; [exact Hsum|].
  split.
  - split; [exact Hfin|].
    assert (0 <= sumCalls calls)%Q as Hnn.
    { clear -Hpos. induction Hpos as [|c r [Hq _] _ IH]; cbn; [lra|lra]. }
    lra.
  - split; [exact Hqt|exact Hfull].
Qed.

End matching_quantities.

(** The example of X12, on the database: the buyer of 0.5 takes 0.5 of
    the 0.8 on offer and is returned filled. *)
Lemma matching_never_overfills_example :
  List.map callQty
    (snd (fst (matchLoop
                 (executor := recordingExecutor
                                (tradeExecutor (orderRepo := orderRepository)
                                   (walletRepo := walletRepository)
                                   (tradeRepo := tradeRepository)))
                 exampleTaker [exampleMaker] (exampleDB, []))))
  = [New 5 (-1)]
  /\ (sumCalls
        (snd (fst (matchLoop
                     (executor := recordingExecutor
                                    (tradeExecutor (orderRepo := orderRepository)
                                       (walletRepo := walletRepository)
                                       (tradeRepo := tradeRepository)))
                     exampleTaker [exampleMaker] (exampleDB, []))))
      == toQ (RemainingQuantity exampleTaker)
         - toQ (RemainingQuantity (afterFill exampleTaker (New 5 (-1)))))%Q.
Proof.
  split; [vm_compute; reflexivity|].
  destruct (matching_never_overfills orderRepository walletRepository tradeRepository
              exampleTaker (afterFill exampleTaker (New 5 (-1))) [exampleMaker] exampleDB)
    as (_ & Hsum & _).
  - vm_compute. discriminate.
  - constructor; [vm_compute; discriminate|constructor].
  - vm_compute. reflexivity.
  - exact Hsum.
Defined.

(* ===================================================================== *)
(** * Execution on the database: the rows of the two orders *)
(* ===================================================================== *)

Section execution_rows.

Local Abbreviation ExecuteDB :=
  (tradeExecutor_Execute (orderRepo := orderRepository)
     (walletRepo := walletRepository) (tradeRepo := tradeRepository)).

(** The rows of the book after an execution: first the rows of the
    order's id, then the rows of the matching order's id, are given the
    remaining quantity and the status computed for them. *)
Lemma Execute_DB_orders (taker maker : Order) (qty : Decimal) (db : DB) :
  orders (fst (ExecuteDB taker maker qty db))
  = List.map (fun o => if N.eqb (ID o) (ID maker)
                       then withStatus
                              (withRemainingQuantity o (RemainingQuantity (afterFill maker qty)))
                              (Status (afterFill maker qty))
                       else o)
      (List.map (fun o => if N.eqb (ID o) (ID taker)
                          then withStatus
                                 (withRemainingQuantity o (RemainingQuantity (afterFill taker qty)))
                                 (Status (afterFill taker qty))
                          else o)
         (orders db)).
Proof.
  unfold tradeExecutor_Execute.
  destruct (String.eqb (OrderType taker) "SELL").
  all: unfold bind at 1; cbn [Create tradeRepository]; unfold tradeRepository_Create;
    cbn [tID N.eqb];
    unfold updateOrderStatus, bind; cbn [UpdateRemainingAndStatus orderRepository];
    unfold orderRepository_UpdateRemainingAndStatus, ret;
    match goal with
    | |- context [settle ?o ?m ?q ?d] =>
        destruct (settle_sameBook o m q d) as [_ Ho];
        destruct (settle o m q d) as [d' [[]|e|]]
    end; cbn [fst snd] in *; rewrite Ho; reflexivity.
Qed.

Lemma afterFill_filled (o : Order) (qty : Decimal) :
  (toQ qty == toQ (RemainingQuantity o))%Q ->
  Status (afterFill o qty) = OrderStatusFilled
  /\ (toQ (RemainingQuantity (afterFill o qty)) == 0)%Q.
Proof.
  intros Hq.
  assert (Hz : (toQ (RemainingQuantity (afterFill o qty)) == 0)%Q).
  { change (RemainingQuantity (afterFill o qty)) with (Sub (RemainingQuantity o) qty).
    rewrite Sub_toQ, Hq. ring. }
  split; [|exact Hz].
  unfold afterFill. cbn [Status withStatus].
  apply (proj1 (newStatusOf_cases _)). exact Hz.
Qed.

(** X14. An order that an execution fills leaves the book.  When the
    executed quantity is all that the matching order had left -- or all
    that the order being placed had left -- every row of that id is
    written back FILLED with nothing remaining, and from then on no
    matching query and no open-orders query returns it: a filled order
    cannot be matched a second time and is not shown in the order
    book. *)
Theorem filled_order_leaves_the_book
    (taker maker o : Order) (qty : Decimal) (db : DB) :
  o = maker \/ (o = taker /\ ID taker <> ID maker) ->
  (toQ qty == toQ (RemainingQuantity o))%Q ->
  (forall m, In m (orders (fst (ExecuteDB taker maker qty db))) -> ID m = ID o ->
     Status m = OrderStatusFilled /\ (toQ (RemainingQuantity m) == 0)%Q)
  /\ (forall accountID pair orderType price isBuyOrder makers m,
        snd (GetMatchingOrders accountID pair orderType price isBuyOrder
               (fst (ExecuteDB taker maker qty db))) = Ok makers ->
        In m makers -> ID m <> ID o)
  /\ (forall pair open m,
        snd (GetOpenOrdersByInstrumentPair pair (fst (ExecuteDB taker maker qty db)))
        = Ok open ->
        In m open -> ID m <> ID o).
Proof.
  intros Hwho Hq.
  destruct (afterFill_filled o qty Hq) as [Hst Hz].
  assert (Hrows : forall m, In m (orders (fst (ExecuteDB taker maker qty db))) ->
                            ID m = ID o ->
                            Status m = OrderStatusFilled
                            /\ (toQ (RemainingQuantity m) == 0)%Q).
  { intros m Hm Hid. rewrite Execute_DB_orders in Hm.
    apply in_map_iff in Hm. destruct Hm as (m1 & <- & Hm1).
    apply in_map_iff in Hm1. destruct Hm1 as (m0 & <- & _).
    destruct Hwho as [-> | [-> Hne]].
    - destruct (N.eqb (ID m0) (ID taker)) eqn:E0;
        cbn [ID withStatus withRemainingQuantity] in *.
      + destruct (N.eqb_spec (ID m0) (ID maker)) as [_|Hn];
          [cbn [Status RemainingQuantity withStatus withRemainingQuantity];
           split; assumption|].
        cbn [ID withStatus withRemainingQuantity] in Hid. contradiction.
      + destruct (N.eqb_spec (ID m0) (ID maker)) as [_|Hn];
          [cbn [Status RemainingQuantity withStatus withRemainingQuantity];
           split; assumption|contradiction].
    - destruct (N.eqb_spec (ID m0) (ID taker)) as [E0|E0];
        cbn [ID withStatus withRemainingQuantity] in *.
      + destruct (N.eqb_spec (ID m0) (ID maker)) as [E1|_]; [congruence|].
        cbn [Status RemainingQuantity withStatus withRemainingQuantity].
        split; assumption.
      + destruct (N.eqb_spec (ID m0) (ID maker)) as [E1|_];
          cbn [ID withStatus withRemainingQuantity] in Hid; contradiction. }
  split; [exact Hrows|]. split.
  - intros accountID pair orderType price isBuyOrder makers m Hrun Hm Hid.
    cbn [GetMatchingOrders orderRepository] in Hrun.
    unfold orderRepository_GetMatchingOrders in Hrun. cbn [snd] in Hrun.
    injection Hrun as <-.
    apply list_elem_of_In in Hm. rewrite merge_sort_Permutation in Hm.
    apply list_elem_of_In, filter_In in Hm. destruct Hm as [Hm Hrow].
    apply matchingRow_iff in Hrow. destruct Hrow as (_ & _ & Hs & _).
    rewrite (proj1 (Hrows m Hm Hid)) in Hs. destruct Hs; discriminate.
  - intros pair open m Hrun Hm Hid.
    cbn [GetOpenOrdersByInstrumentPair orderRepository] in Hrun.
    unfold orderRepository_GetOpenOrdersByInstrumentPair in Hrun. cbn [snd] in Hrun.
    injection Hrun as <-. apply filter_In in Hm. destruct Hm as [Hm Hrow].
    apply andb_true_iff in Hrow. destruct Hrow as [_ Hs]. apply String.eqb_eq in Hs.
    rewrite (proj1 (Hrows m Hm Hid)) in Hs. discriminate.
Qed.

End execution_rows.

(** The example of X14: the buyer takes 0.5 of its 0.5 from the offer
    of 0.8; its row is FILLED and is in no open-orders answer. *)
Lemma filled_order_example :
  (toQ (New 5 (-1)) == toQ (RemainingQuantity exampleTaker))%Q
  /\ (forall m,
        In m (orders (fst (tradeExecutor_Execute (orderRepo := orderRepository)
              (walletRepo := walletRepository) (tradeRepo := tradeRepository)
              exampleTaker exampleMaker (New 5 (-1)) exampleDB))) ->
        ID m = ID exampleTaker -> Status m = OrderStatusFilled)
  /\ (forall open m,
        snd (GetOpenOrdersByInstrumentPair "BTC_BRL" (fst (tradeExecutor_Execute (orderRepo := orderRepository)
              (walletRepo := walletRepository) (tradeRepo := tradeRepository)
              exampleTaker exampleMaker (New 5 (-1)) exampleDB))) = Ok open ->
        In m open -> ID m <> ID exampleTaker).
Proof.
  split; [vm_compute; reflexivity|].
  destruct (filled_order_leaves_the_book exampleTaker exampleMaker exampleTaker
              (New 5 (-1)) exampleDB) as (Hrows & _ & Hopen).
  - right. split; [reflexivity|discriminate].
  - vm_compute. reflexivity.
  - split.
    + intros m Hm Hid. exact (proj1 (Hrows m Hm Hid)).
    + intros open m. apply Hopen.
Defined.

(* ===================================================================== *)
(** * What a validated order asks for *)
(* ===================================================================== *)

Section validated.

Lemma Validate_valid (order : Order) :
  Validate order = None ->
  validSide order /\ IsValidInstrumentPair (InstrumentPair order) = true.
Proof.
  unfold Validate. intros Ev.
  destruct (LessThanOrEqual (Price order) decimal.Zero); [discriminate|].
  destruct (LessThanOrEqual (Quantity order) decimal.Zero); [discriminate|].
  destruct (GreaterThan (Quantity order) (NewFromInt MaxQuantity)); [discriminate|].
  destruct (GreaterThan (Price order) (NewFromInt MaxPrice)); [discriminate|].
  destruct (negb (String.eqb (OrderType order) OrderTypeBuy)
            && negb (String.eqb (OrderType order) OrderTypeSell)) eqn:Hside;
    [discriminate|].
  split; [apply side_check; exact Hside|].
  destruct (IsValidInstrumentPair (InstrumentPair order)); [reflexivity|discriminate].
Qed.

Lemma Validate_bounds (o : Order) :
  Validate o = None ->
  (0 < toQ (Price o) <= inject_Z MaxPrice)%Q
  /\ (0 < toQ (Quantity o) <= inject_Z MaxQuantity)%Q.
Proof.
  unfold Validate. intros Ev.
  destruct (LessThanOrEqual (Price o) decimal.Zero) eqn:H1; [discriminate|].
  destruct (LessThanOrEqual (Quantity o) decimal.Zero) eqn:H2; [discriminate|].
  destruct (GreaterThan (Quantity o) (NewFromInt MaxQuantity)) eqn:H3; [discriminate|].
  destruct (GreaterThan (Price o) (NewFromInt MaxPrice)) eqn:H4; [discriminate|].
  apply LessThanOrEqual_false in H1, H2. apply GreaterThan_false in H3, H4.
  rewrite toQ_Zero in H1, H2. rewrite toQ_NewFromInt in H3, H4.
  repeat split; assumption.
Qed.

(** X15. Validation and the required amount fit together: an order
    that passes [Validate] always has a required asset and amount -- the
    split of its pair cannot go out of range -- the asset is not the
    empty string, the amount is strictly positive, and it is at most
    MaxQuantity of the base asset for a SELL and at most
    MaxPrice x MaxQuantity of the quote asset for a BUY. *)
Theorem validated_order_requires_positive_amount (o : Order) :
  Validate o = None ->
  exists base quote asset amount,
    pairOf base quote (InstrumentPair o)
    /\ GetRequiredAssetAndAmount o = Some (asset, amount)
    /\ asset <> EmptyString
    /\ (0 < toQ amount)%Q
    /\ (OrderType o = OrderTypeBuy ->
        asset = quote
        /\ (toQ amount == toQ (Price o) * toQ (Quantity o))%Q
        /\ (toQ amount <= inject_Z (MaxPrice * MaxQuantity))%Q)
    /\ (OrderType o = OrderTypeSell ->
        asset = base
        /\ amount = Quantity o
        /\ (toQ amount <= inject_Z MaxQuantity)%Q).
Proof.
  intros Ev. destruct (Validate_bounds o Ev) as ([Hp0 Hp1] & [Hq0 Hq1]).
  destruct (Validate_valid o Ev) as [Hs Hv].
  apply IsValidInstrumentPair_iff in Hv. destruct Hv as (base & quote & Hp & Hb & Hq).
  exists base, quote. unfold GetRequiredAssetAndAmount.
  rewrite (pairOf_Split _ _ _ Hp).
  destruct Hs as [Hs | Hs]; rewrite Hs; cbn.
  - exists quote, (Mul (Price o) (Quantity o)).
    split; [exact Hp|]. split; [reflexivity|]. split; [exact Hq|].
    assert (Hm : (toQ (Mul (Price o) (Quantity o)) == toQ (Price o) * toQ (Quantity o))%Q)
      by apply Mul_toQ.
    split; [rewrite Hm; apply Qmult_lt_0_compat; assumption|].
    split.
    + intros _. split; [reflexivity|]. split; [exact Hm|].
      rewrite Hm, inject_Z_mult.
      apply Qmult_le_compat_nonneg; split; try assumption; apply Qlt_le_weak; assumption.
    + intros Hsell. discriminate.
  - exists base, (Quantity o).
    split; [exact Hp|]. split; [reflexivity|]. split; [exact Hb|].
    split; [exact Hq0|].
    split.
    + intros Hbuy. discriminate.
    + intros _. repeat split. exact Hq1.
Qed.

(** X16. The pairs that [IsValidInstrumentPair] accepts are exactly the
    strings [base_quote] with one underscore between two non-empty
    parts: no underscore, a second underscore, or an empty side is
    refused. *)
Theorem valid_pair_shape (pair : string) :
  IsValidInstrumentPair pair = true <->
  exists base quote,
    pair = (base ++ String "_" quote)%string
    /\ strings.ContainsByte base "_" = false
    /\ strings.ContainsByte quote "_" = false
    /\ base <> EmptyString /\ quote <> EmptyString.
Proof.
  rewrite IsValidInstrumentPair_iff. unfold pairOf.
  split; intros (base & quote & H); exists base, quote; tauto.
Qed.

End validated.

(** The example of X15: the buyer of 0.5 at 200000 needs 100000 BRL. *)
Lemma validated_order_example :
  exists base quote asset amount,
    pairOf base quote (InstrumentPair exampleTaker)
    /\ GetRequiredAssetAndAmount exampleTaker = Some (asset, amount)
    /\ asset <> EmptyString
    /\ (0 < toQ amount)%Q.
Proof.
  destruct (validated_order_requires_positive_amount exampleTaker)
    as (base & quote & asset & amount & Hp & Hr & Ha & Hpos & _).
  - vm_compute. reflexivity.
  - exists base, quote, asset, amount.
    split; [exact Hp|]. split; [exact Hr|]. split; [exact Ha|exact Hpos].
Defined.
